(** * The SQL tokenizer of saashard (sqlparser/lex.go)

    A shallow embedding of the hand-written lexer: the [Tokenizer] struct is
    a record, every method is a function that takes the tokenizer and returns
    the updated one, the panic of [Next] is an explicit outcome, and every
    [for] loop of the source is a [Fixpoint] on a fuel counter whose body is
    the loop body. *)

From Stdlib Require Import ZArith Lia List Bool Ascii String DecimalString.
Import ListNotations.

Local Open Scope string_scope.
Local Open Scope Z_scope.

(** ** Machine data *)

(** [uint16(b)] for a byte [b]: the characters of the source are [uint16]
    values, 0..255 for a byte of the input and [EOFCHAR] past its end. *)
Definition uint16 (b : ascii) : Z := Z.of_N (N_of_ascii b).

(** [byte(ch)] for a [uint16] value: the low eight bits. *)
Definition byte (ch : Z) : ascii := ascii_of_N (Z.to_N (ch mod 256)).

(** Go's [int] on the 64-bit targets: two's complement, wrapping. *)
Definition int (z : Z) : Z := (z + 2 ^ 63) mod 2 ^ 64 - 2 ^ 63.

Definition max_int : Z := 2 ^ 63 - 1.
Definition min_int : Z := - 2 ^ 63.

(** [const EOFCHAR = 0x100] *)
Definition EOFCHAR : Z := 0x100.

(** [buffer.WriteByte(c)] on a [bytes.Buffer] holding [buffer]. *)
Definition WriteByte (buffer : string) (c : ascii) : string :=
  buffer ++ String c "".

(** The verb [%d] of [fmt.Fprintf] on an [int]. *)
Definition fmt_d (z : Z) : string := NilZero.string_of_int (Z.to_int z).

(** [bytes.ToLower] on ASCII text (the only text the lexer passes to it:
    bytes accepted by [isLetter] and [isDigit]). *)
Definition lower_byte (c : ascii) : ascii :=
  let n := uint16 c in
  if (uint16 "A" <=? n) && (n <=? uint16 "Z") then byte (n + 32) else c.

Fixpoint ToLower (s : string) : string :=
  match s with
  | EmptyString => EmptyString
  | String c s' => String (lower_byte c) (ToLower s')
  end.

(** ** Outcomes *)

(** What a call can end in: a value, the [panic] of [Next], or the fuel of
    the model running out (shown below never to happen with the fuel [Scan]
    and [Lex] give themselves). *)
Inductive result (A : Type) : Type :=
| Ok (a : A)
| Panic (msg : string)
| OutOfFuel.

Arguments Ok {A} a.
Arguments Panic {A} msg.
Arguments OutOfFuel {A}.

Definition bind {A B : Type} (r : result A) (k : A -> result B) : result B :=
  match r with
  | Ok a => k a
  | Panic msg => Panic msg
  | OutOfFuel => OutOfFuel
  end.

Notation "'let*' x ':=' r 'in' k" := (bind r (fun x => k))
  (at level 10, x pattern, r at level 100, k at level 200).

(** ** Token kinds *)

(** The names of the token constants that lex.go uses.  Their values are
    assigned by goyacc in the generated parser. *)
Inductive Token : Set :=
| LEX_ERROR | ID | STRING | NUMBER | VALUE_ARG | COMMENT
| LE | GE | NE | NULL_SAFE_EQUAL
| SELECT | INSERT | UPDATE | DELETE | FROM | WHERE | GROUP | HAVING
| ORDER | BY | LIMIT | FOR
| UNION | ALL | MINUS | EXCEPT | INTERSECT
| JOIN | FULL | STRAIGHT_JOIN | LEFT | RIGHT | INNER | OUTER | CROSS
| NATURAL | USE | FORCE | ON | INTO
| DISTINCT | CASE | WHEN | THEN | ELSE | END | AS | AND | OR | NOT
| EXISTS | IN | IS | LIKE | BETWEEN | NULL | ASC | DESC | VALUES
| DUPLICATE | KEY | DEFAULT | SET | LOCK
| CREATE | ALTER | RENAME | DROP | TABLE | INDEX | VIEW | TO | IGNORE
| IF | UNIQUE | USING
| BEGIN | ROLLBACK | COMMIT
| NAMES | REPLACE | START | TRANSACTION | ISOLATION | LEVEL | REPEATABLE
| READ | COMMITTED | UNCOMMITTED | SERIALIZABLE | COLLATE | OFFSET
| CHARSET | CHARACTER | COLLATION | SHOW | DESCRIBE | EXPLAIN
| VARIABLES | STATUS | DATABASES | DATABASE | TABLES | COLUMNS
| PROCEDURE | FUNCTION | ENGINES | STORAGE | PLUGINS | PROCESSLIST
| INDEXES | KEYS | TRIGGERS | TRIGGER | SLAVE
| SESSION | GLOBAL
| ARMSCII8 | ASCII | BIG5 | BINARY | CP1250 | CP1251 | CP1256 | CP1257
| CP850 | CP852 | CP866 | CP932 | DEC8 | EUCJPMS | EUCKR | GB2312 | GBK
| GEOSTD8 | GREEK | HEBREW | HP8 | KEYBCS2 | KOI8R | KOI8U | LATIN1
| LATIN2 | LATIN5 | LATIN7 | MACCE | MACROMAN | SJIS | SWE7 | TIS620
| UCS2 | EJIS | UTF16 | UTF16LE | UTF32 | UTF8 | UTF8MB4
| ADMIN | HELP.

(** [var keywords = map[string]int{...}], as the list of its entries; the
    keys of a Go map literal are distinct, so the first match is the match. *)
Definition keywords : list (string * Token) :=
  [ ("select", SELECT); ("insert", INSERT); ("update", UPDATE);
    ("delete", DELETE); ("from", FROM); ("where", WHERE); ("group", GROUP);
    ("having", HAVING); ("order", ORDER); ("by", BY); ("limit", LIMIT);
    ("for", FOR);
    ("union", UNION); ("all", ALL); ("minus", MINUS); ("except", EXCEPT);
    ("intersect", INTERSECT);
    ("join", JOIN); ("full", FULL); ("straight_join", STRAIGHT_JOIN);
    ("left", LEFT); ("right", RIGHT); ("inner", INNER); ("outer", OUTER);
    ("cross", CROSS); ("natural", NATURAL); ("use", USE); ("force", FORCE);
    ("on", ON); ("into", INTO);
    ("distinct", DISTINCT); ("case", CASE); ("when", WHEN); ("then", THEN);
    ("else", ELSE); ("end", END); ("as", AS); ("and", AND); ("or", OR);
    ("not", NOT); ("exists", EXISTS); ("in", IN); ("is", IS); ("like", LIKE);
    ("between", BETWEEN); ("null", NULL); ("asc", ASC); ("desc", DESC);
    ("values", VALUES); ("duplicate", DUPLICATE); ("key", KEY);
    ("default", DEFAULT); ("set", SET); ("lock", LOCK);
    ("create", CREATE); ("alter", ALTER); ("rename", RENAME); ("drop", DROP);
    ("table", TABLE); ("index", INDEX); ("view", VIEW); ("to", TO);
    ("ignore", IGNORE); ("if", IF); ("unique", UNIQUE); ("using", USING);
    ("begin", BEGIN); ("rollback", ROLLBACK); ("commit", COMMIT);
    ("names", NAMES); ("replace", REPLACE); ("start", START);
    ("transaction", TRANSACTION); ("isolation", ISOLATION); ("level", LEVEL);
    ("repeatable", REPEATABLE); ("read", READ); ("committed", COMMITTED);
    ("uncommitted", UNCOMMITTED); ("serializable", SERIALIZABLE);
    ("collate", COLLATE); ("offset", OFFSET); ("charset", CHARSET);
    ("character", CHARACTER); ("collation", COLLATION); ("show", SHOW);
    ("describe", DESCRIBE); ("explain", EXPLAIN);
    ("variables", VARIABLES); ("status", STATUS); ("databases", DATABASES);
    ("database", DATABASE); ("tables", TABLES); ("columns", COLUMNS);
    ("procedure", PROCEDURE); ("function", FUNCTION); ("engines", ENGINES);
    ("storage", STORAGE); ("plugins", PLUGINS); ("processlist", PROCESSLIST);
    ("indexes", INDEXES); ("keys", KEYS); ("triggers", TRIGGERS);
    ("trigger", TRIGGER); ("slave", SLAVE);
    ("session", SESSION); ("global", GLOBAL);
    ("armscii8", ARMSCII8); ("ascii", ASCII); ("big5", BIG5);
    ("binary", BINARY); ("cp1250", CP1250); ("cp1251", CP1251);
    ("cp1256", CP1256); ("cp1257", CP1257); ("cp850", CP850);
    ("cp852", CP852); ("cp866", CP866); ("cp932", CP932); ("dec8", DEC8);
    ("eucjpms", EUCJPMS); ("euckr", EUCKR); ("gb2312", GB2312); ("gbk", GBK);
    ("geostd8", GEOSTD8); ("greek", GREEK); ("hebrew", HEBREW); ("hp8", HP8);
    ("keybcs2", KEYBCS2); ("koi8r", KOI8R); ("koi8u", KOI8U);
    ("latin1", LATIN1); ("latin2", LATIN2); ("latin5", LATIN5);
    ("latin7", LATIN7); ("macce", MACCE); ("macroman", MACROMAN);
    ("sjis", SJIS); ("swe7", SWE7); ("tis620", TIS620); ("ucs2", UCS2);
    ("ujis", EJIS); ("utf16", UTF16); ("utf16le", UTF16LE); ("utf32", UTF32);
    ("utf8", UTF8); ("utf8mb4", UTF8MB4);
    ("admin", ADMIN); ("help", HELP) ].

(** [keywords[key]] with its [found] flag. *)
Fixpoint lookup (key : string) (m : list (string * Token)) : option Token :=
  match m with
  | [] => None
  | (k, v) :: m' => if String.eqb key k then Some v else lookup key m'
  end.

(** ** The tokenizer state *)

(** [type Tokenizer struct].  [InStream] is the unread rest of the
    [strings.Reader]; a nil [[]byte] is [None].  The field [ParseTree] is
    written by the parser only and is left out. *)
Record Tokenizer : Type := mkTokenizer {
  InStream : string;
  AllowComments : bool;
  ForceEOF : bool;
  lastChar : Z;
  Position : Z;
  errorToken : option string;
  LastError : string;
  posVarIndex : Z
}.

(** [func NewStringTokenizer(sql string) *Tokenizer]: every other field has
    Go's zero value. *)
Definition NewStringTokenizer (sql : string) : Tokenizer :=
  {| InStream := sql; AllowComments := false; ForceEOF := false;
     lastChar := 0; Position := 0; errorToken := None; LastError := "";
     posVarIndex := 0 |}.

(** ** Character classes *)

Definition isLetter (ch : Z) : bool :=
  ((uint16 "a" <=? ch) && (ch <=? uint16 "z"))
  || ((uint16 "A" <=? ch) && (ch <=? uint16 "Z"))
  || (ch =? uint16 "_") || (ch =? uint16 "@").

Definition digitVal (ch : Z) : Z :=
  if (uint16 "0" <=? ch) && (ch <=? uint16 "9") then ch - uint16 "0"
  else if (uint16 "a" <=? ch) && (ch <=? uint16 "f") then ch - uint16 "a" + 10
  else if (uint16 "A" <=? ch) && (ch <=? uint16 "F") then ch - uint16 "A" + 10
  else 16.

Definition isDigit (ch : Z) : bool :=
  (uint16 "0" <=? ch) && (ch <=? uint16 "9").

(** ** The character reader *)

(** [func (tkn *Tokenizer) next()]: [ReadByte] fails at the end of the
    reader only; [Position] is incremented on both branches. *)
Definition next (tkn : Tokenizer) : Tokenizer :=
  match InStream tkn with
  | EmptyString =>
      {| InStream := EmptyString; AllowComments := AllowComments tkn;
         ForceEOF := ForceEOF tkn; lastChar := EOFCHAR;
         Position := int (Position tkn + 1); errorToken := errorToken tkn;
         LastError := LastError tkn; posVarIndex := posVarIndex tkn |}
  | String ch rest =>
      {| InStream := rest; AllowComments := AllowComments tkn;
         ForceEOF := ForceEOF tkn; lastChar := uint16 ch;
         Position := int (Position tkn + 1); errorToken := errorToken tkn;
         LastError := LastError tkn; posVarIndex := posVarIndex tkn |}
  end.

(** [func (tkn *Tokenizer) Next(buffer *bytes.Buffer)] *)
Definition Next (buffer : string) (tkn : Tokenizer)
  : result (string * Tokenizer) :=
  if lastChar tkn =? EOFCHAR then Panic "unexpected EOF"
  else Ok (WriteByte buffer (byte (lastChar tkn)), next tkn).

(** [func (tkn *Tokenizer) skipBlank()] *)
Fixpoint skipBlank (fuel : nat) (tkn : Tokenizer) : result Tokenizer :=
  let ch := lastChar tkn in
  if (ch =? uint16 " ") || (ch =? 10) || (ch =? 13) || (ch =? 9) then
    match fuel with
    | O => OutOfFuel
    | S fuel' => skipBlank fuel' (next tkn)
    end
  else Ok tkn.

(** ** The lexer *)

(** What lex.go takes from files outside it: the values goyacc gives the
    token constants in the generated parser ([const SELECT = ...]), and from
    package sqltypes the escape table [SQLDecodeMap], indexed by the byte
    after a backslash, with [DONTESCAPE], its entry for a byte that stands
    for itself. *)
Class Imports : Type := {
  tok : Token -> Z;
  SQLDecodeMap : ascii -> ascii;
  DONTESCAPE : ascii
}.

Section Lexer.

Context {imports : Imports}.

(** A token as [Scan] returns it: [(int, []byte)]. *)
Definition token : Type := Z * option string.

(** The loop of [scanIdentifier]; the [for] clause's initial [tkn.next()]
    is in [scanIdentifier]. *)
Fixpoint scanIdentifier_loop (fuel : nat) (buffer : string) (tkn : Tokenizer)
  : result (string * Tokenizer) :=
  if isLetter (lastChar tkn) || isDigit (lastChar tkn) then
    match fuel with
    | O => OutOfFuel
    | S fuel' =>
        scanIdentifier_loop fuel'
          (WriteByte buffer (byte (lastChar tkn))) (next tkn)
    end
  else Ok (buffer, tkn).

(** [func (tkn *Tokenizer) scanIdentifier() (int, []byte)] *)
Definition scanIdentifier (fuel : nat) (tkn : Tokenizer)
  : result (token * Tokenizer) :=
  let buffer := WriteByte "" (byte (lastChar tkn)) in
  let* (buffer, tkn) := scanIdentifier_loop fuel buffer (next tkn) in
  let lowered := ToLower buffer in
  match lookup lowered keywords with
  | Some keywordID => Ok ((tok keywordID, Some lowered), tkn)
  | None => Ok ((tok ID, Some buffer), tkn)
  end.

(** The loop of [scanBindVar]. *)
Fixpoint scanBindVar_loop (fuel : nat) (buffer : string) (tkn : Tokenizer)
  : result (string * Tokenizer) :=
  if isLetter (lastChar tkn) || isDigit (lastChar tkn)
     || (lastChar tkn =? uint16 ".") then
    match fuel with
    | O => OutOfFuel
    | S fuel' =>
        scanBindVar_loop fuel'
          (WriteByte buffer (byte (lastChar tkn))) (next tkn)
    end
  else Ok (buffer, tkn).

(** [func (tkn *Tokenizer) scanBindVar() (int, []byte)] *)
Definition scanBindVar (fuel : nat) (tkn : Tokenizer)
  : result (token * Tokenizer) :=
  let buffer := WriteByte "" (byte (lastChar tkn)) in
  let* (buffer, tkn) := scanBindVar_loop fuel buffer (next tkn) in
  if (String.length buffer =? 1)%nat
  then Ok ((tok LEX_ERROR, Some buffer), tkn)
  else Ok ((tok VALUE_ARG, Some buffer), tkn).

(** [func (tkn *Tokenizer) scanMantissa(base int, buffer *bytes.Buffer)] *)
Fixpoint scanMantissa (fuel : nat) (base : Z) (buffer : string)
  (tkn : Tokenizer) : result (string * Tokenizer) :=
  if digitVal (lastChar tkn) <? base then
    match fuel with
    | O => OutOfFuel
    | S fuel' =>
        let* (buffer, tkn) := Next buffer tkn in
        scanMantissa fuel' base buffer tkn
    end
  else Ok (buffer, tkn).

(** [scanNumber] from its label [exit]. *)
Definition scanNumber_exit (buffer : string) (tkn : Tokenizer)
  : result (token * Tokenizer) :=
  Ok ((tok NUMBER, Some buffer), tkn).

(** [scanNumber] from its label [exponent]. *)
Definition scanNumber_exponent (fuel : nat) (buffer : string)
  (tkn : Tokenizer) : result (token * Tokenizer) :=
  if (lastChar tkn =? uint16 "e") || (lastChar tkn =? uint16 "E") then
    let* (buffer, tkn) := Next buffer tkn in
    let* (buffer, tkn) :=
      (if (lastChar tkn =? uint16 "+") || (lastChar tkn =? uint16 "-")
       then Next buffer tkn else Ok (buffer, tkn)) in
    let* (buffer, tkn) := scanMantissa fuel 10 buffer tkn in
    scanNumber_exit buffer tkn
  else scanNumber_exit buffer tkn.

(** [scanNumber] from its label [fraction]. *)
Definition scanNumber_fraction (fuel : nat) (buffer : string)
  (tkn : Tokenizer) : result (token * Tokenizer) :=
  let* (buffer, tkn) :=
    (if lastChar tkn =? uint16 "." then
       let* (buffer, tkn) := Next buffer tkn in
       scanMantissa fuel 10 buffer tkn
     else Ok (buffer, tkn)) in
  scanNumber_exponent fuel buffer tkn.

(** [func (tkn *Tokenizer) scanNumber(seenDecimalPoint bool) (int, []byte)] *)
Definition scanNumber (fuel : nat) (seenDecimalPoint : bool)
  (tkn : Tokenizer) : result (token * Tokenizer) :=
  let buffer := "" in
  if seenDecimalPoint then
    let buffer := WriteByte buffer "." in
    let* (buffer, tkn) := scanMantissa fuel 10 buffer tkn in
    scanNumber_exponent fuel buffer tkn
  else if lastChar tkn =? uint16 "0" then
    let* (buffer, tkn) := Next buffer tkn in
    if (lastChar tkn =? uint16 "x") || (lastChar tkn =? uint16 "X") then
      let* (buffer, tkn) := Next buffer tkn in
      let* (buffer, tkn) := scanMantissa fuel 16 buffer tkn in
      scanNumber_exit buffer tkn
    else
      let* (buffer, tkn) := scanMantissa fuel 8 buffer tkn in
      let* (seenDecimalDigit, (buffer, tkn)) :=
        (if (lastChar tkn =? uint16 "8") || (lastChar tkn =? uint16 "9")
         then let* r := scanMantissa fuel 10 buffer tkn in Ok (true, r)
         else Ok (false, (buffer, tkn))) in
      if (lastChar tkn =? uint16 ".") || (lastChar tkn =? uint16 "e")
         || (lastChar tkn =? uint16 "E") then
        scanNumber_fraction fuel buffer tkn
      else if seenDecimalDigit : bool then
        Ok ((tok LEX_ERROR, Some buffer), tkn)
      else scanNumber_exit buffer tkn
  else
    let* (buffer, tkn) := scanMantissa fuel 10 buffer tkn in
    scanNumber_fraction fuel buffer tkn.

(** How one turn of the loop of [scanString] leaves its [if] chain. *)
Inductive string_turn : Type :=
| Break (tkn : Tokenizer)
| Return (r : token * Tokenizer)
| Fall (ch : Z) (tkn : Tokenizer).

(** The loop of [scanString]. *)
Fixpoint scanString_loop (fuel : nat) (delim : Z) (typ : Z)
  (buffer : string) (tkn : Tokenizer) : result (token * Tokenizer) :=
  match fuel with
  | O => OutOfFuel
  | S fuel' =>
      let ch := lastChar tkn in
      let tkn := next tkn in
      let turn :=
        if ch =? delim then
          if lastChar tkn =? delim then Fall ch (next tkn) else Break tkn
        else if ch =? uint16 "\" then
          if lastChar tkn =? EOFCHAR then
            Return ((tok LEX_ERROR, Some buffer), tkn)
          else
            let decodedChar := SQLDecodeMap (byte (lastChar tkn)) in
            let ch :=
              if Ascii.eqb decodedChar DONTESCAPE then lastChar tkn
              else uint16 decodedChar in
            Fall ch (next tkn)
        else Fall ch tkn in
      match turn with
      | Break tkn => Ok ((typ, Some buffer), tkn)
      | Return r => Ok r
      | Fall ch tkn =>
          if ch =? EOFCHAR then Ok ((tok LEX_ERROR, Some buffer), tkn)
          else scanString_loop fuel' delim typ
                 (WriteByte buffer (byte ch)) tkn
      end
  end.

(** [func (tkn *Tokenizer) scanString(delim uint16, typ int) (int, []byte)] *)
Definition scanString (fuel : nat) (delim : Z) (typ : Z) (tkn : Tokenizer)
  : result (token * Tokenizer) :=
  scanString_loop fuel delim typ "" tkn.

(** The loop of [scanCommentType1]. *)
Fixpoint scanCommentType1_loop (fuel : nat) (buffer : string)
  (tkn : Tokenizer) : result (string * Tokenizer) :=
  if negb (lastChar tkn =? EOFCHAR) then
    match fuel with
    | O => OutOfFuel
    | S fuel' =>
        if lastChar tkn =? 10 then Next buffer tkn
        else
          let* (buffer, tkn) := Next buffer tkn in
          scanCommentType1_loop fuel' buffer tkn
    end
  else Ok (buffer, tkn).

(** [func (tkn *Tokenizer) scanCommentType1(prefix string) (int, []byte)] *)
Definition scanCommentType1 (fuel : nat) (prefix : string) (tkn : Tokenizer)
  : result (token * Tokenizer) :=
  let buffer := "" ++ prefix in
  let* (buffer, tkn) := scanCommentType1_loop fuel buffer tkn in
  Ok ((tok COMMENT, Some buffer), tkn).

(** The loop of [scanCommentType2]. *)
Fixpoint scanCommentType2_loop (fuel : nat) (buffer : string)
  (tkn : Tokenizer) : result (token * Tokenizer) :=
  match fuel with
  | O => OutOfFuel
  | S fuel' =>
      if lastChar tkn =? uint16 "*" then
        let* (buffer, tkn) := Next buffer tkn in
        if lastChar tkn =? uint16 "/" then
          let* (buffer, tkn) := Next buffer tkn in
          Ok ((tok COMMENT, Some buffer), tkn)
        else scanCommentType2_loop fuel' buffer tkn
      else if lastChar tkn =? EOFCHAR then
        Ok ((tok LEX_ERROR, Some buffer), tkn)
      else
        let* (buffer, tkn) := Next buffer tkn in
        scanCommentType2_loop fuel' buffer tkn
  end.

(** [func (tkn *Tokenizer) scanCommentType2() (int, []byte)] *)
Definition scanCommentType2 (fuel : nat) (tkn : Tokenizer)
  : result (token * Tokenizer) :=
  scanCommentType2_loop fuel "/*" tkn.

(** [tkn.posVarIndex = n] and [tkn.errorToken = val]. *)
Definition set_posVarIndex (tkn : Tokenizer) (n : Z) : Tokenizer :=
  {| InStream := InStream tkn; AllowComments := AllowComments tkn;
     ForceEOF := ForceEOF tkn; lastChar := lastChar tkn;
     Position := Position tkn; errorToken := errorToken tkn;
     LastError := LastError tkn; posVarIndex := n |}.

Definition set_errorToken (tkn : Tokenizer) (val : option string)
  : Tokenizer :=
  {| InStream := InStream tkn; AllowComments := AllowComments tkn;
     ForceEOF := ForceEOF tkn; lastChar := lastChar tkn;
     Position := Position tkn; errorToken := val;
     LastError := LastError tkn; posVarIndex := posVarIndex tkn |}.

(** [case '=', ',', ';', '(', ')', '+', '*', '%', '&', '|', '^', '~'] *)
Definition isSelfDelimiting (ch : Z) : bool :=
  (ch =? uint16 "=") || (ch =? uint16 ",") || (ch =? uint16 ";")
  || (ch =? uint16 "(") || (ch =? uint16 ")") || (ch =? uint16 "+")
  || (ch =? uint16 "*") || (ch =? uint16 "%") || (ch =? uint16 "&")
  || (ch =? uint16 "|") || (ch =? uint16 "^") || (ch =? uint16 "~").

(** [func (tkn *Tokenizer) Scan() (int, []byte)], its loops running on
    [fuel]. *)
Definition Scan_with (fuel : nat) (tkn : Tokenizer)
  : result (token * Tokenizer) :=
  if ForceEOF tkn then Ok ((0, None), tkn)
  else
    let tkn := if lastChar tkn =? 0 then next tkn else tkn in
    let* tkn := skipBlank fuel tkn in
    let ch := lastChar tkn in
    if isLetter ch then scanIdentifier fuel tkn
    else if isDigit ch then scanNumber fuel false tkn
    else if ch =? uint16 ":" then scanBindVar fuel tkn
    else
      let tkn := next tkn in
      if ch =? EOFCHAR then Ok ((0, None), tkn)
      else if isSelfDelimiting ch then Ok ((ch, None), tkn)
      else if ch =? uint16 "?" then
        let tkn := set_posVarIndex tkn (int (posVarIndex tkn + 1)) in
        let buf := ":v" ++ fmt_d (posVarIndex tkn) in
        Ok ((tok VALUE_ARG, Some buf), tkn)
      else if ch =? uint16 "." then
        if isDigit (lastChar tkn) then scanNumber fuel true tkn
        else Ok ((ch, None), tkn)
      else if ch =? uint16 "/" then
        if lastChar tkn =? uint16 "/" then
          scanCommentType1 fuel "//" (next tkn)
        else if lastChar tkn =? uint16 "*" then
          scanCommentType2 fuel (next tkn)
        else Ok ((ch, None), tkn)
      else if ch =? uint16 "-" then
        if lastChar tkn =? uint16 "-" then
          scanCommentType1 fuel "--" (next tkn)
        else Ok ((ch, None), tkn)
      else if ch =? uint16 "<" then
        if lastChar tkn =? uint16 ">" then Ok ((tok NE, None), next tkn)
        else if lastChar tkn =? uint16 "=" then
          let tkn := next tkn in
          if lastChar tkn =? uint16 ">" then
            Ok ((tok NULL_SAFE_EQUAL, None), next tkn)
          else Ok ((tok LE, None), tkn)
        else Ok ((ch, None), tkn)
      else if ch =? uint16 ">" then
        if lastChar tkn =? uint16 "=" then Ok ((tok GE, None), next tkn)
        else Ok ((ch, None), tkn)
      else if ch =? uint16 "!" then
        if lastChar tkn =? uint16 "=" then Ok ((tok NE, None), next tkn)
        else Ok ((tok LEX_ERROR, Some "!"), tkn)
      else if (ch =? uint16 "'") || (ch =? 34) then
        scanString fuel ch (tok STRING) tkn
      else if ch =? uint16 "`" then
        scanString fuel ch (tok ID) tkn
      else Ok ((tok LEX_ERROR, Some (String (byte ch) "")), tkn).

(** Twice the unread bytes, plus one while the lookahead is not the
    end-of-input sentinel: no call of [next] raises it, and every call made
    on a lookahead other than the sentinel lowers it. *)
Definition measure (tkn : Tokenizer) : nat :=
  (2 * String.length (InStream tkn)
   + if (lastChar tkn =? EOFCHAR)%Z then 0 else 1)%nat.

(** Fuel that no loop of one call exhausts. *)
Definition fuel_of (tkn : Tokenizer) : nat :=
  (2 * String.length (InStream tkn) + 2)%nat.

(** [Scan] proper. *)
Definition Scan (tkn : Tokenizer) : result (token * Tokenizer) :=
  Scan_with (fuel_of tkn) tkn.

(** The part of the generated [yySymType] that [Lex] writes. *)
Record yySymType : Type := mkSym { bytes : option string }.

(** The loop of [Lex]. *)
Fixpoint Lex_loop (fuel : nat) (tv : token) (tkn : Tokenizer)
  : result (token * Tokenizer) :=
  if fst tv =? tok COMMENT then
    if AllowComments tkn then Ok (tv, tkn)
    else
      match fuel with
      | O => OutOfFuel
      | S fuel' =>
          let* (tv, tkn) := Scan tkn in
          Lex_loop fuel' tv tkn
      end
  else Ok (tv, tkn).

(** [func (tkn *Tokenizer) Lex(lval *yySymType) int] *)
Definition Lex (tkn : Tokenizer) (lval : yySymType)
  : result (Z * yySymType * Tokenizer) :=
  let* (tv, tkn) := Scan tkn in
  let* ((typ, val), tkn) := Lex_loop (fuel_of tkn) tv tkn in
  let lval :=
    if (typ =? tok ID) || (typ =? tok STRING) || (typ =? tok NUMBER)
       || (typ =? tok VALUE_ARG) || (typ =? tok COMMENT)
    then mkSym val else lval in
  let tkn := set_errorToken tkn val in
  Ok (typ, lval, tkn).

End Lexer.

(** ** Running the lexer *)

(** An instance to run the lexer on: goyacc numbers the named tokens from
    57346 on (here in the order of [Token]), and the escape table is the one
    of the MySQL escapes: backslash followed by 0, a single or a double
    quote, b, n, r, t, Z or a backslash; every other byte stands for
    itself. *)
Definition goyacc_tok (k : Token) : Z :=
  match k with
  | LEX_ERROR => 57346 | ID => 57347 | STRING => 57348 | NUMBER => 57349
  | VALUE_ARG => 57350 | COMMENT => 57351 | LE => 57352 | GE => 57353
  | NE => 57354 | NULL_SAFE_EQUAL => 57355 | SELECT => 57356
  | INSERT => 57357 | UPDATE => 57358 | DELETE => 57359 | FROM => 57360
  | WHERE => 57361 | GROUP => 57362 | HAVING => 57363 | ORDER => 57364
  | BY => 57365 | LIMIT => 57366 | FOR => 57367 | UNION => 57368
  | ALL => 57369 | MINUS => 57370 | EXCEPT => 57371 | INTERSECT => 57372
  | JOIN => 57373 | FULL => 57374 | STRAIGHT_JOIN => 57375 | LEFT => 57376
  | RIGHT => 57377 | INNER => 57378 | OUTER => 57379 | CROSS => 57380
  | NATURAL => 57381 | USE => 57382 | FORCE => 57383 | ON => 57384
  | INTO => 57385 | DISTINCT => 57386 | CASE => 57387 | WHEN => 57388
  | THEN => 57389 | ELSE => 57390 | END => 57391 | AS => 57392
  | AND => 57393 | OR => 57394 | NOT => 57395 | EXISTS => 57396
  | IN => 57397 | IS => 57398 | LIKE => 57399 | BETWEEN => 57400
  | NULL => 57401 | ASC => 57402 | DESC => 57403 | VALUES => 57404
  | DUPLICATE => 57405 | KEY => 57406 | DEFAULT => 57407 | SET => 57408
  | LOCK => 57409 | CREATE => 57410 | ALTER => 57411 | RENAME => 57412
  | DROP => 57413 | TABLE => 57414 | INDEX => 57415 | VIEW => 57416
  | TO => 57417 | IGNORE => 57418 | IF => 57419 | UNIQUE => 57420
  | USING => 57421 | BEGIN => 57422 | ROLLBACK => 57423 | COMMIT => 57424
  | NAMES => 57425 | REPLACE => 57426 | START => 57427
  | TRANSACTION => 57428 | ISOLATION => 57429 | LEVEL => 57430
  | REPEATABLE => 57431 | READ => 57432 | COMMITTED => 57433
  | UNCOMMITTED => 57434 | SERIALIZABLE => 57435 | COLLATE => 57436
  | OFFSET => 57437 | CHARSET => 57438 | CHARACTER => 57439
  | COLLATION => 57440 | SHOW => 57441 | DESCRIBE => 57442
  | EXPLAIN => 57443 | VARIABLES => 57444 | STATUS => 57445
  | DATABASES => 57446 | DATABASE => 57447 | TABLES => 57448
  | COLUMNS => 57449 | PROCEDURE => 57450 | FUNCTION => 57451
  | ENGINES => 57452 | STORAGE => 57453 | PLUGINS => 57454
  | PROCESSLIST => 57455 | INDEXES => 57456 | KEYS => 57457
  | TRIGGERS => 57458 | TRIGGER => 57459 | SLAVE => 57460
  | SESSION => 57461 | GLOBAL => 57462 | ARMSCII8 => 57463 | ASCII => 57464
  | BIG5 => 57465 | BINARY => 57466 | CP1250 => 57467 | CP1251 => 57468
  | CP1256 => 57469 | CP1257 => 57470 | CP850 => 57471 | CP852 => 57472
  | CP866 => 57473 | CP932 => 57474 | DEC8 => 57475 | EUCJPMS => 57476
  | EUCKR => 57477 | GB2312 => 57478 | GBK => 57479 | GEOSTD8 => 57480
  | GREEK => 57481 | HEBREW => 57482 | HP8 => 57483 | KEYBCS2 => 57484
  | KOI8R => 57485 | KOI8U => 57486 | LATIN1 => 57487 | LATIN2 => 57488
  | LATIN5 => 57489 | LATIN7 => 57490 | MACCE => 57491 | MACROMAN => 57492
  | SJIS => 57493 | SWE7 => 57494 | TIS620 => 57495 | UCS2 => 57496
  | EJIS => 57497 | UTF16 => 57498 | UTF16LE => 57499 | UTF32 => 57500
  | UTF8 => 57501 | UTF8MB4 => 57502 | ADMIN => 57503 | HELP => 57504
  end.

Definition goyacc_name (z : Z) : option Token :=
  match z with
  | 57346 => Some LEX_ERROR | 57347 => Some ID | 57348 => Some STRING
  | 57349 => Some NUMBER | 57350 => Some VALUE_ARG | 57351 => Some COMMENT
  | 57352 => Some LE | 57353 => Some GE | 57354 => Some NE
  | 57355 => Some NULL_SAFE_EQUAL | 57356 => Some SELECT
  | 57357 => Some INSERT | 57358 => Some UPDATE | 57359 => Some DELETE
  | 57360 => Some FROM | 57361 => Some WHERE | 57362 => Some GROUP
  | 57363 => Some HAVING | 57364 => Some ORDER | 57365 => Some BY
  | 57366 => Some LIMIT | 57367 => Some FOR | 57368 => Some UNION
  | 57369 => Some ALL | 57370 => Some MINUS | 57371 => Some EXCEPT
  | 57372 => Some INTERSECT | 57373 => Some JOIN | 57374 => Some FULL
  | 57375 => Some STRAIGHT_JOIN | 57376 => Some LEFT | 57377 => Some RIGHT
  | 57378 => Some INNER | 57379 => Some OUTER | 57380 => Some CROSS
  | 57381 => Some NATURAL | 57382 => Some USE | 57383 => Some FORCE
  | 57384 => Some ON | 57385 => Some INTO | 57386 => Some DISTINCT
  | 57387 => Some CASE | 57388 => Some WHEN | 57389 => Some THEN
  | 57390 => Some ELSE | 57391 => Some END | 57392 => Some AS
  | 57393 => Some AND | 57394 => Some OR | 57395 => Some NOT
  | 57396 => Some EXISTS | 57397 => Some IN | 57398 => Some IS
  | 57399 => Some LIKE | 57400 => Some BETWEEN | 57401 => Some NULL
  | 57402 => Some ASC | 57403 => Some DESC | 57404 => Some VALUES
  | 57405 => Some DUPLICATE | 57406 => Some KEY | 57407 => Some DEFAULT
  | 57408 => Some SET | 57409 => Some LOCK | 57410 => Some CREATE
  | 57411 => Some ALTER | 57412 => Some RENAME | 57413 => Some DROP
  | 57414 => Some TABLE | 57415 => Some INDEX | 57416 => Some VIEW
  | 57417 => Some TO | 57418 => Some IGNORE | 57419 => Some IF
  | 57420 => Some UNIQUE | 57421 => Some USING | 57422 => Some BEGIN
  | 57423 => Some ROLLBACK | 57424 => Some COMMIT | 57425 => Some NAMES
  | 57426 => Some REPLACE | 57427 => Some START | 57428 => Some TRANSACTION
  | 57429 => Some ISOLATION | 57430 => Some LEVEL
  | 57431 => Some REPEATABLE | 57432 => Some READ | 57433 => Some COMMITTED
  | 57434 => Some UNCOMMITTED | 57435 => Some SERIALIZABLE
  | 57436 => Some COLLATE | 57437 => Some OFFSET | 57438 => Some CHARSET
  | 57439 => Some CHARACTER | 57440 => Some COLLATION | 57441 => Some SHOW
  | 57442 => Some DESCRIBE | 57443 => Some EXPLAIN
  | 57444 => Some VARIABLES | 57445 => Some STATUS
  | 57446 => Some DATABASES | 57447 => Some DATABASE | 57448 => Some TABLES
  | 57449 => Some COLUMNS | 57450 => Some PROCEDURE
  | 57451 => Some FUNCTION | 57452 => Some ENGINES | 57453 => Some STORAGE
  | 57454 => Some PLUGINS | 57455 => Some PROCESSLIST
  | 57456 => Some INDEXES | 57457 => Some KEYS | 57458 => Some TRIGGERS
  | 57459 => Some TRIGGER | 57460 => Some SLAVE | 57461 => Some SESSION
  | 57462 => Some GLOBAL | 57463 => Some ARMSCII8 | 57464 => Some ASCII
  | 57465 => Some BIG5 | 57466 => Some BINARY | 57467 => Some CP1250
  | 57468 => Some CP1251 | 57469 => Some CP1256 | 57470 => Some CP1257
  | 57471 => Some CP850 | 57472 => Some CP852 | 57473 => Some CP866
  | 57474 => Some CP932 | 57475 => Some DEC8 | 57476 => Some EUCJPMS
  | 57477 => Some EUCKR | 57478 => Some GB2312 | 57479 => Some GBK
  | 57480 => Some GEOSTD8 | 57481 => Some GREEK | 57482 => Some HEBREW
  | 57483 => Some HP8 | 57484 => Some KEYBCS2 | 57485 => Some KOI8R
  | 57486 => Some KOI8U | 57487 => Some LATIN1 | 57488 => Some LATIN2
  | 57489 => Some LATIN5 | 57490 => Some LATIN7 | 57491 => Some MACCE
  | 57492 => Some MACROMAN | 57493 => Some SJIS | 57494 => Some SWE7
  | 57495 => Some TIS620 | 57496 => Some UCS2 | 57497 => Some EJIS
  | 57498 => Some UTF16 | 57499 => Some UTF16LE | 57500 => Some UTF32
  | 57501 => Some UTF8 | 57502 => Some UTF8MB4 | 57503 => Some ADMIN
  | 57504 => Some HELP
  | _ => None
  end.

Definition mysql_DONTESCAPE : ascii := "255"%char.

Definition mysql_SQLDecodeMap (b : ascii) : ascii :=
  if Ascii.eqb b "0" then "000"%char
  else if Ascii.eqb b "'" then "'"%char
  else if Ascii.eqb b "034" then "034"%char
  else if Ascii.eqb b "b" then "008"%char
  else if Ascii.eqb b "n" then "010"%char
  else if Ascii.eqb b "r" then "013"%char
  else if Ascii.eqb b "t" then "009"%char
  else if Ascii.eqb b "Z" then "026"%char
  else if Ascii.eqb b "\" then "\"%char
  else mysql_DONTESCAPE.

Definition sample_imports : Imports :=
  {| tok := goyacc_tok; SQLDecodeMap := mysql_SQLDecodeMap;
     DONTESCAPE := mysql_DONTESCAPE |}.

(** [tkn.AllowComments = b], as the caller of [NewStringTokenizer] sets
    it. *)
Definition set_AllowComments (tkn : Tokenizer) (b : bool) : Tokenizer :=
  {| InStream := InStream tkn; AllowComments := b;
     ForceEOF := ForceEOF tkn; lastChar := lastChar tkn;
     Position := Position tkn; errorToken := errorToken tkn;
     LastError := LastError tkn; posVarIndex := posVarIndex tkn |}.

(** ** Vocabulary of the properties *)

(** [k] calls of [next]. *)
Fixpoint nextN (k : nat) (tkn : Tokenizer) : Tokenizer :=
  match k with
  | O => tkn
  | S k' => nextN k' (next tkn)
  end.

(** [tkn'] is [tkn] after at least [lo] calls of [next] and nothing else,
    and the calls cost the measure all but [e] of their number. *)
Definition adv (lo e : nat) (tkn tkn' : Tokenizer) : Prop :=
  exists k : nat,
    (lo <= k)%nat /\ tkn' = nextN k tkn
    /\ (k + measure tkn' <= measure tkn + e)%nat.

(** The lookahead character a text gives: its first byte, or the sentinel
    when it is empty; and the text after it. *)
Definition head_char (s : string) : Z :=
  match s with
  | EmptyString => EOFCHAR
  | String c _ => uint16 c
  end.

Definition tail (s : string) : string :=
  match s with
  | EmptyString => EmptyString
  | String _ s' => s'
  end.

(** The tokenizer stands before the text [s]: its lookahead is the first
    byte of [s] and its reader holds the rest. *)
Definition at_input (tkn : Tokenizer) (s : string) : Prop :=
  lastChar tkn = head_char s /\ InStream tkn = tail s.

(** The tokenizer as the first statement of [Scan] leaves it: a tokenizer
    whose [lastChar] is 0, as that of a new one is, reads a character. *)
Definition start (tkn : Tokenizer) : Tokenizer :=
  if lastChar tkn =? 0 then next tkn else tkn.

(** Every byte of [s] satisfies [p]. *)
Fixpoint all_bytes (p : Z -> bool) (s : string) : bool :=
  match s with
  | EmptyString => true
  | String c s' => p (uint16 c) && all_bytes p s'
  end.

(** Some byte of [s] satisfies [p]. *)
Fixpoint some_byte (p : Z -> bool) (s : string) : bool :=
  match s with
  | EmptyString => false
  | String c s' => p (uint16 c) || some_byte p s'
  end.

(** The bytes read off the reader between two states. *)
Definition consumed (tkn tkn' : Tokenizer) : Z :=
  Z.of_nat (String.length (InStream tkn))
  - Z.of_nat (String.length (InStream tkn')).

(** The characters [Scan] sends to its last [default]. *)
Definition isBlank (ch : Z) : bool :=
  (ch =? uint16 " ") || (ch =? 10) || (ch =? 13) || (ch =? 9).

Definition unrecognized (ch : Z) : bool :=
  negb (isLetter ch || isDigit ch || (ch =? uint16 ":") || isBlank ch
        || (ch =? EOFCHAR) || isSelfDelimiting ch
        || (ch =? uint16 "?") || (ch =? uint16 ".") || (ch =? uint16 "/")
        || (ch =? uint16 "-") || (ch =? uint16 "<") || (ch =? uint16 ">")
        || (ch =? uint16 "!") || (ch =? uint16 "'") || (ch =? 34)
        || (ch =? uint16 "`")).

(** A quoted text closes: read from after its opening delimiter, a
    delimiter that is neither doubled nor behind a backslash occurs. *)
Fixpoint terminated (delim : ascii) (body : string) : bool :=
  match body with
  | EmptyString => false
  | String c rest =>
      if Ascii.eqb c delim then
        match rest with
        | EmptyString => true
        | String c' rest' =>
            if Ascii.eqb c' delim then terminated delim rest' else true
        end
      else if Ascii.eqb c "\" then
        match rest with
        | EmptyString => false
        | String _ rest' => terminated delim rest'
        end
      else terminated delim rest
  end.

(** The text holds a star followed by a slash. *)
Fixpoint has_star_slash (s : string) : bool :=
  match s with
  | EmptyString => false
  | String c rest =>
      (Ascii.eqb c "*" && (head_char rest =? uint16 "/"))
      || has_star_slash rest
  end.

Definition isQuote (delim : ascii) : bool :=
  Ascii.eqb delim "'" || Ascii.eqb delim "034" || Ascii.eqb delim "`".

Definition is8or9 (ch : Z) : bool := (ch =? uint16 "8") || (ch =? uint16 "9").

Definition promotes (ch : Z) : bool :=
  (ch =? uint16 ".") || (ch =? uint16 "e") || (ch =? uint16 "E").

Definition isIdentChar (ch : Z) : bool := isLetter ch || isDigit ch.

Definition isHexDigit (ch : Z) : bool := digitVal ch <? 16.

Section Vocabulary.

Context {imports : Imports}.

(** [n] calls of [Scan] in a row: their tokens. *)
Fixpoint Scans (n : nat) (tkn : Tokenizer)
  : result (list token * Tokenizer) :=
  match n with
  | O => Ok ([], tkn)
  | S n' =>
      let* (tv, tkn) := Scan tkn in
      let* (tvs, tkn) := Scans n' tkn in
      Ok (tv :: tvs, tkn)
  end.

(** The character the [switch] of [Scan] is entered with. *)
Definition dispatch_char (tkn : Tokenizer) : Z :=
  match skipBlank (fuel_of tkn) (start tkn) with
  | Ok tkn' => lastChar tkn'
  | _ => EOFCHAR
  end.

(** This call of [Scan] is for an anonymous placeholder. *)
Definition scans_placeholder (tkn : Tokenizer) : bool :=
  negb (ForceEOF tkn) && (dispatch_char tkn =? uint16 "?").

(** Of [n] calls of [Scan] in a row, the tokens of the calls that are for an
    anonymous placeholder. *)
Fixpoint placeholder_tokens (n : nat) (tkn : Tokenizer) : list token :=
  match n with
  | O => []
  | S n' =>
      match Scan tkn with
      | Ok (tv, tkn') =>
          (if scans_placeholder tkn then [tv] else [])
          ++ placeholder_tokens n' tkn'
      | _ => []
      end
  end.

(** The bind variable with the [i]-th synthesized name. *)
Definition synthesized (i : nat) : token :=
  (tok VALUE_ARG, Some (":v" ++ fmt_d (Z.of_nat i))).

(** What an identifier-shaped text [w] is to become. *)
Definition classify (w : string) : token :=
  match lookup (ToLower w) keywords with
  | Some keywordID => (tok keywordID, Some (ToLower w))
  | None => (tok ID, Some w)
  end.

(** [lval] after a call of [Lex] that ends with the token [tv]. *)
Definition lval_after (lval : yySymType) (tv : token) : yySymType :=
  if (fst tv =? tok ID) || (fst tv =? tok STRING) || (fst tv =? tok NUMBER)
     || (fst tv =? tok VALUE_ARG) || (fst tv =? tok COMMENT)
  then mkSym (snd tv) else lval.

(** [n] calls of [Lex] in a row on one [lval]: the kinds returned, each
    with [lval.bytes] as the call leaves it. *)
Fixpoint pull (n : nat) (tkn : Tokenizer) (lval : yySymType)
  : result (list (Z * option string)) :=
  match n with
  | O => Ok []
  | S n' =>
      let* (r, tkn) := Lex tkn lval in
      let* rest := pull n' tkn (snd r) in
      Ok ((fst r, bytes (snd r)) :: rest)
  end.

End Vocabulary.

(** ** Error reporting *)

(** [tkn.LastError = s]. *)
Definition set_LastError (tkn : Tokenizer) (s : string) : Tokenizer :=
  {| InStream := InStream tkn; AllowComments := AllowComments tkn;
     ForceEOF := ForceEOF tkn; lastChar := lastChar tkn;
     Position := Position tkn; errorToken := errorToken tkn;
     LastError := s; posVarIndex := posVarIndex tkn |}.

(** [func (tkn *Tokenizer) Error(err string)]: the verb [%v] prints the
    [int] in decimal and [%s] the bytes of [errorToken] as they are. *)
Definition Error (tkn : Tokenizer) (err : string) : Tokenizer :=
  let buf :=
    match errorToken tkn with
    | Some near =>
        err ++ " at position " ++ fmt_d (Position tkn) ++ " near " ++ near
    | None => err ++ " at position " ++ fmt_d (Position tkn)
    end in
  set_LastError tkn buf.

(** ** More vocabulary *)

(** The characters of the name of a bind variable. *)
Definition isNameChar (ch : Z) : bool :=
  isLetter ch || isDigit ch || (ch =? uint16 ".").

Definition isNewline (ch : Z) : bool := ch =? 10.

Definition isBackslash (ch : Z) : bool := ch =? uint16 "\".

(** A text with each of its delimiters doubled. *)
Fixpoint double_delim (delim : ascii) (s : string) : string :=
  match s with
  | EmptyString => EmptyString
  | String c s' =>
      if Ascii.eqb c delim
      then String c (String c (double_delim delim s'))
      else String c (double_delim delim s')
  end.

(** The kind [Scan] asks [scanString] for. *)
Definition quoted_kind {imports : Imports} (delim : ascii) : Z :=
  if Ascii.eqb delim "`" then tok ID else tok STRING.

(** From before the text [s] and with [buffer] written, a scanner that
    ends with the buffer and tokenizer [r] has moved a beginning of [s]
    into the buffer and stands before the rest. *)
Definition reads (s buffer : string) (r : string * Tokenizer) : Prop :=
  exists more rest : string,
    fst r = buffer ++ more /\ s = more ++ rest /\ at_input (snd r) rest.

(** A letter followed by letters and digits. *)
Definition ident_shaped (w : string) : bool :=
  match w with
  | EmptyString => false
  | String c w' => isLetter (uint16 c) && all_bytes isIdentChar w'
  end.

(** [tkn.ForceEOF = b], as the parser sets it. *)
Definition set_ForceEOF (tkn : Tokenizer) (b : bool) : Tokenizer :=
  {| InStream := InStream tkn; AllowComments := AllowComments tkn;
     ForceEOF := b; lastChar := lastChar tkn;
     Position := Position tkn; errorToken := errorToken tkn;
     LastError := LastError tkn; posVarIndex := posVarIndex tkn |}.

(** * Properties *)

(** ** Bytes and machine integers *)

Lemma uint16_range (c : ascii) : 0 <= uint16 c < 256.
Proof.
  unfold uint16. pose proof (N_ascii_bounded c). lia.
Qed.

Lemma byte_uint16 (c : ascii) : byte (uint16 c) = c.
Proof.
  unfold byte. pose proof (uint16_range c) as H.
  rewrite Z.mod_small by lia. unfold uint16.
  rewrite N2Z.id. apply ascii_N_embedding.
Qed.

Lemma uint16_inj (c d : ascii) : uint16 c = uint16 d -> c = d.
Proof.
  intros H. rewrite <- (byte_uint16 c), <- (byte_uint16 d). now rewrite H.
Qed.

Lemma uint16_eqb (c d : ascii) : (uint16 c =? uint16 d) = Ascii.eqb c d.
Proof.
  destruct (Ascii.eqb c d) eqn:E.
  - apply Ascii.eqb_eq in E. subst. apply Z.eqb_refl.
  - apply Z.eqb_neq. intros H. apply uint16_inj in H.
    apply Ascii.eqb_neq in E. contradiction.
Qed.

Lemma uint16_not_EOF (c : ascii) : (uint16 c =? EOFCHAR) = false.
Proof.
  apply Z.eqb_neq. pose proof (uint16_range c). unfold EOFCHAR. lia.
Qed.

Lemma int_small (z : Z) : min_int <= z <= max_int -> int z = z.
Proof.
  unfold int, min_int, max_int.
  change (2 ^ 63) with 9223372036854775808.
  change (2 ^ 64) with 18446744073709551616.
  intros H. rewrite Z.mod_small; lia.
Qed.

(** ** The reader and the measure *)

Lemma measure_next_le (t : Tokenizer) : (measure (next t) <= measure t)%nat.
Proof.
  unfold measure, next.
  destruct (InStream t) as [|c s]; cbn [InStream lastChar String.length].
  - change (EOFCHAR =? EOFCHAR) with true.
    destruct (lastChar t =? EOFCHAR); lia.
  - rewrite uint16_not_EOF. destruct (lastChar t =? EOFCHAR); lia.
Qed.

Lemma measure_next_lt (t : Tokenizer) :
  lastChar t <> EOFCHAR -> (measure (next t) < measure t)%nat.
Proof.
  intros H. apply Z.eqb_neq in H.
  unfold measure, next. rewrite H.
  destruct (InStream t) as [|c s]; cbn [InStream lastChar String.length].
  - change (EOFCHAR =? EOFCHAR) with true. cbv iota. lia.
  - rewrite uint16_not_EOF. cbv iota. lia.
Qed.

Lemma nextN_add (a b : nat) (t : Tokenizer) :
  nextN (a + b) t = nextN b (nextN a t).
Proof.
  revert t. induction a as [|a IH]; intros t; cbn [nextN Nat.add]; [reflexivity | apply IH].
Qed.

Lemma measure_nextN_le (k : nat) (t : Tokenizer) :
  (measure (nextN k t) <= measure t)%nat.
Proof.
  revert t. induction k as [|k IH]; intros t; cbn [nextN]; [lia|].
  specialize (IH (next t)). pose proof (measure_next_le t). lia.
Qed.

Lemma adv_refl (t : Tokenizer) : adv 0 0 t t.
Proof. exists 0%nat. cbn [nextN]. repeat split; lia. Qed.

Lemma adv_next (t : Tokenizer) : adv 1 1 t (next t).
Proof.
  exists 1%nat. cbn [nextN]. pose proof (measure_next_le t). repeat split; lia.
Qed.

Lemma adv_next_live (t : Tokenizer) :
  lastChar t <> EOFCHAR -> adv 1 0 t (next t).
Proof.
  intros H. exists 1%nat. cbn [nextN]. pose proof (measure_next_lt t H).
  repeat split; lia.
Qed.

Lemma adv_trans (lo1 lo2 e : nat) (t t1 t2 : Tokenizer) :
  adv lo1 0 t t1 -> adv lo2 e t1 t2 -> adv (lo1 + lo2) e t t2.
Proof.
  intros (k1 & Hlo1 & -> & Hm1) (k2 & Hlo2 & -> & Hm2).
  exists (k1 + k2)%nat. rewrite nextN_add. repeat split; lia.
Qed.

Lemma adv_weaken (lo e lo' e' : nat) (t t' : Tokenizer) :
  adv lo e t t' -> (lo' <= lo)%nat -> (e <= e')%nat -> adv lo' e' t t'.
Proof.
  intros (k & Hlo & -> & Hm) H1 H2. exists k. repeat split; lia.
Qed.

Lemma adv_measure (lo e : nat) (t t' : Tokenizer) :
  adv lo e t t' -> (lo + measure t' <= measure t + e)%nat.
Proof. intros (k & Hlo & -> & Hm). lia. Qed.

Lemma next_posVarIndex (t : Tokenizer) : posVarIndex (next t) = posVarIndex t.
Proof. unfold next. now destruct (InStream t). Qed.

Lemma next_AllowComments (t : Tokenizer) :
  AllowComments (next t) = AllowComments t.
Proof. unfold next. now destruct (InStream t). Qed.

Lemma next_ForceEOF (t : Tokenizer) : ForceEOF (next t) = ForceEOF t.
Proof. unfold next. now destruct (InStream t). Qed.

Lemma next_Position (t : Tokenizer) :
  Position (next t) = int (Position t + 1).
Proof. unfold next. now destruct (InStream t). Qed.

Lemma nextN_posVarIndex (k : nat) (t : Tokenizer) :
  posVarIndex (nextN k t) = posVarIndex t.
Proof.
  revert t. induction k as [|k IH]; intros t; cbn [nextN]; [reflexivity|].
  now rewrite IH, next_posVarIndex.
Qed.

Lemma nextN_AllowComments (k : nat) (t : Tokenizer) :
  AllowComments (nextN k t) = AllowComments t.
Proof.
  revert t. induction k as [|k IH]; intros t; cbn [nextN]; [reflexivity|].
  now rewrite IH, next_AllowComments.
Qed.

Lemma nextN_ForceEOF (k : nat) (t : Tokenizer) :
  ForceEOF (nextN k t) = ForceEOF t.
Proof.
  revert t. induction k as [|k IH]; intros t; cbn [nextN]; [reflexivity|].
  now rewrite IH, next_ForceEOF.
Qed.

(** Solves [adv lo e t t'] when [t'] is written as calls of [next] and
    [nextN] on [t] and the measures are in the context. *)
Ltac count_next t0 t :=
  match t with
  | t0 => constr:(0%nat)
  | next ?u => let n := count_next t0 u in constr:((n + 1)%nat)
  | nextN ?k ?u => let n := count_next t0 u in constr:((n + k)%nat)
  end.

Ltac adv_tac :=
  match goal with
  | |- adv _ _ ?t0 ?t =>
      let n := count_next t0 t in
      exists n; split; [lia | split;
        [rewrite ?nextN_add; cbn [nextN]; reflexivity | lia]]
  end.

Ltac live H :=
  let E := fresh "E" in
  intros E; rewrite E in H; vm_compute in H; discriminate.

Lemma isBlank_live (ch : Z) : isBlank ch = true -> ch <> EOFCHAR.
Proof. intros H. live H. Qed.

Lemma identChar_live (ch : Z) :
  isLetter ch || isDigit ch = true -> ch <> EOFCHAR.
Proof. intros H. live H. Qed.

Lemma bindChar_live (ch : Z) :
  isLetter ch || isDigit ch || (ch =? uint16 ".") = true -> ch <> EOFCHAR.
Proof. intros H. live H. Qed.

Lemma digitVal_live (ch base : Z) :
  base <= 16 -> (digitVal ch <? base) = true -> ch <> EOFCHAR.
Proof.
  intros Hb H E. rewrite E in H. apply Z.ltb_lt in H.
  change (digitVal EOFCHAR) with 16 in H. lia.
Qed.

Lemma eqb_live (ch : Z) (c : ascii) : (ch =? uint16 c) = true -> ch <> EOFCHAR.
Proof.
  intros H E. apply Z.eqb_eq in H. pose proof (uint16_range c).
  unfold EOFCHAR in E. lia.
Qed.

Lemma Next_live (buffer : string) (t : Tokenizer) :
  lastChar t <> EOFCHAR ->
  Next buffer t = Ok (WriteByte buffer (byte (lastChar t)), next t).
Proof.
  intros H. unfold Next. apply Z.eqb_neq in H. now rewrite H.
Qed.

(** ** Every sub-scanner returns, and only advances the reader *)

Section Totality.

Context {imports : Imports}.

Lemma skipBlank_ok (fuel : nat) (t : Tokenizer) :
  (measure t <= fuel)%nat ->
  exists t', skipBlank fuel t = Ok t' /\ adv 0 0 t t'
             /\ isBlank (lastChar t') = false.
Proof.
  revert t. induction fuel as [|f IH]; intros t Hm; cbn [skipBlank]; cbv zeta;
    change ((lastChar t =? uint16 " ") || (lastChar t =? 10)
            || (lastChar t =? 13) || (lastChar t =? 9))
      with (isBlank (lastChar t));
    destruct (isBlank (lastChar t)) eqn:E.
  - apply isBlank_live in E. pose proof (measure_next_lt t E). lia.
  - exists t. auto using adv_refl.
  - apply isBlank_live in E. pose proof (measure_next_lt t E) as L.
    destruct (IH (next t)) as (t' & -> & (k & Hlo & -> & Hk) & Hb); [lia|].
    eexists. split; [reflexivity|]. split; [adv_tac | exact Hb].
  - exists t. auto using adv_refl.
Qed.

Lemma scanIdentifier_loop_ok (fuel : nat) (buffer : string) (t : Tokenizer) :
  (measure t <= fuel)%nat ->
  exists buffer' t',
    scanIdentifier_loop fuel buffer t = Ok (buffer', t') /\ adv 0 0 t t'.
Proof.
  revert buffer t.
  induction fuel as [|f IH]; intros buffer t Hm; cbn [scanIdentifier_loop];
    destruct (isLetter (lastChar t) || isDigit (lastChar t)) eqn:E.
  - apply identChar_live in E. pose proof (measure_next_lt t E). lia.
  - eexists _, _. split; [reflexivity | apply adv_refl].
  - apply identChar_live in E. pose proof (measure_next_lt t E) as L.
    destruct (IH (WriteByte buffer (byte (lastChar t))) (next t))
      as (b' & t' & -> & (k & Hlo & -> & Hk)); [lia|].
    eexists _, _. split; [reflexivity | adv_tac].
  - eexists _, _. split; [reflexivity | apply adv_refl].
Qed.

Lemma scanIdentifier_ok (fuel : nat) (t : Tokenizer) :
  lastChar t <> EOFCHAR -> (measure t <= fuel)%nat ->
  exists tv t', scanIdentifier fuel t = Ok (tv, t') /\ adv 1 0 t t'.
Proof.
  intros L Hm. unfold scanIdentifier. pose proof (measure_next_lt t L).
  destruct (scanIdentifier_loop_ok fuel
              (WriteByte "" (byte (lastChar t))) (next t))
    as (b' & t' & -> & (k & Hlo & -> & Hk)); [lia|].
  cbn [bind].
  destruct (lookup (ToLower b') keywords);
    (eexists _, _; split; [reflexivity | adv_tac]).
Qed.

Lemma scanBindVar_loop_ok (fuel : nat) (buffer : string) (t : Tokenizer) :
  (measure t <= fuel)%nat ->
  exists buffer' t',
    scanBindVar_loop fuel buffer t = Ok (buffer', t') /\ adv 0 0 t t'.
Proof.
  revert buffer t.
  induction fuel as [|f IH]; intros buffer t Hm; cbn [scanBindVar_loop];
    destruct (isLetter (lastChar t) || isDigit (lastChar t)
              || (lastChar t =? uint16 ".")) eqn:E.
  - apply bindChar_live in E. pose proof (measure_next_lt t E). lia.
  - eexists _, _. split; [reflexivity | apply adv_refl].
  - apply bindChar_live in E. pose proof (measure_next_lt t E) as L.
    destruct (IH (WriteByte buffer (byte (lastChar t))) (next t))
      as (b' & t' & -> & (k & Hlo & -> & Hk)); [lia|].
    eexists _, _. split; [reflexivity | adv_tac].
  - eexists _, _. split; [reflexivity | apply adv_refl].
Qed.

Lemma scanBindVar_ok (fuel : nat) (t : Tokenizer) :
  lastChar t <> EOFCHAR -> (measure t <= fuel)%nat ->
  exists tv t', scanBindVar fuel t = Ok (tv, t') /\ adv 1 0 t t'.
Proof.
  intros L Hm. unfold scanBindVar. pose proof (measure_next_lt t L).
  destruct (scanBindVar_loop_ok fuel
              (WriteByte "" (byte (lastChar t))) (next t))
    as (b' & t' & -> & (k & Hlo & -> & Hk)); [lia|].
  cbn [bind].
  destruct (String.length b' =? 1)%nat;
    (eexists _, _; split; [reflexivity | adv_tac]).
Qed.

Lemma scanMantissa_ok (fuel : nat) (base : Z) (buffer : string)
  (t : Tokenizer) :
  base <= 16 -> (measure t <= fuel)%nat ->
  exists buffer' t',
    scanMantissa fuel base buffer t = Ok (buffer', t') /\ adv 0 0 t t'.
Proof.
  intros Hb. revert buffer t.
  induction fuel as [|f IH]; intros buffer t Hm; cbn [scanMantissa];
    destruct (digitVal (lastChar t) <? base) eqn:E.
  - apply (digitVal_live _ _ Hb) in E. pose proof (measure_next_lt t E). lia.
  - eexists _, _. split; [reflexivity | apply adv_refl].
  - apply (digitVal_live _ _ Hb) in E. pose proof (measure_next_lt t E) as L.
    rewrite (Next_live _ _ E). cbn [bind].
    destruct (IH (WriteByte buffer (byte (lastChar t))) (next t))
      as (b' & t' & -> & (k & Hlo & -> & Hk)); [lia|].
    eexists _, _. split; [reflexivity | adv_tac].
  - eexists _, _. split; [reflexivity | apply adv_refl].
Qed.


Lemma scanNumber_exponent_ok (fuel : nat) (buffer : string) (t : Tokenizer) :
  (measure t <= fuel)%nat ->
  exists txt t',
    scanNumber_exponent fuel buffer t = Ok ((tok NUMBER, Some txt), t')
    /\ adv 0 0 t t'.
Proof.
  intros Hm. unfold scanNumber_exponent, scanNumber_exit.
  destruct ((lastChar t =? uint16 "e") || (lastChar t =? uint16 "E")) eqn:E.
  - assert (L : lastChar t <> EOFCHAR) by live E.
    pose proof (measure_next_lt t L).
    rewrite (Next_live _ _ L). cbn [bind].
    destruct ((lastChar (next t) =? uint16 "+")
              || (lastChar (next t) =? uint16 "-")) eqn:E2.
    + assert (L2 : lastChar (next t) <> EOFCHAR) by live E2.
      pose proof (measure_next_lt _ L2).
      rewrite (Next_live _ _ L2). cbn [bind].
      destruct (scanMantissa_ok fuel 10
                  (WriteByte (WriteByte buffer (byte (lastChar t)))
                     (byte (lastChar (next t)))) (next (next t)))
        as (b' & t' & -> & (k & Hlo & -> & Hk)); [lia | lia |].
      cbn [bind]. eexists _, _. split; [reflexivity | adv_tac].
    + cbn [bind].
      destruct (scanMantissa_ok fuel 10
                  (WriteByte buffer (byte (lastChar t))) (next t))
        as (b' & t' & -> & (k & Hlo & -> & Hk)); [lia | lia |].
      cbn [bind]. eexists _, _. split; [reflexivity | adv_tac].
  - eexists _, _. split; [reflexivity | apply adv_refl].
Qed.

Lemma scanNumber_fraction_ok (fuel : nat) (buffer : string) (t : Tokenizer) :
  (measure t <= fuel)%nat ->
  exists txt t',
    scanNumber_fraction fuel buffer t = Ok ((tok NUMBER, Some txt), t')
    /\ adv 0 0 t t'.
Proof.
  intros Hm. unfold scanNumber_fraction.
  destruct (lastChar t =? uint16 ".") eqn:E.
  - assert (L : lastChar t <> EOFCHAR) by live E.
    pose proof (measure_next_lt t L).
    rewrite (Next_live _ _ L). cbn [bind].
    destruct (scanMantissa_ok fuel 10
                (WriteByte buffer (byte (lastChar t))) (next t))
      as (b' & t1 & -> & (k & Hlo & -> & Hk)); [lia | lia |].
    cbn [bind].
    destruct (scanNumber_exponent_ok fuel b' (nextN k (next t)))
      as (txt & t' & -> & (k2 & Hlo2 & -> & Hk2)); [lia|].
    eexists _, _. split; [reflexivity | adv_tac].
  - cbn [bind].
    destruct (scanNumber_exponent_ok fuel buffer t)
      as (txt & t' & -> & Ha); [lia|].
    eexists _, _. split; [reflexivity | exact Ha].
Qed.

Lemma scanNumber_ok (fuel : nat) (seenDecimalPoint : bool) (t : Tokenizer) :
  (seenDecimalPoint = false -> isDigit (lastChar t) = true) ->
  (measure t <= fuel)%nat ->
  exists tv t',
    scanNumber fuel seenDecimalPoint t = Ok (tv, t')
    /\ adv (if seenDecimalPoint then 0 else 1) 0 t t'.
Proof.
  intros Hd Hm. unfold scanNumber, scanNumber_exit. cbv zeta.
  destruct seenDecimalPoint.
  - destruct (scanMantissa_ok fuel 10 (WriteByte "" ".") t)
      as (b' & t1 & -> & (k & Hlo & -> & Hk)); [lia | lia |].
    cbn [bind].
    destruct (scanNumber_exponent_ok fuel b' (nextN k t))
      as (txt & t' & -> & (k2 & Hlo2 & -> & Hk2)); [lia|].
    eexists _, _. split; [reflexivity | adv_tac].
  - specialize (Hd eq_refl).
    assert (L : lastChar t <> EOFCHAR) by live Hd.
    pose proof (measure_next_lt t L).
    destruct (lastChar t =? uint16 "0") eqn:E0.
    + rewrite (Next_live _ _ L). cbn [bind].
      destruct ((lastChar (next t) =? uint16 "x")
                || (lastChar (next t) =? uint16 "X")) eqn:Ex.
      * assert (L2 : lastChar (next t) <> EOFCHAR) by live Ex.
        pose proof (measure_next_lt _ L2).
        rewrite (Next_live _ _ L2). cbn [bind].
        destruct (scanMantissa_ok fuel 16
                    (WriteByte (WriteByte "" (byte (lastChar t)))
                       (byte (lastChar (next t)))) (next (next t)))
          as (b' & t' & -> & (k & Hlo & -> & Hk)); [lia | lia |].
        cbn [bind]. eexists _, _. split; [reflexivity | adv_tac].
      * destruct (scanMantissa_ok fuel 8
                    (WriteByte "" (byte (lastChar t))) (next t))
          as (b1 & t1 & -> & (k1 & Hlo1 & -> & Hk1)); [lia | lia |].
        cbn [bind].
        destruct ((lastChar (nextN k1 (next t)) =? uint16 "8")
                  || (lastChar (nextN k1 (next t)) =? uint16 "9")) eqn:E89.
        -- destruct (scanMantissa_ok fuel 10 b1 (nextN k1 (next t)))
             as (b2 & t2 & -> & (k2 & Hlo2 & -> & Hk2)); [lia | lia |].
           cbn [bind].
           destruct ((lastChar (nextN k2 (nextN k1 (next t))) =? uint16 ".")
                     || (lastChar (nextN k2 (nextN k1 (next t)))
                         =? uint16 "e")
                     || (lastChar (nextN k2 (nextN k1 (next t)))
                         =? uint16 "E")) eqn:Ef.
           ++ destruct (scanNumber_fraction_ok fuel b2
                          (nextN k2 (nextN k1 (next t))))
                as (txt & t' & -> & (k3 & Hlo3 & -> & Hk3)); [lia|].
              eexists _, _. split; [reflexivity | adv_tac].
           ++ eexists _, _. split; [reflexivity | adv_tac].
        -- cbn [bind].
           destruct ((lastChar (nextN k1 (next t)) =? uint16 ".")
                     || (lastChar (nextN k1 (next t)) =? uint16 "e")
                     || (lastChar (nextN k1 (next t)) =? uint16 "E")) eqn:Ef.
           ++ destruct (scanNumber_fraction_ok fuel b1 (nextN k1 (next t)))
                as (txt & t' & -> & (k3 & Hlo3 & -> & Hk3)); [lia|].
              eexists _, _. split; [reflexivity | adv_tac].
           ++ eexists _, _. split; [reflexivity | adv_tac].
    + assert (Hv : (digitVal (lastChar t) <? 10) = true).
      { unfold isDigit in Hd. apply andb_prop in Hd as [H0 H9].
        unfold digitVal. unfold isDigit. rewrite H0, H9. cbn [andb].
        apply Z.ltb_lt. apply Z.leb_le in H0, H9.
        change (uint16 "9") with 57 in H9. change (uint16 "0") with 48 in *.
        lia. }
      destruct fuel as [|f]; [lia|].
      cbn [scanMantissa]. rewrite Hv. rewrite (Next_live _ _ L). cbn [bind].
      destruct (scanMantissa_ok f 10
                  (WriteByte "" (byte (lastChar t))) (next t))
        as (b1 & t1 & -> & (k1 & Hlo1 & -> & Hk1)); [lia | lia |].
      cbn [bind].
      destruct (scanNumber_fraction_ok (S f) b1 (nextN k1 (next t)))
        as (txt & t' & -> & (k3 & Hlo3 & -> & Hk3)); [lia|].
      eexists _, _. split; [reflexivity | adv_tac].
Qed.


Lemma scanString_loop_ok (fuel : nat) (delim typ : Z) (buffer : string)
  (t : Tokenizer) :
  delim <> EOFCHAR -> (measure t < fuel)%nat ->
  exists tv t',
    scanString_loop fuel delim typ buffer t = Ok (tv, t') /\ adv 1 1 t t'.
Proof.
  intros Hd. revert buffer t.
  induction fuel as [|f IH]; intros buffer t Hm; [lia|].
  cbn [scanString_loop]. cbv zeta.
  pose proof (measure_next_le t) as M1.
  pose proof (measure_next_le (next t)) as M2.
  destruct (lastChar t =? delim) eqn:E1.
  - assert (L : lastChar t <> EOFCHAR)
      by (apply Z.eqb_eq in E1; congruence).
    pose proof (measure_next_lt t L).
    destruct (lastChar (next t) =? delim) eqn:E2.
    + assert (L2 : lastChar (next t) <> EOFCHAR)
        by (apply Z.eqb_eq in E2; congruence).
      pose proof (measure_next_lt _ L2).
      apply Z.eqb_neq in L. rewrite L.
      destruct (IH (WriteByte buffer (byte (lastChar t))) (next (next t)))
        as (tv & t' & -> & (k & Hlo & -> & Hk)); [lia|].
      eexists _, _. split; [reflexivity | adv_tac].
    + eexists _, _. split; [reflexivity | adv_tac].
  - destruct (lastChar t =? uint16 "\") eqn:E3.
    + assert (L : lastChar t <> EOFCHAR) by live E3.
      pose proof (measure_next_lt t L).
      destruct (lastChar (next t) =? EOFCHAR) eqn:E4.
      * eexists _, _. split; [reflexivity | adv_tac].
      * assert (L2 : lastChar (next t) <> EOFCHAR) by (now apply Z.eqb_neq).
        pose proof (measure_next_lt _ L2).
        match goal with
        | |- context [if ?c =? EOFCHAR then _ else _] =>
            assert (Hc : (c =? EOFCHAR) = false)
        end.
        { destruct (Ascii.eqb _ _); [exact E4 | apply uint16_not_EOF]. }
        rewrite Hc.
        match goal with
        | |- context [scanString_loop f delim typ ?b ?u] =>
            destruct (IH b u) as (tv & t' & -> & (k & Hlo & -> & Hk));
              [lia|]
        end.
        eexists _, _. split; [reflexivity | adv_tac].
    + destruct (lastChar t =? EOFCHAR) eqn:E5.
      * eexists _, _. split; [reflexivity | adv_tac].
      * assert (L : lastChar t <> EOFCHAR) by (now apply Z.eqb_neq).
        pose proof (measure_next_lt t L).
        destruct (IH (WriteByte buffer (byte (lastChar t))) (next t))
          as (tv & t' & -> & (k & Hlo & -> & Hk)); [lia|].
        eexists _, _. split; [reflexivity | adv_tac].
Qed.

Lemma scanCommentType1_loop_ok (fuel : nat) (buffer : string)
  (t : Tokenizer) :
  (measure t <= fuel)%nat ->
  exists buffer' t',
    scanCommentType1_loop fuel buffer t = Ok (buffer', t') /\ adv 0 0 t t'.
Proof.
  revert buffer t.
  induction fuel as [|f IH]; intros buffer t Hm;
    cbn [scanCommentType1_loop];
    destruct (lastChar t =? EOFCHAR) eqn:E; cbn [negb].
  - eexists _, _. split; [reflexivity | apply adv_refl].
  - apply Z.eqb_neq in E. pose proof (measure_next_lt t E). lia.
  - eexists _, _. split; [reflexivity | apply adv_refl].
  - apply Z.eqb_neq in E. pose proof (measure_next_lt t E).
    rewrite (Next_live _ _ E).
    destruct (lastChar t =? 10).
    + eexists _, _. split; [reflexivity | adv_tac].
    + cbn [bind].
      destruct (IH (WriteByte buffer (byte (lastChar t))) (next t))
        as (b' & t' & -> & (k & Hlo & -> & Hk)); [lia|].
      eexists _, _. split; [reflexivity | adv_tac].
Qed.

Lemma scanCommentType1_ok (fuel : nat) (prefix : string) (t : Tokenizer) :
  (measure t <= fuel)%nat ->
  exists txt t',
    scanCommentType1 fuel prefix t = Ok ((tok COMMENT, Some txt), t')
    /\ adv 0 0 t t'.
Proof.
  intros Hm. unfold scanCommentType1. cbv zeta.
  destruct (scanCommentType1_loop_ok fuel ("" ++ prefix) t)
    as (b' & t' & -> & Ha); [lia|].
  cbn [bind]. eexists _, _. split; [reflexivity | exact Ha].
Qed.

Lemma scanCommentType2_loop_ok (fuel : nat) (buffer : string)
  (t : Tokenizer) :
  (measure t < fuel)%nat ->
  exists tv t',
    scanCommentType2_loop fuel buffer t = Ok (tv, t') /\ adv 0 0 t t'.
Proof.
  revert buffer t.
  induction fuel as [|f IH]; intros buffer t Hm; [lia|].
  cbn [scanCommentType2_loop].
  destruct (lastChar t =? uint16 "*") eqn:E1.
  - assert (L : lastChar t <> EOFCHAR) by live E1.
    pose proof (measure_next_lt t L).
    rewrite (Next_live _ _ L). cbn [bind].
    destruct (lastChar (next t) =? uint16 "/") eqn:E2.
    + assert (L2 : lastChar (next t) <> EOFCHAR) by live E2.
      pose proof (measure_next_lt _ L2).
      rewrite (Next_live _ _ L2). cbn [bind].
      eexists _, _. split; [reflexivity | adv_tac].
    + destruct (IH (WriteByte buffer (byte (lastChar t))) (next t))
        as (tv & t' & -> & (k & Hlo & -> & Hk)); [lia|].
      eexists _, _. split; [reflexivity | adv_tac].
  - destruct (lastChar t =? EOFCHAR) eqn:E3.
    + eexists _, _. split; [reflexivity | apply adv_refl].
    + apply Z.eqb_neq in E3. pose proof (measure_next_lt t E3).
      rewrite (Next_live _ _ E3). cbn [bind].
      destruct (IH (WriteByte buffer (byte (lastChar t))) (next t))
        as (tv & t' & -> & (k & Hlo & -> & Hk)); [lia|].
      eexists _, _. split; [reflexivity | adv_tac].
Qed.

End Totality.

(** ** One call of [Scan] *)

Section OneScan.

Context {imports : Imports}.

Lemma measure_set_posVarIndex (t : Tokenizer) (n : Z) :
  measure (set_posVarIndex t n) = measure t.
Proof. reflexivity. Qed.

(** What a call of [Scan] does to the tokenizer, by the way it goes. *)
Lemma Scan_spec (t : Tokenizer) :
  exists tv t',
    Scan t = Ok (tv, t')
    /\ if ForceEOF t then tv = (0, None) /\ t' = t
       else if dispatch_char t =? uint16 "?" then
         tv = (tok VALUE_ARG,
               Some (":v" ++ fmt_d (int (posVarIndex t + 1))))
         /\ exists k : nat,
              (1 <= k)%nat
              /\ t' = set_posVarIndex (nextN k t) (int (posVarIndex t + 1))
              /\ (k + measure t' <= measure t)%nat
       else adv 0 1 t t'
            /\ (tv = (0, None) \/ (measure t' < measure t)%nat).
Proof.
  unfold Scan, Scan_with, dispatch_char, start.
  destruct (ForceEOF t) eqn:F.
  { eexists _, _. split; [reflexivity | auto]. }
  assert (F0 : (measure t < fuel_of t)%nat).
  { unfold measure, fuel_of. destruct (lastChar t =? EOFCHAR); lia. }
  assert (A0 : exists k0 : nat,
             (if lastChar t =? 0 then next t else t) = nextN k0 t
             /\ (k0 + measure (nextN k0 t) <= measure t)%nat).
  { destruct (lastChar t =? 0) eqn:Z0.
    - exists 1%nat. cbn [nextN]. split; [reflexivity|].
      assert (L : lastChar t <> EOFCHAR) by live Z0.
      pose proof (measure_next_lt t L). lia.
    - exists 0%nat. cbn [nextN]. split; [reflexivity | lia]. }
  destruct A0 as (k0 & -> & Hk0).
  destruct (skipBlank_ok (fuel_of t) (nextN k0 t))
    as (t1 & -> & (kb & _ & -> & Hkb) & Hnb); [lia|].
  cbn [bind]. cbv zeta.
  set (t1 := nextN kb (nextN k0 t)) in *.
  pose proof (measure_next_le t1) as M1.
  pose proof (measure_next_le (next t1)) as M2.
  pose proof (measure_next_le (next (next t1))) as M3.
  destruct (lastChar t1 =? uint16 "?") eqn:Q.
  { (* the anonymous placeholder *)
    apply Z.eqb_eq in Q.
    assert (L : lastChar t1 <> EOFCHAR) by (rewrite Q; discriminate).
    pose proof (measure_next_lt t1 L).
    rewrite Q.
    change (isLetter (uint16 "?")) with false.
    change (isDigit (uint16 "?")) with false.
    change (uint16 "?" =? uint16 ":") with false.
    change (uint16 "?" =? EOFCHAR) with false.
    change (isSelfDelimiting (uint16 "?")) with false.
    change (uint16 "?" =? uint16 "?") with true.
    cbv iota.
    assert (P : posVarIndex (next t1) = posVarIndex t).
    { subst t1. now rewrite next_posVarIndex, !nextN_posVarIndex. }
    eexists _, _. split; [reflexivity|].
    cbn [posVarIndex set_posVarIndex]. rewrite P.
    split; [reflexivity|].
    exists (k0 + kb + 1)%nat. split; [lia|]. split.
    - rewrite !nextN_add. reflexivity.
    - rewrite measure_set_posVarIndex. subst t1. cbn [nextN]. lia. }
  (* every other way *)
  assert (G : forall (lo e : nat) (tv : token) t',
             adv lo e t1 t' -> (e <= 1)%nat -> (e < lo)%nat ->
             adv 0 1 t t' /\ (tv = (0, None) \/ (measure t' < measure t)%nat)).
  { intros lo e tv t' (k & Hlo & -> & Hk) He Hl. split.
    - exists (k0 + kb + k)%nat. split; [lia|]. split.
      + subst t1. now rewrite !nextN_add.
      + subst t1. lia.
    - right. subst t1. lia. }
  destruct (isLetter (lastChar t1)) eqn:C1.
  { assert (L : lastChar t1 <> EOFCHAR) by live C1.
    destruct (scanIdentifier_ok (fuel_of t) t1 L)
      as (tv & t' & -> & Ha); [subst t1; lia|].
    eexists _, _. split; [reflexivity | eapply G; eauto]. }
  destruct (isDigit (lastChar t1)) eqn:C2.
  { destruct (scanNumber_ok (fuel_of t) false t1)
      as (tv & t' & -> & Ha); [auto | subst t1; lia|].
    eexists _, _. split; [reflexivity | eapply G; eauto]. }
  destruct (lastChar t1 =? uint16 ":") eqn:C3.
  { assert (L : lastChar t1 <> EOFCHAR) by live C3.
    destruct (scanBindVar_ok (fuel_of t) t1 L)
      as (tv & t' & -> & Ha); [subst t1; lia|].
    eexists _, _. split; [reflexivity | eapply G; eauto]. }
  destruct (lastChar t1 =? EOFCHAR) eqn:C4.
  { eexists _, _. split; [reflexivity|]. split; [|now left].
    exists (k0 + kb + 1)%nat. split; [lia|]. split.
    - subst t1. now rewrite !nextN_add.
    - subst t1. fold (nextN kb (nextN k0 t)). lia. }
  assert (L : lastChar t1 <> EOFCHAR) by (now apply Z.eqb_neq).
  pose proof (measure_next_lt t1 L) as L1.
  assert (A1 : adv 1 0 t1 (next t1)) by (now apply adv_next_live).
  assert (F1 : (measure (next t1) <= fuel_of t)%nat) by (subst t1; lia).
  assert (F2 : (measure (next (next t1)) <= fuel_of t)%nat) by lia.
  assert (A2 : lastChar (next t1) <> EOFCHAR ->
               adv 2 0 t1 (next (next t1))).
  { intros L2. pose proof (measure_next_lt _ L2). adv_tac. }
  assert (A3 : lastChar (next t1) <> EOFCHAR ->
               lastChar (next (next t1)) <> EOFCHAR ->
               adv 3 0 t1 (next (next (next t1)))).
  { intros L2 L3. pose proof (measure_next_lt _ L2).
    pose proof (measure_next_lt _ L3). adv_tac. }
  destruct (isSelfDelimiting (lastChar t1)).
  { eexists _, _. split; [reflexivity | eapply G; eauto]. }
  destruct (lastChar t1 =? uint16 ".").
  { destruct (isDigit (lastChar (next t1))) eqn:D.
    - destruct (scanNumber_ok (fuel_of t) true (next t1))
        as (tv & t' & -> & (k & Hlo & -> & Hk)); [discriminate | lia |].
      eexists _, _. split; [reflexivity|].
      apply (G 1%nat 0%nat); [adv_tac | lia | lia].
    - eexists _, _. split; [reflexivity | eapply G; eauto]. }
  destruct (lastChar t1 =? uint16 "/").
  { destruct (lastChar (next t1) =? uint16 "/") eqn:D1.
    - assert (L2 : lastChar (next t1) <> EOFCHAR) by live D1.
      pose proof (measure_next_lt _ L2).
      destruct (scanCommentType1_ok (fuel_of t) "//" (next (next t1)))
        as (txt & t' & -> & (k & Hlo & -> & Hk)); [lia|].
      eexists _, _. split; [reflexivity|].
      apply (G 2%nat 0%nat); [adv_tac | lia | lia].
    - destruct (lastChar (next t1) =? uint16 "*") eqn:D2.
      + assert (L2 : lastChar (next t1) <> EOFCHAR) by live D2.
        pose proof (measure_next_lt _ L2).
        destruct (scanCommentType2_loop_ok (fuel_of t) "/*"
                    (next (next t1)))
          as (tv & t' & E & (k & Hlo & -> & Hk)); [lia|].
        unfold scanCommentType2. rewrite E.
        eexists _, _. split; [reflexivity|].
        apply (G 2%nat 0%nat); [adv_tac | lia | lia].
      + eexists _, _. split; [reflexivity | eapply G; eauto]. }
  destruct (lastChar t1 =? uint16 "-").
  { destruct (lastChar (next t1) =? uint16 "-") eqn:D1.
    - assert (L2 : lastChar (next t1) <> EOFCHAR) by live D1.
      pose proof (measure_next_lt _ L2).
      destruct (scanCommentType1_ok (fuel_of t) "--" (next (next t1)))
        as (txt & t' & -> & (k & Hlo & -> & Hk)); [lia|].
      eexists _, _. split; [reflexivity|].
      apply (G 2%nat 0%nat); [adv_tac | lia | lia].
    - eexists _, _. split; [reflexivity | eapply G; eauto]. }
  destruct (lastChar t1 =? uint16 "<").
  { destruct (lastChar (next t1) =? uint16 ">") eqn:D1.
    - assert (L2 : lastChar (next t1) <> EOFCHAR) by live D1.
      eexists _, _. split; [reflexivity | eapply G; eauto].
    - destruct (lastChar (next t1) =? uint16 "=") eqn:D2.
      + assert (L2 : lastChar (next t1) <> EOFCHAR) by live D2.
        destruct (lastChar (next (next t1)) =? uint16 ">") eqn:D3.
        * assert (L3 : lastChar (next (next t1)) <> EOFCHAR) by live D3.
          eexists _, _. split; [reflexivity | eapply G; eauto].
        * eexists _, _. split; [reflexivity | eapply G; eauto].
      + eexists _, _. split; [reflexivity | eapply G; eauto]. }
  destruct (lastChar t1 =? uint16 ">").
  { destruct (lastChar (next t1) =? uint16 "=") eqn:D1.
    - assert (L2 : lastChar (next t1) <> EOFCHAR) by live D1.
      eexists _, _. split; [reflexivity | eapply G; eauto].
    - eexists _, _. split; [reflexivity | eapply G; eauto]. }
  destruct (lastChar t1 =? uint16 "!").
  { destruct (lastChar (next t1) =? uint16 "=") eqn:D1.
    - assert (L2 : lastChar (next t1) <> EOFCHAR) by live D1.
      eexists _, _. split; [reflexivity | eapply G; eauto].
    - eexists _, _. split; [reflexivity | eapply G; eauto]. }
  destruct ((lastChar t1 =? uint16 "'") || (lastChar t1 =? 34)).
  { destruct (scanString_loop_ok (fuel_of t) (lastChar t1) (tok STRING) ""
                (next t1) L)
      as (tv & t' & E & (k & Hlo & -> & Hk)); [lia|].
    unfold scanString. rewrite E.
    eexists _, _. split; [reflexivity|].
    apply (G 2%nat 1%nat); [adv_tac | lia | lia]. }
  destruct (lastChar t1 =? uint16 "`").
  { destruct (scanString_loop_ok (fuel_of t) (lastChar t1) (tok ID) ""
                (next t1) L)
      as (tv & t' & E & (k & Hlo & -> & Hk)); [lia|].
    unfold scanString. rewrite E.
    eexists _, _. split; [reflexivity|].
    apply (G 2%nat 1%nat); [adv_tac | lia | lia]. }
  eexists _, _. split; [reflexivity | eapply G; eauto].
Qed.

End OneScan.

(** ** Sequences of calls *)

Section Calls.

Context {imports : Imports}.

Lemma Scan_total (t : Tokenizer) : exists tv t', Scan t = Ok (tv, t').
Proof.
  destruct (Scan_spec t) as (tv & t' & E & _). eauto.
Qed.

Lemma Scans_total (n : nat) (t : Tokenizer) :
  exists tvs t', Scans n t = Ok (tvs, t').
Proof.
  revert t. induction n as [|n IH]; intros t; cbn [Scans].
  - eauto.
  - destruct (Scan_total t) as (tv & t1 & ->). cbn [bind].
    destruct (IH t1) as (tvs & t' & ->). cbn [bind]. eauto.
Qed.

Lemma Lex_loop_no_panic (fuel : nat) (tv : token) (t : Tokenizer)
  (msg : string) : Lex_loop fuel tv t <> Panic msg.
Proof.
  revert tv t. induction fuel as [|f IH]; intros tv t; cbn [Lex_loop];
    destruct (fst tv =? tok COMMENT); try discriminate;
    destruct (AllowComments t); try discriminate.
  destruct (Scan_total t) as (tv1 & t1 & ->). cbn [bind]. apply IH.
Qed.

(** C6: the panic of [Next] is out of reach.  From any state of the
    tokenizer, any number of calls of [Scan] in a row all return, and a call
    of [Lex] does not panic: in no sub-scanner does [Next] meet the
    end-of-input sentinel. *)
Theorem Next_never_panics (t : Tokenizer) :
  (forall n : nat, exists tvs t', Scans n t = Ok (tvs, t'))
  /\ (forall (lval : yySymType) (msg : string), Lex t lval <> Panic msg).
Proof.
  split.
  - intros n. apply Scans_total.
  - intros lval msg. unfold Lex.
    destruct (Scan_total t) as (tv1 & t1 & ->). cbn [bind].
    pose proof (Lex_loop_no_panic (fuel_of t1) tv1 t1 msg) as H.
    destruct (Lex_loop (fuel_of t1) tv1 t1) as [[[typ val] t2]|m|];
      cbn [bind]; congruence.
Qed.

End Calls.

(** ** Position *)

Lemma nextN_Position (k : nat) (t : Tokenizer) :
  min_int <= Position t -> Position t + Z.of_nat k <= max_int ->
  Position (nextN k t) = Position t + Z.of_nat k.
Proof.
  revert t. induction k as [|k IH]; intros t Hlo Hhi; cbn [nextN].
  - lia.
  - assert (E : Position (next t) = Position t + 1).
    { rewrite next_Position. apply int_small. lia. }
    rewrite IH; rewrite E; lia.
Qed.

Lemma next_InStream_length (t : Tokenizer) :
  String.length (InStream (next t)) = (String.length (InStream t) - 1)%nat.
Proof.
  unfold next. destruct (InStream t); cbn [InStream String.length]; lia.
Qed.

Lemma nextN_InStream_length (k : nat) (t : Tokenizer) :
  String.length (InStream (nextN k t))
  = (String.length (InStream t) - k)%nat.
Proof.
  revert t. induction k as [|k IH]; intros t; cbn [nextN]; [lia|].
  rewrite IH, next_InStream_length. lia.
Qed.

Lemma next_live_nonempty (t : Tokenizer) :
  lastChar (next t) <> EOFCHAR -> (1 <= String.length (InStream t))%nat.
Proof.
  unfold next. destruct (InStream t); cbn [lastChar String.length];
    [congruence | lia].
Qed.

Lemma nextN_live_bound (k : nat) (t : Tokenizer) :
  (1 <= k)%nat -> lastChar (nextN k t) <> EOFCHAR ->
  (k <= String.length (InStream t))%nat.
Proof.
  revert t. induction k as [|k IH]; intros t Hk L; [lia|].
  cbn [nextN] in L. destruct k as [|k].
  - cbn [nextN] in L. apply next_live_nonempty in L. lia.
  - apply IH in L; [|lia]. rewrite next_InStream_length in L. lia.
Qed.

Section PositionOfScan.

Context {imports : Imports}.

(** A call of [Scan] is a number of calls of [next], at most one more than
    the measure, as far as the reader and [Position] go. *)
Lemma Scan_reads (t : Tokenizer) :
  exists tv t' (k : nat),
    Scan t = Ok (tv, t')
    /\ Position t' = Position (nextN k t)
    /\ InStream t' = InStream (nextN k t)
    /\ lastChar t' = lastChar (nextN k t)
    /\ (k <= measure t + 1)%nat.
Proof.
  destruct (Scan_spec t) as (tv & t' & E & H).
  exists tv, t'. destruct (ForceEOF t).
  - destruct H as [_ ->]. exists 0%nat. cbn [nextN].
    repeat split; auto; lia.
  - destruct (dispatch_char t =? uint16 "?").
    + destruct H as (_ & k & Hk & -> & Hm). exists k.
      repeat split; auto; lia.
    + destruct H as ((k & Hk & -> & Hm) & _). exists k.
      repeat split; auto; lia.
Qed.

Lemma skipBlank_stays (fuel : nat) (t : Tokenizer) :
  lastChar t = EOFCHAR -> skipBlank fuel t = Ok t.
Proof.
  intros H. destruct fuel; cbn [skipBlank]; cbv zeta; now rewrite H.
Qed.

Lemma Scan_at_EOF (t : Tokenizer) :
  ForceEOF t = false -> lastChar t = EOFCHAR ->
  Scan t = Ok ((0, None), next t).
Proof.
  intros F E. unfold Scan, Scan_with. rewrite F, E.
  change (EOFCHAR =? 0) with false. cbv iota.
  rewrite skipBlank_stays by exact E.
  cbn [bind]. cbv zeta. rewrite E. reflexivity.
Qed.

(** C2, as amended: [Position] counts the calls of [next], not the bytes
    read.  While it stays in the range of [int], a call of [Scan] never
    lowers it and raises it by at least the number of bytes the call reads;
    by exactly that number when the lookahead the call leaves is a byte of
    the input; and by one when the call is made at the end of the input. *)
Theorem Position_counts_calls_of_next (t : Tokenizer) :
  min_int <= Position t ->
  Position t + 2 * Z.of_nat (String.length (InStream t)) + 2 <= max_int ->
  exists tv t',
    Scan t = Ok (tv, t')
    /\ Position t <= Position t'
    /\ consumed t t' <= Position t' - Position t
    /\ (lastChar t' <> EOFCHAR -> Position t' - Position t = consumed t t')
    /\ (ForceEOF t = false -> lastChar t = EOFCHAR ->
        Position t' = Position t + 1).
Proof.
  intros Hlo Hhi.
  destruct (Scan_reads t) as (tv & t' & k & E & HP & HI & HL & Hk).
  assert (Hm : (measure t <= 2 * String.length (InStream t) + 1)%nat).
  { unfold measure. destruct (lastChar t =? EOFCHAR); lia. }
  exists tv, t'. split; [exact E|].
  rewrite nextN_Position in HP by lia.
  unfold consumed. rewrite HI, nextN_InStream_length, HP.
  repeat split; try lia.
  - intros L. rewrite HL in L. destruct k as [|k].
    + lia.
    + apply nextN_live_bound in L; lia.
  - intros F Z. rewrite (Scan_at_EOF t F Z) in E. injection E as _ <-.
    rewrite next_Position in HP. rewrite int_small in HP by lia. lia.
Qed.

End PositionOfScan.

(** ** Anonymous placeholders *)

Section Placeholders.

Context {imports : Imports}.

Lemma placeholder_tokens_from (n : nat) (t : Tokenizer) :
  0 <= posVarIndex t ->
  posVarIndex t + Z.of_nat (measure t) <= max_int ->
  placeholder_tokens n t
  = map synthesized
      (seq (S (Z.to_nat (posVarIndex t)))
         (List.length (placeholder_tokens n t))).
Proof.
  revert t. induction n as [|n IH]; intros t H0 Hmax;
    cbn [placeholder_tokens]; [reflexivity|].
  destruct (Scan_spec t) as (tv & t' & -> & H).
  unfold scans_placeholder. destruct (ForceEOF t); cbn [negb andb].
  - destruct H as [_ ->]. cbn [app]. now apply IH.
  - destruct (dispatch_char t =? uint16 "?").
    + destruct H as (-> & k & Hk & -> & Hm).
      rewrite measure_set_posVarIndex in Hm.
      assert (E : int (posVarIndex t + 1) = posVarIndex t + 1).
      { apply int_small. unfold min_int. lia. }
      rewrite E in *.
      cbn [app List.length seq map]. f_equal.
      * unfold synthesized.
        replace (Z.of_nat (S (Z.to_nat (posVarIndex t))))
          with (posVarIndex t + 1) by lia.
        reflexivity.
      * pose proof (IH (set_posVarIndex (nextN k t) (posVarIndex t + 1)))
          as R.
        rewrite measure_set_posVarIndex in R.
        cbn [posVarIndex set_posVarIndex] in R.
        replace (S (Z.to_nat (posVarIndex t + 1)))
          with (S (S (Z.to_nat (posVarIndex t)))) in R by lia.
        apply R; lia.
    + destruct H as ((k & Hk & -> & Hm) & _). cbn [app].
      pose proof (measure_nextN_le k t).
      pose proof (IH (nextN k t)) as R.
      rewrite nextN_posVarIndex in R. apply R; lia.
Qed.

(** C1: the tokens [Scan] returns for the anonymous placeholders of an
    input are the bind variables [:v1], [:v2], ... in the order of the
    placeholders, whatever stands between them: among any number of calls
    on a fresh tokenizer, the calls that are for a [?] return exactly the
    first so many synthesized names. *)
Theorem placeholders_are_numbered_in_order (sql : string) (n : nat) :
  2 * Z.of_nat (String.length sql) + 1 <= max_int ->
  placeholder_tokens n (NewStringTokenizer sql)
  = map synthesized
      (seq 1 (List.length (placeholder_tokens n (NewStringTokenizer sql)))).
Proof.
  intros H. apply (placeholder_tokens_from n (NewStringTokenizer sql)).
  - cbn. lia.
  - unfold measure. cbn [NewStringTokenizer InStream lastChar posVarIndex].
    change (0 =? EOFCHAR) with false. cbv iota. lia.
Qed.

End Placeholders.

(** ** The pull interface *)

Section Pull.

Context {imports : Imports}.

(** The named tokens are distinct and, as goyacc numbers them, above every
    character code. *)
Hypothesis tok_inj : forall a b : Token, tok a = tok b -> a = b.
Hypothesis tok_named : forall a : Token, 255 < tok a.

Lemma Scan_AllowComments (t : Tokenizer) (tv : token) (t' : Tokenizer) :
  Scan t = Ok (tv, t') -> AllowComments t' = AllowComments t.
Proof.
  intros E. destruct (Scan_spec t) as (tv0 & t0 & E0 & H).
  rewrite E in E0. injection E0 as <- <-.
  destruct (ForceEOF t).
  - now destruct H as [_ ->].
  - destruct (dispatch_char t =? uint16 "?").
    + destruct H as (_ & k & _ & -> & _). apply nextN_AllowComments.
    + destruct H as ((k & _ & -> & _) & _). apply nextN_AllowComments.
Qed.

Lemma Scan_progress (t : Tokenizer) (tv : token) (t' : Tokenizer) :
  Scan t = Ok (tv, t') ->
  fst tv = 0 \/ (measure t' < measure t)%nat.
Proof.
  intros E. destruct (Scan_spec t) as (tv0 & t0 & E0 & H).
  rewrite E in E0. injection E0 as <- <-.
  destruct (ForceEOF t).
  - destruct H as [-> _]. now left.
  - destruct (dispatch_char t =? uint16 "?").
    + destruct H as (_ & k & Hk & -> & Hm). right. lia.
    + destruct H as (_ & [-> | Hm]); [now left | now right].
Qed.

Lemma Lex_loop_skips (fuel : nat) (tv : token) (t : Tokenizer) :
  AllowComments t = false ->
  (fst tv = tok COMMENT -> (measure t < fuel)%nat) ->
  exists tv' t',
    Lex_loop fuel tv t = Ok (tv', t')
    /\ fst tv' <> tok COMMENT /\ AllowComments t' = false.
Proof.
  revert tv t. induction fuel as [|f IH]; intros tv t A Hf;
    cbn [Lex_loop]; destruct (fst tv =? tok COMMENT) eqn:C.
  - apply Z.eqb_eq in C. specialize (Hf C). lia.
  - apply Z.eqb_neq in C. eauto.
  - apply Z.eqb_eq in C. specialize (Hf C). rewrite A.
    destruct (Scan_total t) as (tv1 & t1 & E). rewrite E. cbn [bind].
    apply IH.
    + rewrite <- A. eapply Scan_AllowComments; eauto.
    + intros C1. destruct (Scan_progress _ _ _ E) as [Z | M]; [|lia].
      pose proof (tok_named COMMENT). lia.
  - apply Z.eqb_neq in C. eauto.
Qed.

Lemma Lex_loop_kept (fuel : nat) (tv : token) (t : Tokenizer) :
  fst tv <> tok COMMENT \/ AllowComments t = true ->
  Lex_loop fuel tv t = Ok (tv, t).
Proof.
  intros H. destruct fuel; cbn [Lex_loop];
    destruct (fst tv =? tok COMMENT) eqn:C; try reflexivity;
    apply Z.eqb_eq in C; destruct H as [H | ->]; congruence.
Qed.

Lemma Lex_loop_skip (fuel : nat) (tv : token) (t : Tokenizer) :
  fst tv = tok COMMENT -> AllowComments t = false ->
  Lex_loop (S fuel) tv t
  = let* (tv, t) := Scan t in Lex_loop fuel tv t.
Proof.
  intros C A. cbn [Lex_loop]. apply Z.eqb_eq in C. now rewrite C, A.
Qed.

Lemma tok_eqb (a b : Token) : a <> b -> (tok a =? tok b) = false.
Proof.
  intros H. apply Z.eqb_neq. intros E. apply tok_inj in E. contradiction.
Qed.

Lemma tok_eqb_0 (a : Token) : (0 =? tok a) = false.
Proof. apply Z.eqb_neq. pose proof (tok_named a). lia. Qed.

Ltac tok_cmp :=
  repeat first
    [ rewrite Z.eqb_refl
    | rewrite tok_eqb_0
    | rewrite tok_eqb by discriminate ];
  cbn [orb fst snd].

Lemma Lex_returns (t : Tokenizer) (lval : yySymType) (tv : token)
  (t1 : Tokenizer) :
  Scan t = Ok (tv, t1) ->
  fst tv <> tok COMMENT \/ AllowComments t1 = true ->
  Lex t lval
  = Ok (fst tv, lval_after lval tv, set_errorToken t1 (snd tv)).
Proof.
  intros E H. unfold Lex. rewrite E. cbn [bind].
  rewrite Lex_loop_kept by exact H. cbn [bind]. now destruct tv.
Qed.

Lemma Lex_skips_one (t : Tokenizer) (lval : yySymType) (val : option string)
  (t1 : Tokenizer) (tv : token) (t2 : Tokenizer) :
  Scan t = Ok ((tok COMMENT, val), t1) -> AllowComments t1 = false ->
  Scan t1 = Ok (tv, t2) -> fst tv <> tok COMMENT ->
  Lex t lval
  = Ok (fst tv, lval_after lval tv, set_errorToken t2 (snd tv)).
Proof.
  intros E1 A E2 C. unfold Lex. rewrite E1. cbn [bind].
  unfold fuel_of. rewrite Nat.add_comm. cbn [Nat.add].
  rewrite Lex_loop_skip by auto. rewrite E2. cbn [bind].
  rewrite Lex_loop_kept by auto. cbn [bind]. now destruct tv.
Qed.

Ltac scan_eval := lazy -[tok SQLDecodeMap DONTESCAPE]; reflexivity.

Ltac tok_ne :=
  cbn [fst];
  first [ let E := fresh "E" in
          intros E; apply tok_inj in E; discriminate
        | pose proof (tok_named COMMENT); lia ].

Ltac tok_neq := first [ left; tok_ne | right; reflexivity | tok_ne ].

Ltac lex_kept :=
  erewrite Lex_returns; [ | scan_eval | tok_neq ];
  cbn [bind fst snd]; unfold lval_after; tok_cmp; cbv iota;
  cbn [bytes].

(** C9: with [AllowComments] unset, [Lex] returns no comment token, on any
    input and at any point of it (the flag stays unset, so this holds of
    every later call as well); on [SELECT /* x */ 1] it returns the keyword
    [SELECT], then the number [1], then the end of the input; with the flag
    set the comment is returned between the two. *)
Theorem Lex_hides_comments :
  (forall (t : Tokenizer) (lval : yySymType),
      AllowComments t = false ->
      exists typ lval' t',
        Lex t lval = Ok (typ, lval', t')
        /\ typ <> tok COMMENT /\ AllowComments t' = false)
  /\ pull 3 (NewStringTokenizer "SELECT /* x */ 1") (mkSym None)
     = Ok [ (tok SELECT, None); (tok NUMBER, Some "1"); (0, Some "1") ]
  /\ pull 4 (set_AllowComments (NewStringTokenizer "SELECT /* x */ 1") true)
       (mkSym None)
     = Ok [ (tok SELECT, None); (tok COMMENT, Some "/* x */");
            (tok NUMBER, Some "1"); (0, Some "1") ].
Proof.
  split; [|split].
  - intros t lval A. unfold Lex.
    destruct (Scan_total t) as (tv1 & t1 & E). rewrite E. cbn [bind].
    destruct (Lex_loop_skips (fuel_of t1) tv1 t1)
      as ([typ val] & t2 & -> & C & A2).
    + rewrite <- A. eapply Scan_AllowComments; eauto.
    + intros _. unfold measure, fuel_of.
      destruct (lastChar t1 =? EOFCHAR); lia.
    + cbn [bind]. eexists _, _, _. split; [reflexivity|]. auto.
  - cbn [pull]. lex_kept.
    erewrite Lex_skips_one;
      [ | scan_eval | reflexivity | scan_eval
        | tok_neq ].
    cbn [bind fst snd]; unfold lval_after; tok_cmp; cbv iota; cbn [bytes].
    lex_kept. reflexivity.
  - cbn [pull]. lex_kept. lex_kept. lex_kept. lex_kept. reflexivity.
Qed.

End Pull.

(** ** Texts before the tokenizer *)

Lemma append_nil_r (s : string) : s ++ "" = s.
Proof. induction s as [|c s IH]; cbn; [reflexivity | now rewrite IH]. Qed.

Lemma append_assoc (a b c : string) : (a ++ b) ++ c = a ++ (b ++ c).
Proof. induction a as [|x a IH]; cbn; [reflexivity | now rewrite IH]. Qed.

Lemma WriteByte_append (buffer : string) (c : ascii) (s : string) :
  WriteByte buffer c ++ s = buffer ++ String c s.
Proof. unfold WriteByte. now rewrite append_assoc. Qed.

Lemma at_input_next (t : Tokenizer) (c : ascii) (s : string) :
  at_input t (String c s) -> at_input (next t) s.
Proof.
  intros [_ H]. cbn [tail] in H. unfold at_input, next. rewrite H.
  destruct s; cbn [lastChar InStream head_char tail]; auto.
Qed.

Lemma at_input_nextN (t : Tokenizer) (s1 s2 : string) :
  at_input t (s1 ++ s2) -> at_input (nextN (String.length s1) t) s2.
Proof.
  revert t. induction s1 as [|c s1 IH]; intros t H;
    cbn [String.length nextN]; [exact H|].
  apply IH. eapply at_input_next. exact H.
Qed.

Lemma at_input_lastChar (t : Tokenizer) (c : ascii) (s : string) :
  at_input t (String c s) -> lastChar t = uint16 c.
Proof. now intros [H _]. Qed.

Lemma head_char_append (c : ascii) (s1 s2 : string) :
  head_char (String c s1 ++ s2) = uint16 c.
Proof. reflexivity. Qed.

(** Character codes of the literals, for [lia]. *)
Ltac eval_chars :=
  repeat match goal with
    | |- context [uint16 (Ascii ?a ?b ?c ?d ?e ?f ?g ?h)] =>
        let v := eval vm_compute in (uint16 (Ascii a b c d e f g h)) in
        change (uint16 (Ascii a b c d e f g h)) with v
    | H : context [uint16 (Ascii ?a ?b ?c ?d ?e ?f ?g ?h)] |- _ =>
        let v := eval vm_compute in (uint16 (Ascii a b c d e f g h)) in
        change (uint16 (Ascii a b c d e f g h)) with v in H
    end.

Ltac bool_props :=
  repeat rewrite ?andb_true_iff, ?orb_true_iff, ?andb_false_iff,
    ?orb_false_iff, ?negb_true_iff, ?negb_false_iff, ?Z.leb_le, ?Z.eqb_eq,
    ?Z.ltb_lt, ?Z.leb_gt, ?Z.eqb_neq, ?Z.ltb_ge in *.

Ltac class_lia :=
  unfold unrecognized, isIdentChar, isHexDigit, is8or9, promotes, isBlank,
    isSelfDelimiting, isLetter, isDigit, digitVal, EOFCHAR in *;
  eval_chars; bool_props; lia.

Lemma digit_digitVal (ch : Z) : (digitVal ch <? 10) = isDigit ch.
Proof.
  destruct (isDigit ch) eqn:D.
  - unfold digitVal. unfold isDigit in D. rewrite D. class_lia.
  - unfold digitVal. unfold isDigit in D. rewrite D.
    destruct ((uint16 "a" <=? ch) && (ch <=? uint16 "f")) eqn:A;
      [class_lia|].
    destruct ((uint16 "A" <=? ch) && (ch <=? uint16 "F")) eqn:B;
      class_lia.
Qed.

Lemma measure_start (t : Tokenizer) : (measure (start t) <= measure t)%nat.
Proof.
  unfold start. destruct (lastChar t =? 0); [apply measure_next_le | lia].
Qed.

Lemma measure_lt_fuel (t : Tokenizer) : (measure t < fuel_of t)%nat.
Proof.
  unfold measure, fuel_of. destruct (lastChar t =? EOFCHAR); lia.
Qed.

Lemma start_fresh (sql : string) :
  start (NewStringTokenizer sql) = next (NewStringTokenizer sql).
Proof. reflexivity. Qed.

Lemma at_input_fresh (sql : string) :
  at_input (start (NewStringTokenizer sql)) sql.
Proof. destruct sql; split; reflexivity. Qed.

Lemma start_midway (t : Tokenizer) : lastChar t <> 0 -> start t = t.
Proof. intros H. unfold start. apply Z.eqb_neq in H. now rewrite H. Qed.

(** Settles the next test of the goal from what is known of the
    lookahead. *)
Ltac cond_false :=
  match goal with
  | |- context [if ?c then _ else _] =>
      let E := fresh "E" in
      assert (E : c = false)
        by (let X := fresh "X" in
            destruct c eqn:X; [exfalso; class_lia | reflexivity]);
      rewrite E; clear E
  end.

Ltac cond_true :=
  match goal with
  | |- context [if ?c then _ else _] =>
      let E := fresh "E" in
      assert (E : c = true)
        by (let X := fresh "X" in
            destruct c eqn:X; [reflexivity | exfalso; class_lia]);
      rewrite E; clear E
  end.

Section Dispatch.

Context {imports : Imports}.

Lemma skipBlank_nonblank (fuel : nat) (t : Tokenizer) :
  isBlank (lastChar t) = false -> skipBlank fuel t = Ok t.
Proof.
  intros H. unfold isBlank in H. destruct fuel; cbn [skipBlank]; cbv zeta;
    now rewrite H.
Qed.

(** [Scan] up to its [switch], when there is no blank to skip. *)
Ltac enter_switch t F :=
  unfold Scan, Scan_with; rewrite F; fold (start t);
  rewrite skipBlank_nonblank
    by (let X := fresh "X" in
        destruct (isBlank (lastChar (start t))) eqn:X;
        [exfalso; class_lia | reflexivity]);
  cbn [bind]; cbv zeta.

Lemma Scan_letter (t : Tokenizer) :
  ForceEOF t = false -> isLetter (lastChar (start t)) = true ->
  Scan t = scanIdentifier (fuel_of t) (start t).
Proof.
  intros F L. enter_switch t F. now rewrite L.
Qed.

Lemma Scan_digit (t : Tokenizer) :
  ForceEOF t = false -> isDigit (lastChar (start t)) = true ->
  Scan t = scanNumber (fuel_of t) false (start t).
Proof.
  intros F D. enter_switch t F. cond_false. now rewrite D.
Qed.

Lemma Scan_quote (t : Tokenizer) (delim : ascii) :
  ForceEOF t = false -> isQuote delim = true ->
  lastChar (start t) = uint16 delim ->
  Scan t
  = scanString (fuel_of t) (uint16 delim)
      (if Ascii.eqb delim "`" then tok ID else tok STRING)
      (next (start t)).
Proof.
  intros F Q L.
  unfold isQuote in Q. apply orb_prop in Q as [Q | Q];
    [apply orb_prop in Q as [Q | Q]|];
    apply Ascii.eqb_eq in Q; subst delim;
    enter_switch t F; rewrite L; reflexivity.
Qed.

Lemma Scan_block_comment (t : Tokenizer) :
  ForceEOF t = false ->
  lastChar (start t) = uint16 "/" ->
  lastChar (next (start t)) = uint16 "*" ->
  Scan t = scanCommentType2 (fuel_of t) (next (next (start t))).
Proof.
  intros F L1 L2. enter_switch t F. rewrite L1, L2. reflexivity.
Qed.

Lemma Scan_unrecognized (t : Tokenizer) :
  ForceEOF t = false -> unrecognized (lastChar (start t)) = true ->
  Scan t = Ok ((tok LEX_ERROR,
                Some (String (byte (lastChar (start t))) "")),
               next (start t)).
Proof.
  intros F U. unfold unrecognized in U. apply negb_true_iff in U.
  repeat (apply orb_false_iff in U; destruct U as [U ?]).
  assert (L : isLetter (lastChar (start t)) = false).
  { unfold isLetter.
    repeat match goal with
           | H : ?c = false |- context [?c] => rewrite H
           end.
    reflexivity. }
  unfold Scan, Scan_with. rewrite F. fold (start t).
  rewrite skipBlank_nonblank by assumption. cbn [bind]. cbv zeta.
  repeat match goal with
         | H : ?c = false |- context [if ?c then _ else _] => rewrite H
         end.
  repeat match goal with
         | H : ?c = false |- context [?c || _] => rewrite H
         end.
  cbn [orb].
  repeat match goal with
         | H : ?c = false |- context [if ?c then _ else _] => rewrite H
         end.
  reflexivity.
Qed.

End Dispatch.

(** ** Runs of digits and of identifier characters *)

Section Runs.

Context {imports : Imports}.

Lemma scanMantissa_stops (fuel : nat) (base : Z) (buffer : string)
  (t : Tokenizer) :
  (digitVal (lastChar t) <? base) = false ->
  scanMantissa fuel base buffer t = Ok (buffer, t).
Proof. intros H. destruct fuel; cbn [scanMantissa]; now rewrite H. Qed.

Lemma scanMantissa_run (base : Z) (ds rest : string) :
  base <= 16 ->
  all_bytes (fun ch => digitVal ch <? base) ds = true ->
  (digitVal (head_char rest) <? base) = false ->
  forall (fuel : nat) (buffer : string) (t : Tokenizer),
    at_input t (ds ++ rest) -> (measure t <= fuel)%nat ->
    scanMantissa fuel base buffer t
    = Ok (buffer ++ ds, nextN (String.length ds) t).
Proof.
  intros Hb Hds Hrest. induction ds as [|c ds IH]; intros fuel buffer t A Hm.
  - cbn [append] in A. destruct A as [A _].
    rewrite scanMantissa_stops by (now rewrite A).
    now rewrite append_nil_r.
  - cbn [all_bytes] in Hds. apply andb_prop in Hds as [Hc Hds].
    pose proof (at_input_lastChar _ _ _ A) as L.
    assert (Lv : lastChar t <> EOFCHAR)
      by (apply (digitVal_live _ base Hb); now rewrite L).
    pose proof (measure_next_lt t Lv).
    destruct fuel as [|f]; [lia|].
    cbn beta in Hc. cbn [scanMantissa]. rewrite L at 1. rewrite Hc.
    rewrite (Next_live _ _ Lv). cbn [bind].
    rewrite (IH Hds f); [| eapply at_input_next; exact A | lia].
    rewrite L, byte_uint16, WriteByte_append. reflexivity.
Qed.

Lemma scanIdentifier_loop_run (w rest : string) :
  all_bytes isIdentChar w = true ->
  isIdentChar (head_char rest) = false ->
  forall (fuel : nat) (buffer : string) (t : Tokenizer),
    at_input t (w ++ rest) -> (measure t <= fuel)%nat ->
    scanIdentifier_loop fuel buffer t
    = Ok (buffer ++ w, nextN (String.length w) t).
Proof.
  intros Hw Hrest. unfold isIdentChar in Hrest.
  induction w as [|c w IH]; intros fuel buffer t A Hm.
  - cbn [append] in A. destruct A as [A _].
    destruct fuel; cbn [scanIdentifier_loop]; rewrite A, Hrest;
      now rewrite append_nil_r.
  - cbn [all_bytes] in Hw. apply andb_prop in Hw as [Hc Hw].
    unfold isIdentChar in Hc.
    pose proof (at_input_lastChar _ _ _ A) as L.
    assert (Lv : lastChar t <> EOFCHAR)
      by (apply identChar_live; now rewrite L).
    pose proof (measure_next_lt t Lv).
    destruct fuel as [|f]; [lia|].
    cbn [scanIdentifier_loop]. rewrite L, Hc.
    rewrite (IH Hw f); [| eapply at_input_next; exact A | lia].
    rewrite byte_uint16, WriteByte_append. reflexivity.
Qed.

Lemma Next_extends (buffer : string) (t : Tokenizer) (b' : string)
  (t' : Tokenizer) :
  Next buffer t = Ok (b', t') -> exists more, b' = buffer ++ more.
Proof.
  unfold Next. destruct (lastChar t =? EOFCHAR); [discriminate|].
  intros E. injection E as <- _. unfold WriteByte. eauto.
Qed.

Lemma scanMantissa_extends (base : Z) :
  forall (fuel : nat) (buffer : string) (t : Tokenizer) (b' : string)
         (t' : Tokenizer),
    scanMantissa fuel base buffer t = Ok (b', t') ->
    exists more, b' = buffer ++ more.
Proof.
  induction fuel as [|f IH]; intros buffer t b' t'; cbn [scanMantissa];
    destruct (digitVal (lastChar t) <? base); try discriminate;
    try (intros E; injection E as <- _; exists ""; now rewrite append_nil_r).
  destruct (Next buffer t) as [[b1 t1]| |] eqn:N; cbn [bind];
    try discriminate.
  intros E. apply IH in E as [m2 ->].
  apply Next_extends in N as [m1 ->].
  exists (m1 ++ m2). apply append_assoc.
Qed.

Lemma scanNumber_exponent_extends (fuel : nat) (buffer : string)
  (t : Tokenizer) (k : Z) (txt : string) (t' : Tokenizer) :
  scanNumber_exponent fuel buffer t = Ok ((k, Some txt), t') ->
  exists more, txt = buffer ++ more.
Proof.
  unfold scanNumber_exponent, scanNumber_exit.
  destruct ((lastChar t =? uint16 "e") || (lastChar t =? uint16 "E")).
  - destruct (Next buffer t) as [[b1 t1]| |] eqn:N1; cbn [bind];
      try discriminate.
    apply Next_extends in N1 as [m1 ->].
    destruct ((lastChar t1 =? uint16 "+") || (lastChar t1 =? uint16 "-")).
    + destruct (Next (buffer ++ m1) t1) as [[b2 t2]| |] eqn:N2; cbn [bind];
        try discriminate.
      apply Next_extends in N2 as [m2 ->].
      destruct (scanMantissa fuel 10 ((buffer ++ m1) ++ m2) t2)
        as [[b3 t3]| |] eqn:M; cbn [bind]; try discriminate.
      apply scanMantissa_extends in M as [m3 ->].
      intros E. injection E as _ <- _.
      exists (m1 ++ m2 ++ m3). now rewrite !append_assoc.
    + cbn [bind].
      destruct (scanMantissa fuel 10 (buffer ++ m1) t1)
        as [[b3 t3]| |] eqn:M; cbn [bind]; try discriminate.
      apply scanMantissa_extends in M as [m3 ->].
      intros E. injection E as _ <- _.
      exists (m1 ++ m3). now rewrite !append_assoc.
  - intros E. injection E as _ <- _. exists "". now rewrite append_nil_r.
Qed.

Lemma scanNumber_fraction_extends (fuel : nat) (buffer : string)
  (t : Tokenizer) (k : Z) (txt : string) (t' : Tokenizer) :
  scanNumber_fraction fuel buffer t = Ok ((k, Some txt), t') ->
  exists more, txt = buffer ++ more.
Proof.
  unfold scanNumber_fraction.
  destruct (lastChar t =? uint16 ".").
  - destruct (Next buffer t) as [[b1 t1]| |] eqn:N1; cbn [bind];
      try discriminate.
    apply Next_extends in N1 as [m1 ->].
    destruct (scanMantissa fuel 10 (buffer ++ m1) t1)
      as [[b3 t3]| |] eqn:M; cbn [bind]; try discriminate.
    apply scanMantissa_extends in M as [m3 ->].
    intros E. apply scanNumber_exponent_extends in E as [m4 ->].
    exists (m1 ++ m3 ++ m4). now rewrite !append_assoc.
  - cbn [bind]. apply scanNumber_exponent_extends.
Qed.

Lemma octal_prefix (ds : string) :
  all_bytes isDigit ds = true -> some_byte is8or9 ds = true ->
  exists ds1 ds2 : string,
    ds = ds1 ++ ds2
    /\ all_bytes (fun ch => digitVal ch <? 8) ds1 = true
    /\ is8or9 (head_char ds2) = true
    /\ all_bytes (fun ch => digitVal ch <? 10) ds2 = true.
Proof.
  induction ds as [|c ds IH]; intros Hd H89; [discriminate|].
  cbn [all_bytes some_byte] in Hd, H89. apply andb_prop in Hd as [Hc Hd].
  destruct (is8or9 (uint16 c)) eqn:E.
  - exists "", (String c ds). repeat split; auto.
    cbn [all_bytes]. rewrite digit_digitVal, Hc. cbn [andb].
    clear -Hd. induction ds as [|d ds IH]; [reflexivity|].
    cbn [all_bytes] in *. apply andb_prop in Hd as [Hd1 Hd2].
    now rewrite digit_digitVal, Hd1, IH.
  - cbn [orb] in H89. destruct (IH Hd H89) as (ds1 & ds2 & -> & H1 & H2 & H3).
    exists (String c ds1), ds2. repeat split; auto.
    cbn [all_bytes]. rewrite H1, andb_true_r.
    unfold digitVal. unfold isDigit in Hc. rewrite Hc. class_lia.
Qed.

Lemma digitVal_8or9 (ch : Z) :
  is8or9 ch = true -> (digitVal ch <? 8) = false.
Proof.
  unfold is8or9. intros H. apply orb_prop in H as [H | H];
    apply Z.eqb_eq in H; subst ch; reflexivity.
Qed.

Lemma head_char_nonempty (s1 s2 : string) :
  head_char s1 <> EOFCHAR -> head_char (s1 ++ s2) = head_char s1.
Proof. destruct s1; [cbn; congruence | reflexivity]. Qed.

(** C8: an identifier-shaped text (a letter, then letters and digits, up to
    a character that is neither) is returned as the keyword its lower-cased
    spelling names, with the lower-cased text, or else as an identifier
    with its own text; [SELECT], [Select] and [select] are one keyword, and
    [MyTable] is an identifier that keeps its case. *)
Theorem keywords_fold_case_identifiers_keep_it :
  (forall (t : Tokenizer) (c : ascii) (w rest : string),
      ForceEOF t = false ->
      isLetter (uint16 c) = true -> all_bytes isIdentChar w = true ->
      isIdentChar (head_char rest) = false ->
      at_input (start t) (String c w ++ rest) ->
      Scan t
      = Ok (classify (String c w),
            nextN (String.length (String c w)) (start t)))
  /\ Scan (NewStringTokenizer "SELECT")
     = Ok ((tok SELECT, Some "select"),
           nextN 7 (NewStringTokenizer "SELECT"))
  /\ Scan (NewStringTokenizer "Select")
     = Ok ((tok SELECT, Some "select"),
           nextN 7 (NewStringTokenizer "Select"))
  /\ Scan (NewStringTokenizer "select")
     = Ok ((tok SELECT, Some "select"),
           nextN 7 (NewStringTokenizer "select"))
  /\ Scan (NewStringTokenizer "MyTable")
     = Ok ((tok ID, Some "MyTable"), nextN 8 (NewStringTokenizer "MyTable")).
Proof.
  split; [|split; [|split; [|split]]; vm_compute; reflexivity].
  intros t c w rest F Hc Hw Hrest A.
  pose proof (at_input_lastChar _ _ _ A) as L.
  rewrite Scan_letter by (auto; now rewrite L).
  unfold scanIdentifier.
  assert (Lv : lastChar (start t) <> EOFCHAR)
    by (apply identChar_live; now rewrite L, Hc).
  pose proof (measure_next_lt _ Lv). pose proof (measure_lt_fuel t).
  pose proof (measure_start t).
  rewrite (scanIdentifier_loop_run w rest Hw Hrest);
    [| eapply at_input_next; exact A | lia].
  cbn [bind]. rewrite L, byte_uint16. unfold WriteByte, classify.
  cbn [append String.length nextN].
  now destruct (lookup (ToLower (String c w)) keywords).
Qed.

(** C10: a hexadecimal prefix with no hexadecimal digit after it is a
    number: before [0x] or [0X] followed by a character that is not a
    hexadecimal digit (or by the end of the input), [Scan] returns NUMBER
    with the text [0x] or [0X] and leaves that character as the
    lookahead. *)
Theorem bare_hex_prefix_is_a_number (t : Tokenizer) (x : ascii)
  (rest : string) :
  ForceEOF t = false ->
  x = "x"%char \/ x = "X"%char ->
  isHexDigit (head_char rest) = false ->
  at_input (start t) (String "0" (String x rest)) ->
  Scan t
  = Ok ((tok NUMBER, Some (String "0" (String x ""))), nextN 2 (start t))
  /\ at_input (nextN 2 (start t)) rest.
Proof.
  intros F Hx Hrest A. split.
  - pose proof (at_input_lastChar _ _ _ A) as L.
    pose proof (at_input_next _ _ _ A) as A1.
    pose proof (at_input_lastChar _ _ _ A1) as L1.
    pose proof (at_input_next _ _ _ A1) as A2.
    rewrite Scan_digit by (auto; now rewrite L).
    unfold scanNumber. cbv zeta. rewrite L.
    change (uint16 "0" =? uint16 "0") with true. cbv iota.
    rewrite Next_live by (rewrite L; discriminate). cbn [bind].
    assert (Ex : (lastChar (next (start t)) =? uint16 "x")
                 || (lastChar (next (start t)) =? uint16 "X") = true).
    { rewrite L1. destruct Hx as [-> | ->]; reflexivity. }
    rewrite Ex.
    rewrite Next_live
      by (rewrite L1; pose proof (uint16_range x); unfold EOFCHAR; lia).
    cbn [bind].
    rewrite scanMantissa_stops
      by (destruct A2 as [-> _]; exact Hrest).
    cbn [bind]. unfold scanNumber_exit.
    rewrite L, L1, !byte_uint16. reflexivity.
  - apply (at_input_nextN (start t) (String "0" (String x "")) rest).
    exact A.
Qed.

(** C4: the numeric literals.  [0x1A] and [012] are numbers with their own
    text, [089] is a lexical error, [3.14e-2] is one number; and in general
    a zero followed by digits of which one is 8 or 9 is a lexical error
    carrying the digits, unless the character after the digits is a dot, an
    [e] or an [E], when the token is a number whose text starts with the
    digits. *)
Theorem numeric_literals :
  Scan (NewStringTokenizer "0x1A")
  = Ok ((tok NUMBER, Some "0x1A"), nextN 5 (NewStringTokenizer "0x1A"))
  /\ Scan (NewStringTokenizer "012")
     = Ok ((tok NUMBER, Some "012"), nextN 4 (NewStringTokenizer "012"))
  /\ Scan (NewStringTokenizer "089")
     = Ok ((tok LEX_ERROR, Some "089"), nextN 4 (NewStringTokenizer "089"))
  /\ Scan (NewStringTokenizer "3.14e-2")
     = Ok ((tok NUMBER, Some "3.14e-2"),
           nextN 8 (NewStringTokenizer "3.14e-2"))
  /\ (forall (t : Tokenizer) (ds rest : string),
         ForceEOF t = false ->
         all_bytes isDigit ds = true -> some_byte is8or9 ds = true ->
         isDigit (head_char rest) = false ->
         at_input (start t) (String "0" ds ++ rest) ->
         if promotes (head_char rest) then
           exists more t',
             Scan t = Ok ((tok NUMBER, Some (String "0" ds ++ more)), t')
         else
           Scan t = Ok ((tok LEX_ERROR, Some (String "0" ds)),
                        nextN (String.length (String "0" ds)) (start t))).
Proof.
  split; [vm_compute; reflexivity|].
  split; [vm_compute; reflexivity|].
  split; [vm_compute; reflexivity|].
  split; [vm_compute; reflexivity|].
  intros t ds rest F Hd H89 Hrest A.
  destruct (octal_prefix ds Hd H89) as (ds1 & ds2 & -> & H1 & H2 & H3).
  assert (N2 : head_char ds2 <> EOFCHAR) by class_lia.
  cbn [append] in A. rewrite append_assoc in A.
  pose proof (at_input_lastChar _ _ _ A) as L.
  pose proof (at_input_next _ _ _ A) as A1.
  assert (Lv : lastChar (start t) <> EOFCHAR) by (rewrite L; discriminate).
  pose proof (measure_next_lt _ Lv). pose proof (measure_lt_fuel t).
  pose proof (measure_start t).
  rewrite Scan_digit by (auto; now rewrite L).
  unfold scanNumber. cbv zeta.
  replace (lastChar (start t) =? uint16 "0") with true
    by (now rewrite L).
  cbv iota.
  rewrite (Next_live _ _ Lv). cbn [bind].
  (* the lookahead after the zero is a digit, so no hexadecimal prefix *)
  assert (D1 : isDigit (lastChar (next (start t))) = true).
  { destruct A1 as [E1 _]. rewrite E1.
    destruct ds1 as [|d ds1].
    - cbn [append]. rewrite head_char_nonempty by exact N2. class_lia.
    - cbn [append head_char]. cbn [all_bytes] in H1.
      apply andb_prop in H1 as [H1 _]. cbn beta in H1.
      destruct (isDigit (uint16 d)) eqn:X; [reflexivity|].
      rewrite <- digit_digitVal in X. class_lia. }
  cond_false.
  rewrite (scanMantissa_run 8 ds1 (ds2 ++ rest)); auto; try lia.
  2:{ rewrite head_char_nonempty by exact N2. now apply digitVal_8or9. }
  cbn [bind].
  pose proof (at_input_nextN _ _ _ A1) as A2.
  set (t2 := nextN (String.length ds1) (next (start t))) in *.
  assert (M2 : (measure t2 <= measure (next (start t)))%nat)
    by apply measure_nextN_le.
  assert (L2 : lastChar t2 = head_char ds2).
  { destruct A2 as [-> _]. now apply head_char_nonempty. }
  rewrite L2.
  change ((head_char ds2 =? uint16 "8") || (head_char ds2 =? uint16 "9"))
    with (is8or9 (head_char ds2)).
  rewrite H2.
  rewrite (scanMantissa_run 10 ds2 rest); auto; try lia.
  2:{ now rewrite digit_digitVal. }
  cbn [bind].
  pose proof (at_input_nextN _ _ _ A2) as A3.
  set (t3 := nextN (String.length ds2) t2) in *.
  assert (M3 : (measure t3 <= measure t2)%nat) by apply measure_nextN_le.
  destruct A3 as [L3 _]. rewrite L3.
  change ((head_char rest =? uint16 ".") || (head_char rest =? uint16 "e")
          || (head_char rest =? uint16 "E"))
    with (promotes (head_char rest)).
  destruct (promotes (head_char rest)).
  - destruct (scanNumber_fraction_ok (fuel_of t)
                ((WriteByte "" (byte (lastChar (start t))) ++ ds1) ++ ds2)
                t3) as (txt & t' & E & _); [lia|].
    destruct (scanNumber_fraction_extends _ _ _ _ _ _ E) as [more ->].
    rewrite E. exists more, t'.
    rewrite L, byte_uint16. unfold WriteByte. cbn [append].
    now rewrite append_assoc.
  - rewrite L, byte_uint16. unfold WriteByte. cbn [append].
    do 2 f_equal. subst t3 t2. cbn [String.length nextN].
    rewrite <- nextN_add. f_equal.
    clear. induction ds1 as [|c ds1 IH]; cbn [append String.length Nat.add];
      [reflexivity | now rewrite IH].
Qed.

End Runs.

(** ** Quoted texts and block comments *)

Section Quoted.

Context {imports : Imports}.

Lemma isQuote_not_EOF (delim : ascii) : uint16 delim <> EOFCHAR.
Proof. pose proof (uint16_range delim). unfold EOFCHAR. lia. Qed.

Lemma scanString_unterminated (delim : ascii) (typ : Z) :
  forall (fuel : nat) (body buffer : string) (t : Tokenizer),
    terminated delim body = false ->
    at_input t body -> (measure t < fuel)%nat ->
    exists txt t',
      scanString_loop fuel (uint16 delim) typ buffer t
      = Ok ((tok LEX_ERROR, Some txt), t').
Proof.
  induction fuel as [|f IH]; intros body buffer t T A Hm; [lia|].
  cbn [scanString_loop]. cbv zeta.
  pose proof (measure_next_le t) as M1.
  pose proof (measure_next_le (next t)) as M2.
  destruct body as [|c rest].
  - destruct A as [L _]. cbn [head_char] in L. rewrite L.
    rewrite (Z.eqb_sym EOFCHAR (uint16 delim)), uint16_not_EOF.
    change (EOFCHAR =? uint16 "\") with false. cbv iota.
    change (EOFCHAR =? EOFCHAR) with true. cbv iota. eauto.
  - pose proof (at_input_lastChar _ _ _ A) as L.
    pose proof (at_input_next _ _ _ A) as A1.
    assert (Lv : lastChar t <> EOFCHAR)
      by (rewrite L; apply isQuote_not_EOF).
    pose proof (measure_next_lt t Lv).
    rewrite L, !uint16_eqb. cbn [terminated] in T.
    destruct (Ascii.eqb c delim).
    + destruct rest as [|c' rest']; [discriminate|].
      pose proof (at_input_lastChar _ _ _ A1) as L1.
      pose proof (at_input_next _ _ _ A1) as A2.
      rewrite L1, uint16_eqb.
      destruct (Ascii.eqb c' delim); [|discriminate].
      cbv iota. rewrite uint16_not_EOF.
      apply (IH rest'); auto. lia.
    + destruct (Ascii.eqb c "\").
      * destruct rest as [|c' rest'].
        -- destruct A1 as [L1 _]. cbn [head_char] in L1. rewrite L1.
           change (EOFCHAR =? EOFCHAR) with true. cbv iota. eauto.
        -- pose proof (at_input_lastChar _ _ _ A1) as L1.
           pose proof (at_input_next _ _ _ A1) as A2.
           rewrite L1, uint16_not_EOF. cbv iota zeta.
           match goal with
           | |- context [if ?c =? EOFCHAR then _ else _] =>
               assert (Hc : (c =? EOFCHAR) = false)
                 by (destruct (Ascii.eqb _ _); apply uint16_not_EOF)
           end.
           rewrite Hc. apply (IH rest'); auto. lia.
      * cbv iota. rewrite uint16_not_EOF. apply (IH rest); auto. lia.
Qed.

Lemma scanCommentType2_unterminated :
  forall (body : string) (fuel : nat) (buffer : string) (t : Tokenizer),
    has_star_slash body = false ->
    at_input t body -> (measure t < fuel)%nat ->
    scanCommentType2_loop fuel buffer t
    = Ok ((tok LEX_ERROR, Some (buffer ++ body)),
          nextN (String.length body) t).
Proof.
  induction body as [|c rest IH]; intros fuel buffer t H A Hm;
    (destruct fuel as [|f]; [lia|]); cbn [scanCommentType2_loop].
  - destruct A as [L _]. cbn [head_char] in L. rewrite L.
    change (EOFCHAR =? uint16 "*") with false. cbv iota.
    change (EOFCHAR =? EOFCHAR) with true. cbv iota.
    now rewrite append_nil_r.
  - pose proof (at_input_lastChar _ _ _ A) as L.
    pose proof (at_input_next _ _ _ A) as A1.
    assert (Lv : lastChar t <> EOFCHAR)
      by (rewrite L; apply isQuote_not_EOF).
    pose proof (measure_next_lt t Lv).
    cbn [has_star_slash] in H. apply orb_false_iff in H as [H1 H2].
    rewrite (Next_live _ _ Lv). cbn [bind].
    rewrite L, uint16_eqb, uint16_not_EOF, byte_uint16.
    cbn [String.length nextN].
    destruct (Ascii.eqb c "*").
    + cbn [andb] in H1. destruct A1 as [L1 I1]. rewrite L1, H1.
      rewrite (IH f); [| assumption | split; assumption | lia].
      now rewrite WriteByte_append.
    + rewrite (IH f); [| assumption | assumption | lia].
      now rewrite WriteByte_append.
Qed.

(** C5: a quoted text or a block comment that the input ends in is a
    lexical error.  Before a quote of any of the three kinds whose text does
    not close, and before [/*] with no [*/] after it, [Scan] returns, and
    returns the lexical-error token; so it does on ['abc] and on
    [/* abc]. *)
Theorem unterminated_constructs_are_lexical_errors :
  (forall (t : Tokenizer) (delim : ascii) (body : string),
      ForceEOF t = false -> isQuote delim = true ->
      terminated delim body = false ->
      at_input (start t) (String delim body) ->
      exists txt t', Scan t = Ok ((tok LEX_ERROR, Some txt), t'))
  /\ (forall (t : Tokenizer) (body : string),
         ForceEOF t = false ->
         has_star_slash body = false ->
         at_input (start t) (String "/" (String "*" body)) ->
         Scan t
         = Ok ((tok LEX_ERROR, Some (String "/" (String "*" body))),
               nextN (String.length (String "/" (String "*" body)))
                 (start t)))
  /\ Scan (NewStringTokenizer "'abc")
     = Ok ((tok LEX_ERROR, Some "abc"), nextN 6 (NewStringTokenizer "'abc"))
  /\ Scan (NewStringTokenizer "/* abc")
     = Ok ((tok LEX_ERROR, Some "/* abc"),
           nextN 7 (NewStringTokenizer "/* abc")).
Proof.
  split; [|split; [|split; vm_compute; reflexivity]].
  - intros t delim body F Q T A.
    pose proof (at_input_lastChar _ _ _ A) as L.
    pose proof (at_input_next _ _ _ A) as A1.
    assert (Lv : lastChar (start t) <> EOFCHAR)
      by (rewrite L; apply isQuote_not_EOF).
    pose proof (measure_next_lt _ Lv). pose proof (measure_lt_fuel t).
    pose proof (measure_start t).
    rewrite (Scan_quote t delim F Q L). unfold scanString.
    eapply scanString_unterminated; eauto. lia.
  - intros t body F H A.
    pose proof (at_input_lastChar _ _ _ A) as L.
    pose proof (at_input_next _ _ _ A) as A1.
    pose proof (at_input_lastChar _ _ _ A1) as L1.
    pose proof (at_input_next _ _ _ A1) as A2.
    assert (Lv : lastChar (start t) <> EOFCHAR)
      by (rewrite L; discriminate).
    assert (Lv1 : lastChar (next (start t)) <> EOFCHAR)
      by (rewrite L1; discriminate).
    pose proof (measure_next_lt _ Lv). pose proof (measure_next_lt _ Lv1).
    pose proof (measure_lt_fuel t). pose proof (measure_start t).
    rewrite (Scan_block_comment t F L L1). unfold scanCommentType2.
    rewrite (scanCommentType2_unterminated body); auto. lia.
Qed.

End Quoted.

(** ** Escapes *)

Section Escapes.

Context {imports : Imports}.

(** The kind asked of [scanString] is used for the closed text only; the
    text and the tokenizer it returns do not depend on it. *)
Lemma scanString_loop_kind (delim : Z) :
  forall (fuel : nat) (buffer : string) (t : Tokenizer),
    (forall typ, scanString_loop fuel delim typ buffer t = OutOfFuel)
    \/ exists (closed : bool) (txt : string) (t' : Tokenizer),
         forall typ,
           scanString_loop fuel delim typ buffer t
           = Ok ((if closed then typ else tok LEX_ERROR, Some txt), t').
Proof.
  induction fuel as [|f IH]; intros buffer t; [now left|].
  cbn [scanString_loop]. cbv zeta.
  destruct (lastChar t =? delim).
  - destruct (lastChar (next t) =? delim).
    + destruct (lastChar t =? EOFCHAR).
      * right. exists false. eauto.
      * apply IH.
    + right. exists true. eauto.
  - destruct (lastChar t =? uint16 "\").
    + destruct (lastChar (next t) =? EOFCHAR).
      * right. exists false. eauto.
      * match goal with
        | |- context [if ?c =? EOFCHAR then _ else _] =>
            destruct (c =? EOFCHAR)
        end.
        -- right. exists false. eauto.
        -- apply IH.
    + destruct (lastChar t =? EOFCHAR).
      * right. exists false. eauto.
      * apply IH.
Qed.

Lemma fuel_of_two (t : Tokenizer) :
  fuel_of t = S (S (2 * String.length (InStream t))).
Proof. unfold fuel_of. lia. Qed.

(** C7: the escapes of quoted texts.  With [n] in the escape table for the
    newline, ['a\nb'] is the string of [a], a newline and [b]; a doubled
    delimiter stands for one, so ['it''s'] is [it's]; a backslash before a
    byte that the table leaves alone gives that byte; and a text in
    backticks is decoded in the same way (whatever kind [scanString] is
    asked for, it returns the same text and tokenizer) and is an
    identifier. *)
Theorem quoted_texts_are_decoded :
  SQLDecodeMap "n" = "010"%char -> DONTESCAPE <> "010"%char ->
  Scan (NewStringTokenizer "'a\nb'")
  = Ok ((tok STRING, Some (String "a" (String "010" (String "b" "")))),
        nextN 7 (NewStringTokenizer "'a\nb'"))
  /\ Scan (NewStringTokenizer "'it''s'")
     = Ok ((tok STRING, Some "it's"), nextN 8 (NewStringTokenizer "'it''s'"))
  /\ (forall (t : Tokenizer) (delim c : ascii) (rest : string),
         ForceEOF t = false -> isQuote delim = true ->
         SQLDecodeMap c = DONTESCAPE ->
         head_char rest <> uint16 delim ->
         at_input (start t)
           (String delim (String "\" (String c (String delim rest)))) ->
         Scan t
         = Ok ((if Ascii.eqb delim "`" then tok ID else tok STRING,
                Some (String c "")),
               nextN 4 (start t)))
  /\ (forall (t : Tokenizer) (delim : Z),
         delim <> EOFCHAR ->
         exists (closed : bool) (txt : string) (t' : Tokenizer),
           forall typ,
             scanString (fuel_of t) delim typ t
             = Ok ((if closed then typ else tok LEX_ERROR, Some txt), t'))
  /\ Scan (NewStringTokenizer "`a\nb`")
     = Ok ((tok ID, Some (String "a" (String "010" (String "b" "")))),
           nextN 7 (NewStringTokenizer "`a\nb`"))
  /\ Scan (NewStringTokenizer "`it``s`")
     = Ok ((tok ID, Some "it`s"), nextN 8 (NewStringTokenizer "`it``s`")).
Proof.
  intros Hn Hd.
  assert (Hd' : Ascii.eqb "010" DONTESCAPE = false).
  { apply Ascii.eqb_neq. congruence. }
  split; [|split; [|split; [|split; [|split]]]].
  - lazy -[tok SQLDecodeMap DONTESCAPE Ascii.eqb nextN].
    rewrite Hn, Hd'. vm_compute. reflexivity.
  - vm_compute. reflexivity.
  - intros t delim c rest F Q Hc Hrest A.
    pose proof (at_input_lastChar _ _ _ A) as L.
    pose proof (at_input_next _ _ _ A) as A1.
    pose proof (at_input_lastChar _ _ _ A1) as L1.
    pose proof (at_input_next _ _ _ A1) as A2.
    pose proof (at_input_lastChar _ _ _ A2) as L2.
    pose proof (at_input_next _ _ _ A2) as A3.
    pose proof (at_input_lastChar _ _ _ A3) as L3.
    pose proof (at_input_next _ _ _ A3) as [L4 _].
    rewrite (Scan_quote t delim F Q L). unfold scanString.
    rewrite fuel_of_two. cbn [scanString_loop nextN]. cbv zeta.
    assert (Qb : Ascii.eqb "\" delim = false).
    { unfold isQuote in Q. apply orb_prop in Q as [Q | Q];
        [apply orb_prop in Q as [Q | Q]|];
        apply Ascii.eqb_eq in Q; subst delim; reflexivity. }
    rewrite L1, uint16_eqb, Qb, Z.eqb_refl, L2, uint16_not_EOF.
    rewrite byte_uint16, Hc, Ascii.eqb_refl. cbv iota.
    rewrite uint16_not_EOF, L3, Z.eqb_refl, L4.
    apply Z.eqb_neq in Hrest. rewrite Hrest.
    rewrite byte_uint16. reflexivity.
  - intros t delim Hdelim. unfold scanString.
    destruct (scanString_loop_kind delim (fuel_of t) "" t) as [O | H];
      [|exact H].
    destruct (scanString_loop_ok (fuel_of t) delim 0 "" t Hdelim)
      as (tv & t' & E & _); [apply measure_lt_fuel|].
    rewrite O in E. discriminate.
  - lazy -[tok SQLDecodeMap DONTESCAPE Ascii.eqb nextN].
    rewrite Hn, Hd'. vm_compute. reflexivity.
  - vm_compute. reflexivity.
Qed.

(** C3 fails on the code for the byte 0: [Scan] takes a lookahead of 0 for
    the [lastChar] of a tokenizer that has read nothing, and reads over it.
    The byte 0 is among the bytes the claim is about, and as the first byte
    of an input it is returned in a lexical error; yet on [a], 0, [b] three
    calls return the identifier [a], the identifier [b] and the end of the
    input. *)
Theorem Scan_drops_a_NUL_lookahead :
  unrecognized (uint16 "000") = true
  /\ Scan (NewStringTokenizer (String "000" (String "b" "")))
     = Ok ((tok LEX_ERROR, Some (String "000" "")),
           nextN 2 (NewStringTokenizer (String "000" (String "b" ""))))
  /\ Scans 3 (NewStringTokenizer (String "a" (String "000" (String "b" ""))))
     = Ok ([ (tok ID, Some "a"); (tok ID, Some "b"); (0, None) ],
           nextN 5
             (NewStringTokenizer
                (String "a" (String "000" (String "b" ""))))).
Proof. split; [|split]; vm_compute; reflexivity. Qed.

End Escapes.

(** ** The theorems at work on the sample instance *)

Lemma goyacc_name_tok (a : Token) : goyacc_name (goyacc_tok a) = Some a.
Proof. destruct a; reflexivity. Qed.

Lemma goyacc_tok_inj (a b : Token) : goyacc_tok a = goyacc_tok b -> a = b.
Proof.
  intros H. apply (f_equal goyacc_name) in H.
  rewrite !goyacc_name_tok in H. now injection H.
Qed.

Lemma goyacc_tok_named (a : Token) : 255 < goyacc_tok a.
Proof. destruct a; reflexivity. Qed.

(** Three anonymous placeholders around a named one. *)
Lemma placeholders_are_numbered_in_order_witness :
  2 * Z.of_nat (String.length "SELECT ?, :v7, ? FROM t WHERE x = ?") + 1
  <= max_int
  /\ @placeholder_tokens sample_imports 20
       (NewStringTokenizer "SELECT ?, :v7, ? FROM t WHERE x = ?")
     = [ (57350, Some ":v1"); (57350, Some ":v2"); (57350, Some ":v3") ]
  /\ @placeholder_tokens sample_imports 20
       (NewStringTokenizer "SELECT ?, :v7, ? FROM t WHERE x = ?")
     = map (@synthesized sample_imports)
         (seq 1
            (List.length
               (@placeholder_tokens sample_imports 20
                  (NewStringTokenizer
                     "SELECT ?, :v7, ? FROM t WHERE x = ?")))).
Proof.
  split; [vm_compute; discriminate|].
  split; [vm_compute; reflexivity|].
  apply (@placeholders_are_numbered_in_order sample_imports).
  vm_compute; discriminate.
Defined.

(** A call in the middle of an input. *)
Lemma Position_counts_calls_of_next_witness :
  min_int <= Position (NewStringTokenizer "a b")
  /\ Position (NewStringTokenizer "a b")
     + 2 * Z.of_nat (String.length (InStream (NewStringTokenizer "a b")))
     + 2 <= max_int
  /\ exists tv t',
       @Scan sample_imports (NewStringTokenizer "a b") = Ok (tv, t')
       /\ Position (NewStringTokenizer "a b") <= Position t'
       /\ consumed (NewStringTokenizer "a b") t'
          <= Position t' - Position (NewStringTokenizer "a b")
       /\ (lastChar t' <> EOFCHAR ->
           Position t' - Position (NewStringTokenizer "a b")
           = consumed (NewStringTokenizer "a b") t')
       /\ (ForceEOF (NewStringTokenizer "a b") = false ->
           lastChar (NewStringTokenizer "a b") = EOFCHAR ->
           Position t' = Position (NewStringTokenizer "a b") + 1).
Proof.
  split; [vm_compute; discriminate|].
  split; [vm_compute; discriminate|].
  apply (@Position_counts_calls_of_next sample_imports);
    vm_compute; discriminate.
Defined.

(** C2 as it is stated fails on the input [a]: the call that returns the
    identifier reads the one byte of the input and leaves [Position] at 2,
    and the next call, made at the end of the input, reads nothing and
    raises [Position] to 3. *)
Lemma Position_advances_with_nothing_read :
  @Scan sample_imports (NewStringTokenizer "a")
  = Ok ((57347, Some "a"), nextN 2 (NewStringTokenizer "a"))
  /\ consumed (NewStringTokenizer "a") (nextN 2 (NewStringTokenizer "a")) = 1
  /\ Position (nextN 2 (NewStringTokenizer "a"))
     - Position (NewStringTokenizer "a") = 2
  /\ @Scan sample_imports (nextN 2 (NewStringTokenizer "a"))
     = Ok ((0, None), nextN 3 (NewStringTokenizer "a"))
  /\ consumed (nextN 2 (NewStringTokenizer "a"))
       (nextN 3 (NewStringTokenizer "a")) = 0
  /\ Position (nextN 3 (NewStringTokenizer "a"))
     - Position (nextN 2 (NewStringTokenizer "a")) = 1.
Proof. repeat (split; [vm_compute; reflexivity|]). vm_compute; reflexivity. Qed.

(** An illegal octal literal before a blank, and one before a dot. *)
Lemma numeric_literals_witness :
  (ForceEOF (NewStringTokenizer "0189 ") = false
   /\ all_bytes isDigit "189" = true /\ some_byte is8or9 "189" = true
   /\ isDigit (head_char " ") = false
   /\ at_input (start (NewStringTokenizer "0189 ")) (String "0" "189" ++ " ")
   /\ @Scan sample_imports (NewStringTokenizer "0189 ")
      = Ok ((57346, Some "0189"), nextN 4 (start (NewStringTokenizer "0189 "))))
  /\ (at_input (start (NewStringTokenizer "0189.5")) (String "0" "189" ++ ".5")
      /\ exists more t',
           @Scan sample_imports (NewStringTokenizer "0189.5")
           = Ok ((57349, Some (String "0" "189" ++ more)), t')).
Proof.
  split.
  - split; [reflexivity|]. split; [reflexivity|]. split; [reflexivity|].
    split; [reflexivity|]. split; [split; reflexivity|].
    exact (proj2 (proj2 (proj2 (proj2 (@numeric_literals sample_imports))))
             (NewStringTokenizer "0189 ") "189" " "
             eq_refl eq_refl eq_refl eq_refl (conj eq_refl eq_refl)).
  - split; [split; reflexivity|].
    exact (proj2 (proj2 (proj2 (proj2 (@numeric_literals sample_imports))))
             (NewStringTokenizer "0189.5") "189" ".5"
             eq_refl eq_refl eq_refl eq_refl (conj eq_refl eq_refl)).
Defined.

(** A string whose last quote is behind a backslash, and a comment whose
    star and slash are apart. *)
Lemma unterminated_constructs_are_lexical_errors_witness :
  (ForceEOF (NewStringTokenizer "'ab\'c") = false
   /\ isQuote "'" = true /\ terminated "'" "ab\'c" = false
   /\ at_input (start (NewStringTokenizer "'ab\'c")) (String "'" "ab\'c")
   /\ exists txt t',
        @Scan sample_imports (NewStringTokenizer "'ab\'c")
        = Ok ((57346, Some txt), t'))
  /\ (has_star_slash " a * / b" = false
      /\ at_input (start (NewStringTokenizer "/* a * / b"))
           (String "/" (String "*" " a * / b"))
      /\ @Scan sample_imports (NewStringTokenizer "/* a * / b")
         = Ok ((57346, Some "/* a * / b"),
               nextN 10 (start (NewStringTokenizer "/* a * / b")))).
Proof.
  split.
  - split; [reflexivity|]. split; [reflexivity|]. split; [reflexivity|].
    split; [split; reflexivity|].
    exact (proj1 (@unterminated_constructs_are_lexical_errors sample_imports)
             (NewStringTokenizer "'ab\'c") "'"%char "ab\'c"
             eq_refl eq_refl eq_refl (conj eq_refl eq_refl)).
  - split; [reflexivity|]. split; [split; reflexivity|].
    exact (proj1 (proj2
             (@unterminated_constructs_are_lexical_errors sample_imports))
             (NewStringTokenizer "/* a * / b") " a * / b"
             eq_refl eq_refl (conj eq_refl eq_refl)).
Defined.

(** The table of the MySQL escapes, and a backslash before a [q]. *)
Lemma quoted_texts_are_decoded_witness :
  mysql_SQLDecodeMap "n" = "010"%char
  /\ mysql_DONTESCAPE <> "010"%char
  /\ @Scan sample_imports (NewStringTokenizer "'a\nb'")
     = Ok ((57348, Some (String "a" (String "010" (String "b" "")))),
           nextN 7 (NewStringTokenizer "'a\nb'"))
  /\ (mysql_SQLDecodeMap "q" = mysql_DONTESCAPE
      /\ head_char " x" <> uint16 "'"
      /\ at_input (start (NewStringTokenizer "'\q' x"))
           (String "'" (String "\" (String "q" (String "'" " x"))))
      /\ @Scan sample_imports (NewStringTokenizer "'\q' x")
         = Ok ((57348, Some "q"), nextN 4 (start (NewStringTokenizer "'\q' x")))).
Proof.
  assert (Hn : mysql_SQLDecodeMap "n" = "010"%char) by reflexivity.
  assert (Hd : mysql_DONTESCAPE <> "010"%char) by discriminate.
  split; [exact Hn|]. split; [exact Hd|].
  split.
  - exact (proj1 (@quoted_texts_are_decoded sample_imports Hn Hd)).
  - split; [reflexivity|]. split; [discriminate|].
    split; [split; reflexivity|].
    exact (proj1 (proj2 (proj2
             (@quoted_texts_are_decoded sample_imports Hn Hd)))
             (NewStringTokenizer "'\q' x") "'"%char "q"%char " x"
             eq_refl eq_refl eq_refl
             ltac:(vm_compute; discriminate)
             (conj eq_refl eq_refl)).
Defined.

(** An identifier of mixed case before a blank, and a keyword. *)
Lemma keywords_fold_case_identifiers_keep_it_witness :
  (ForceEOF (NewStringTokenizer "MyTable1 x") = false
   /\ isLetter (uint16 "M") = true /\ all_bytes isIdentChar "yTable1" = true
   /\ isIdentChar (head_char " x") = false
   /\ at_input (start (NewStringTokenizer "MyTable1 x"))
        (String "M" "yTable1" ++ " x")
   /\ @Scan sample_imports (NewStringTokenizer "MyTable1 x")
      = Ok ((57347, Some "MyTable1"),
            nextN 8 (start (NewStringTokenizer "MyTable1 x"))))
  /\ @Scan sample_imports (NewStringTokenizer "FrOm t")
     = Ok ((57360, Some "from"), nextN 4 (start (NewStringTokenizer "FrOm t"))).
Proof.
  split.
  - split; [reflexivity|]. split; [reflexivity|]. split; [reflexivity|].
    split; [reflexivity|]. split; [split; reflexivity|].
    exact (proj1 (@keywords_fold_case_identifiers_keep_it sample_imports)
             (NewStringTokenizer "MyTable1 x") "M"%char "yTable1" " x"
             eq_refl eq_refl eq_refl eq_refl (conj eq_refl eq_refl)).
  - exact (proj1 (@keywords_fold_case_identifiers_keep_it sample_imports)
             (NewStringTokenizer "FrOm t") "F"%char "rOm" " t"
             eq_refl eq_refl eq_refl eq_refl (conj eq_refl eq_refl)).
Defined.

(** goyacc's numbering is one-to-one and above the character codes. *)
Lemma Lex_hides_comments_witness :
  (forall a b : Token, goyacc_tok a = goyacc_tok b -> a = b)
  /\ (forall a : Token, 255 < goyacc_tok a)
  /\ (AllowComments (NewStringTokenizer "/* a */ -- b") = false
      /\ exists typ lval' t',
           @Lex sample_imports (NewStringTokenizer "/* a */ -- b")
             (mkSym None)
           = Ok (typ, lval', t')
           /\ typ <> 57351 /\ AllowComments t' = false)
  /\ @pull sample_imports 3 (NewStringTokenizer "SELECT /* x */ 1")
       (mkSym None)
     = Ok [ (57356, None); (57349, Some "1"); (0, Some "1") ].
Proof.
  split; [exact goyacc_tok_inj|]. split; [exact goyacc_tok_named|].
  split.
  - split; [reflexivity|].
    exact (proj1 (@Lex_hides_comments sample_imports
                    goyacc_tok_inj goyacc_tok_named)
             (NewStringTokenizer "/* a */ -- b") (mkSym None) eq_refl).
  - exact (proj1 (proj2 (@Lex_hides_comments sample_imports
                           goyacc_tok_inj goyacc_tok_named))).
Defined.

(** A hexadecimal prefix before a [g]. *)
Lemma bare_hex_prefix_is_a_number_witness :
  ForceEOF (NewStringTokenizer "0xg") = false
  /\ ("x"%char = "x"%char \/ "x"%char = "X"%char)
  /\ isHexDigit (head_char "g") = false
  /\ at_input (start (NewStringTokenizer "0xg")) (String "0" (String "x" "g"))
  /\ @Scan sample_imports (NewStringTokenizer "0xg")
     = Ok ((57349, Some "0x"), nextN 2 (start (NewStringTokenizer "0xg")))
  /\ at_input (nextN 2 (start (NewStringTokenizer "0xg"))) "g".
Proof.
  split; [reflexivity|]. split; [left; reflexivity|].
  split; [reflexivity|]. split; [split; reflexivity|].
  exact (@bare_hex_prefix_is_a_number sample_imports
           (NewStringTokenizer "0xg") "x"%char "g"
           eq_refl (or_introl eq_refl) eq_refl (conj eq_refl eq_refl)).
Defined.

(** * More of the lexer *)

(** ** The fuel does not matter *)

(** One step of a proof that more fuel gives the same result: the goal is
    an implication between two runs of the same code, the second on the
    fuel [fuel']; [sub] carries a run of a sub-scanner over. *)
Ltac mono_step sub :=
  cbn [bind];
  match goal with
  | |- ?a = Ok ?r -> ?a = Ok ?r => exact (fun H => H)
  | |- Panic _ = Ok _ -> _ => discriminate
  | |- OutOfFuel = Ok _ -> _ => discriminate
  | |- (if ?c then _ else _) = Ok _ -> _ => destruct c
  | |- bind (if ?c then _ else _) _ = Ok _ -> _ => destruct c
  | |- bind (skipBlank ?f ?t) _ = Ok _ -> _ =>
      let E := fresh "E" in
      destruct (skipBlank f t) as [?| |] eqn:E;
      [ sub E; rewrite E | | ]
  | |- match lookup ?k ?m with _ => _ end = Ok _ -> _ =>
      destruct (lookup k m)
  | |- bind (bind ?e _) _ = Ok _ -> _ =>
      let E := fresh "E" in
      destruct e as [[? ?]| |] eqn:E;
      [ try (sub E; rewrite E) | | ]
  | |- bind ?e _ = Ok _ -> _ =>
      let E := fresh "E" in
      destruct e as [[? ?]| |] eqn:E;
      [ try (sub E; rewrite E) | | ]
  | |- match ?x with _ => _ end = Ok _ -> _ => destruct x
  | |- ?e = Ok _ -> _ =>
      let E := fresh "E" in intros E; sub E; exact E
  end.

Section Fuel.

Context {imports : Imports}.

Lemma skipBlank_mono {fuel fuel' : nat} {t r} :
  (fuel <= fuel')%nat -> skipBlank fuel t = Ok r -> skipBlank fuel' t = Ok r.
Proof.
  revert fuel' t. induction fuel as [|f IH]; intros fuel' t Hle;
    (destruct fuel' as [|f']; [try lia|]); cbn [skipBlank]; cbv zeta;
    destruct ((lastChar t =? uint16 " ") || (lastChar t =? 10)
              || (lastChar t =? 13) || (lastChar t =? 9));
    try discriminate; auto.
  apply IH. lia.
Qed.

Lemma scanIdentifier_loop_mono {fuel fuel' : nat} {buffer t r} :
  (fuel <= fuel')%nat ->
  scanIdentifier_loop fuel buffer t = Ok r ->
  scanIdentifier_loop fuel' buffer t = Ok r.
Proof.
  revert fuel' buffer t. induction fuel as [|f IH]; intros fuel' buffer t Hle;
    (destruct fuel' as [|f']; [try lia|]); cbn [scanIdentifier_loop];
    destruct (isLetter (lastChar t) || isDigit (lastChar t));
    try discriminate; auto.
  apply IH. lia.
Qed.

Lemma scanBindVar_loop_mono {fuel fuel' : nat} {buffer t r} :
  (fuel <= fuel')%nat ->
  scanBindVar_loop fuel buffer t = Ok r ->
  scanBindVar_loop fuel' buffer t = Ok r.
Proof.
  revert fuel' buffer t. induction fuel as [|f IH]; intros fuel' buffer t Hle;
    (destruct fuel' as [|f']; [try lia|]); cbn [scanBindVar_loop];
    destruct (isLetter (lastChar t) || isDigit (lastChar t)
              || (lastChar t =? uint16 "."));
    try discriminate; auto.
  apply IH. lia.
Qed.

Lemma scanMantissa_mono {fuel fuel' : nat} {base buffer t r} :
  (fuel <= fuel')%nat ->
  scanMantissa fuel base buffer t = Ok r ->
  scanMantissa fuel' base buffer t = Ok r.
Proof.
  revert fuel' buffer t. induction fuel as [|f IH]; intros fuel' buffer t Hle;
    (destruct fuel' as [|f']; [try lia|]); cbn [scanMantissa];
    destruct (digitVal (lastChar t) <? base); try discriminate; auto.
  destruct (Next buffer t) as [[b1 t1]| |]; cbn [bind]; try discriminate.
  apply IH. lia.
Qed.

Lemma scanString_loop_mono {fuel fuel' : nat} {delim typ buffer t r} :
  (fuel <= fuel')%nat ->
  scanString_loop fuel delim typ buffer t = Ok r ->
  scanString_loop fuel' delim typ buffer t = Ok r.
Proof.
  revert fuel' buffer t. induction fuel as [|f IH]; intros fuel' buffer t Hle;
    [discriminate|].
  destruct fuel' as [|f']; [lia|]. cbn [scanString_loop]. cbv zeta.
  assert (Hf : (f <= f')%nat) by lia.
  repeat mono_step ltac:(fun E => apply (IH _ _ _ Hf) in E).
Qed.

Lemma scanCommentType1_loop_mono {fuel fuel' : nat} {buffer t r} :
  (fuel <= fuel')%nat ->
  scanCommentType1_loop fuel buffer t = Ok r ->
  scanCommentType1_loop fuel' buffer t = Ok r.
Proof.
  revert fuel' buffer t. induction fuel as [|f IH]; intros fuel' buffer t Hle;
    (destruct fuel' as [|f']; [try lia|]); cbn [scanCommentType1_loop];
    destruct (lastChar t =? EOFCHAR); cbn [negb]; try discriminate; auto.
  assert (Hf : (f <= f')%nat) by lia.
  repeat mono_step ltac:(fun E => apply (IH _ _ _ Hf) in E).
Qed.

Lemma scanCommentType2_loop_mono {fuel fuel' : nat} {buffer t r} :
  (fuel <= fuel')%nat ->
  scanCommentType2_loop fuel buffer t = Ok r ->
  scanCommentType2_loop fuel' buffer t = Ok r.
Proof.
  revert fuel' buffer t. induction fuel as [|f IH]; intros fuel' buffer t Hle;
    [discriminate|].
  destruct fuel' as [|f']; [lia|]. cbn [scanCommentType2_loop].
  assert (Hf : (f <= f')%nat) by lia.
  repeat mono_step ltac:(fun E => apply (IH _ _ _ Hf) in E).
Qed.

(** Carries a run of a loop over to the fuel of [Hle]. *)
Ltac carry Hle E :=
  first
    [ apply (skipBlank_mono Hle) in E
    | apply (scanIdentifier_loop_mono Hle) in E
    | apply (scanBindVar_loop_mono Hle) in E
    | apply (scanMantissa_mono Hle) in E
    | apply (scanString_loop_mono Hle) in E
    | apply (scanCommentType1_loop_mono Hle) in E
    | apply (scanCommentType2_loop_mono Hle) in E ].

Lemma scanNumber_exponent_mono {fuel fuel' : nat} {buffer t r} :
  (fuel <= fuel')%nat ->
  scanNumber_exponent fuel buffer t = Ok r ->
  scanNumber_exponent fuel' buffer t = Ok r.
Proof.
  intros Hle. unfold scanNumber_exponent, scanNumber_exit.
  repeat mono_step ltac:(fun E => carry Hle E).
Qed.

Lemma scanNumber_fraction_mono {fuel fuel' : nat} {buffer t r} :
  (fuel <= fuel')%nat ->
  scanNumber_fraction fuel buffer t = Ok r ->
  scanNumber_fraction fuel' buffer t = Ok r.
Proof.
  intros Hle. unfold scanNumber_fraction.
  repeat mono_step
    ltac:(fun E => first [ carry Hle E
                         | apply (scanNumber_exponent_mono Hle) in E ]).
Qed.

Lemma scanNumber_mono {fuel fuel' : nat} {seen t r} :
  (fuel <= fuel')%nat ->
  scanNumber fuel seen t = Ok r -> scanNumber fuel' seen t = Ok r.
Proof.
  intros Hle. unfold scanNumber, scanNumber_exit. cbv zeta.
  repeat mono_step
    ltac:(fun E => first [ carry Hle E
                         | apply (scanNumber_exponent_mono Hle) in E
                         | apply (scanNumber_fraction_mono Hle) in E ]).
Qed.

(** More fuel than a call of [Scan] needs changes nothing. *)
Lemma Scan_with_mono {fuel fuel' : nat} {t r} :
  (fuel <= fuel')%nat ->
  Scan_with fuel t = Ok r -> Scan_with fuel' t = Ok r.
Proof.
  intros Hle.
  unfold Scan_with, scanIdentifier, scanBindVar, scanString,
    scanCommentType1, scanCommentType2.
  cbv zeta.
  repeat mono_step
    ltac:(fun E => first [ carry Hle E
                         | apply (scanNumber_mono Hle) in E ]).
Qed.

Lemma Scan_with_enough (fuel : nat) (t : Tokenizer) :
  (fuel_of t <= fuel)%nat -> Scan_with fuel t = Scan t.
Proof.
  intros Hle. destruct (Scan_total t) as (tv & t' & E). rewrite E.
  exact (Scan_with_mono Hle E).
Qed.

End Fuel.

(** ** Blanks, the end of the input, and what a call leaves alone *)

Lemma next_errorToken (t : Tokenizer) : errorToken (next t) = errorToken t.
Proof. unfold next. now destruct (InStream t). Qed.

Lemma next_LastError (t : Tokenizer) : LastError (next t) = LastError t.
Proof. unfold next. now destruct (InStream t). Qed.

Lemma nextN_errorToken (k : nat) (t : Tokenizer) :
  errorToken (nextN k t) = errorToken t.
Proof.
  revert t. induction k as [|k IH]; intros t; cbn [nextN]; [reflexivity|].
  now rewrite IH, next_errorToken.
Qed.

Lemma nextN_LastError (k : nat) (t : Tokenizer) :
  LastError (nextN k t) = LastError t.
Proof.
  revert t. induction k as [|k IH]; intros t; cbn [nextN]; [reflexivity|].
  now rewrite IH, next_LastError.
Qed.

Lemma start_ForceEOF (t : Tokenizer) : ForceEOF (start t) = ForceEOF t.
Proof.
  unfold start. destruct (lastChar t =? 0); [apply next_ForceEOF | auto].
Qed.

Lemma start_InStream_length (t : Tokenizer) :
  (String.length (InStream (start t)) <= String.length (InStream t))%nat.
Proof.
  unfold start. destruct (lastChar t =? 0); [|lia].
  rewrite next_InStream_length. lia.
Qed.

Lemma skipBlank_run (ws s : string) :
  all_bytes isBlank ws = true -> isBlank (head_char s) = false ->
  forall (fuel : nat) (t : Tokenizer),
    at_input t (ws ++ s) -> (measure t <= fuel)%nat ->
    skipBlank fuel t = Ok (nextN (String.length ws) t).
Proof.
  intros Hws Hs. induction ws as [|c ws IH]; intros fuel t A Hm.
  - cbn [append] in A. destruct A as [A _]. cbn [String.length nextN].
    apply skipBlank_nonblank. now rewrite A.
  - cbn [all_bytes] in Hws. apply andb_prop in Hws as [Hc Hws].
    pose proof (at_input_lastChar _ _ _ A) as L.
    assert (Lv : lastChar t <> EOFCHAR)
      by (apply isBlank_live; now rewrite L).
    pose proof (measure_next_lt t Lv).
    destruct fuel as [|f]; [lia|].
    cbn [skipBlank String.length nextN]. cbv zeta.
    change ((lastChar t =? uint16 " ") || (lastChar t =? 10)
            || (lastChar t =? 13) || (lastChar t =? 9))
      with (isBlank (lastChar t)).
    rewrite L, Hc. apply (IH Hws); [eapply at_input_next; exact A | lia].
Qed.

Section Around.

Context {imports : Imports}.

(** X1: blanks before a token are skipped: the call made before them ends as
    the call made after them does, in its token and in the tokenizer it
    leaves. *)
Theorem blanks_are_skipped (t : Tokenizer) (ws s : string) :
  ForceEOF t = false ->
  all_bytes isBlank ws = true -> isBlank (head_char s) = false ->
  head_char s <> 0 ->
  at_input (start t) (ws ++ s) ->
  Scan t = Scan (nextN (String.length ws) (start t)).
Proof.
  intros F Hws Hs H0 A.
  set (u := nextN (String.length ws) (start t)).
  assert (Au : at_input u s) by (apply at_input_nextN; exact A).
  assert (Lu : lastChar u = head_char s) by (now destruct Au).
  assert (Fu : ForceEOF u = false).
  { unfold u. now rewrite nextN_ForceEOF, start_ForceEOF. }
  assert (E1 : Scan t = Scan_with (fuel_of t) u).
  { unfold Scan, Scan_with. rewrite F, Fu. fold (start t).
    pose proof (measure_start t). pose proof (measure_lt_fuel t).
    rewrite (skipBlank_run ws s Hws Hs); [| exact A | lia].
    fold u. rewrite Lu. apply Z.eqb_neq in H0. rewrite H0.
    rewrite skipBlank_nonblank by (now rewrite Lu).
    reflexivity. }
  rewrite E1. apply Scan_with_enough.
  unfold fuel_of, u. rewrite nextN_InStream_length.
  pose proof (start_InStream_length t). lia.
Qed.

(** X2: once [ForceEOF] is set, every call of [Scan] returns the end of the
    input and changes nothing. *)
Theorem ForceEOF_ends_the_input (t : Tokenizer) (n : nat) :
  ForceEOF t = true -> Scans n t = Ok (repeat (0, None) n, t).
Proof.
  intros F. induction n as [|n IH]; cbn [Scans repeat]; [reflexivity|].
  unfold Scan, Scan_with. rewrite F. cbn [bind]. rewrite IH. reflexivity.
Qed.

(** X3: at the end of the input every call of [Scan] returns the end of the
    input again, and the lookahead stays the sentinel; each call is one
    more call of [next]. *)
Theorem end_of_input_is_sticky (t : Tokenizer) (n : nat) :
  ForceEOF t = false -> at_input t "" ->
  Scans n t = Ok (repeat (0, None) n, nextN n t)
  /\ at_input (nextN n t) "".
Proof.
  revert t. induction n as [|n IH]; intros t F A; cbn [Scans repeat nextN].
  - auto.
  - destruct A as [L I]. cbn [head_char tail] in L, I.
    rewrite (Scan_at_EOF t F L). cbn [bind].
    assert (A1 : at_input (next t) "").
    { unfold next. rewrite I. split; reflexivity. }
    destruct (IH (next t)) as [E A2];
      [now rewrite next_ForceEOF | exact A1 |].
    rewrite E. cbn [bind]. auto.
Qed.

(** X4: what [Scan] leaves alone: the two flags, the error token and the last
    error; and the counter of the placeholders, but for the call that is for
    an anonymous placeholder. *)
Theorem Scan_leaves_the_rest_alone (t : Tokenizer) (tv : token)
  (t' : Tokenizer) :
  Scan t = Ok (tv, t') ->
  AllowComments t' = AllowComments t /\ ForceEOF t' = ForceEOF t
  /\ errorToken t' = errorToken t /\ LastError t' = LastError t
  /\ (scans_placeholder t = false -> posVarIndex t' = posVarIndex t).
Proof.
  intros E. destruct (Scan_spec t) as (tv0 & t0 & E0 & H).
  rewrite E in E0. injection E0 as <- <-.
  unfold scans_placeholder. destruct (ForceEOF t) eqn:F.
  - destruct H as [_ ->]. auto.
  - destruct (dispatch_char t =? uint16 "?").
    + destruct H as (_ & k & _ & -> & _).
      cbn [AllowComments ForceEOF errorToken LastError set_posVarIndex].
      rewrite nextN_AllowComments, nextN_ForceEOF, nextN_errorToken,
        nextN_LastError.
      repeat split; auto. discriminate.
    + destruct H as ((k & _ & -> & _) & _).
      rewrite nextN_AllowComments, nextN_ForceEOF, nextN_errorToken,
        nextN_LastError, nextN_posVarIndex.
      repeat split; auto.
Qed.

(** X5: pulling tokens comes to the end of the input: from any tokenizer, one
    of the first calls of [Scan], no later than twice the unread bytes plus
    two, returns the end of the input. *)
Theorem Scan_reaches_the_end_of_the_input (t : Tokenizer) :
  exists (n : nat) (tvs : list token) (t' : Tokenizer),
    (n <= 2 * String.length (InStream t) + 1)%nat
    /\ List.length tvs = n
    /\ Scans (S n) t = Ok ((tvs ++ [(0, None)])%list, t').
Proof.
  assert (G : forall (m : nat) (t : Tokenizer),
             (measure t <= m)%nat ->
             exists (n : nat) (tvs : list token) (t' : Tokenizer),
               (n <= m)%nat /\ List.length tvs = n
               /\ Scans (S n) t = Ok ((tvs ++ [(0, None)])%list, t')).
  { induction m as [|m IH]; intros u Hm.
    - destruct (Scan_total u) as (tv & u' & E).
      destruct (Scan_progress u tv u' E) as [Z | M]; [|lia].
      destruct (Scan_spec u) as (tv0 & u0 & E0 & H).
      rewrite E in E0. injection E0 as <- <-.
      exists 0%nat, [], u'. cbn [Scans List.length app]. rewrite E.
      cbn [bind]. repeat split; auto.
      destruct (ForceEOF u).
      + now destruct H as [-> _].
      + destruct (dispatch_char u =? uint16 "?").
        * destruct H as (_ & k & Hk & -> & Hm'). 
          rewrite measure_set_posVarIndex in Hm'. lia.
        * destruct H as (_ & [-> | M]); [reflexivity | lia].
    - destruct (Scan_spec u) as (tv & u' & E & H).
      assert (D : tv = (0, None) \/ (measure u' <= m)%nat).
      { destruct (ForceEOF u).
        - left. now destruct H.
        - destruct (dispatch_char u =? uint16 "?").
          + destruct H as (_ & k & Hk & -> & Hm').
            rewrite measure_set_posVarIndex in *. right. lia.
          + destruct H as (_ & [-> | M]); [now left | right; lia]. }
      destruct D as [-> | M].
      + exists 0%nat, [], u'. cbn [Scans List.length app]. rewrite E.
        cbn [bind]. repeat split; auto. lia.
      + destruct (IH u' M) as (n & tvs & t' & Hn & Hl & Es).
        exists (S n), (tv :: tvs), t'. repeat split; [lia | cbn; lia |].
        change (Scans (S (S n)) u)
          with (let* (tv, tkn) := Scan u in
                let* (tvs, tkn) := Scans (S n) tkn in Ok (tv :: tvs, tkn)).
        rewrite E. cbn [bind]. rewrite Es. reflexivity. }
  apply G. unfold measure. destruct (lastChar t =? EOFCHAR); lia.
Qed.

End Around.

(** ** Operators and single characters *)

(** [Scan] up to its [switch], when there is no blank to skip; then the
    tests of the [switch] that the known lookaheads settle. *)
Ltac enter_switch t F :=
  unfold Scan, Scan_with; rewrite F; fold (start t);
  rewrite skipBlank_nonblank
    by (let X := fresh "X" in
        destruct (isBlank (lastChar (start t))) eqn:X;
        [exfalso; class_lia | reflexivity]);
  cbn [bind]; cbv zeta.

Ltac settle := repeat first [cond_false | cond_true].

Section Operators.

Context {imports : Imports}.

(** X6: the comparison operators are read longest first: [<=>] is one token,
    [<=], [<>], [>=] and [!=] are one token each, [<>] and [!=] of the same
    kind, and a [<] or [>] that starts none of these is the token of its
    own character code; none of them carries a text. *)
Theorem comparison_operators_longest_first (t : Tokenizer) (rest : string) :
  ForceEOF t = false ->
  (at_input (start t) (String "<" (String "=" (String ">" rest))) ->
   Scan t = Ok ((tok NULL_SAFE_EQUAL, None), nextN 3 (start t)))
  /\ (at_input (start t) (String "<" (String "=" rest)) ->
      (head_char rest =? uint16 ">") = false ->
      Scan t = Ok ((tok LE, None), nextN 2 (start t)))
  /\ (at_input (start t) (String "<" (String ">" rest)) ->
      Scan t = Ok ((tok NE, None), nextN 2 (start t)))
  /\ (at_input (start t) (String "!" (String "=" rest)) ->
      Scan t = Ok ((tok NE, None), nextN 2 (start t)))
  /\ (at_input (start t) (String ">" (String "=" rest)) ->
      Scan t = Ok ((tok GE, None), nextN 2 (start t)))
  /\ (at_input (start t) (String "<" rest) ->
      (head_char rest =? uint16 ">") = false ->
      (head_char rest =? uint16 "=") = false ->
      Scan t = Ok ((uint16 "<", None), nextN 1 (start t)))
  /\ (at_input (start t) (String ">" rest) ->
      (head_char rest =? uint16 "=") = false ->
      Scan t = Ok ((uint16 ">", None), nextN 1 (start t))).
Proof.
  intros F.
  repeat match goal with |- _ /\ _ => split end; intros A;
    pose proof (at_input_lastChar _ _ _ A) as L0;
    pose proof (at_input_next _ _ _ A) as [L1 I1].
  - pose proof (at_input_next _ _ _ (at_input_next _ _ _ A)) as [L2 _].
    cbn [head_char] in L1, L2.
    enter_switch t F. settle. rewrite ?L0. reflexivity.
  - intros H.
    pose proof (at_input_next _ _ _ (at_input_next _ _ _ A)) as [L2 _].
    cbn [head_char] in L1.
    enter_switch t F. settle. rewrite ?L0. reflexivity.
  - cbn [head_char] in L1. enter_switch t F. settle. rewrite ?L0. reflexivity.
  - cbn [head_char] in L1. enter_switch t F. settle. rewrite ?L0. reflexivity.
  - cbn [head_char] in L1. enter_switch t F. settle. rewrite ?L0. reflexivity.
  - intros H1 H2. enter_switch t F. settle. rewrite ?L0. reflexivity.
  - intros H1. enter_switch t F. settle. rewrite ?L0. reflexivity.
Qed.

(** X7: a [!] that does not start [!=] is a lexical error whose text is the
    [!] alone; the character after it stays the lookahead. *)
Theorem lone_bang_is_a_lexical_error (t : Tokenizer) (rest : string) :
  ForceEOF t = false ->
  at_input (start t) (String "!" rest) ->
  (head_char rest =? uint16 "=") = false ->
  Scan t = Ok ((tok LEX_ERROR, Some "!"), nextN 1 (start t))
  /\ at_input (nextN 1 (start t)) rest.
Proof.
  intros F A H.
  pose proof (at_input_lastChar _ _ _ A) as L0.
  pose proof (at_input_next _ _ _ A) as A1.
  split; [|exact A1]. destruct A1 as [L1 _].
  enter_switch t F. settle. reflexivity.
Qed.

(** X8: each of the twelve self-delimiting characters is the token of its own
    character code, with no text, and one character is consumed. *)
Theorem self_delimiting_characters (t : Tokenizer) (c : ascii)
  (rest : string) :
  ForceEOF t = false ->
  isSelfDelimiting (uint16 c) = true ->
  at_input (start t) (String c rest) ->
  Scan t = Ok ((uint16 c, None), nextN 1 (start t))
  /\ at_input (nextN 1 (start t)) rest.
Proof.
  intros F S A.
  pose proof (at_input_lastChar _ _ _ A) as L0.
  split; [|exact (at_input_next _ _ _ A)].
  rewrite <- L0 in S.
  assert (B : isBlank (lastChar (start t)) = false).
  { destruct (isBlank (lastChar (start t))) eqn:X; [|reflexivity].
    exfalso. class_lia. }
  assert (C1 : isLetter (lastChar (start t)) = false).
  { destruct (isLetter (lastChar (start t))) eqn:X; [|reflexivity].
    exfalso. class_lia. }
  assert (C2 : isDigit (lastChar (start t)) = false).
  { destruct (isDigit (lastChar (start t))) eqn:X; [|reflexivity].
    exfalso. class_lia. }
  assert (C3 : (lastChar (start t) =? uint16 ":") = false).
  { destruct (lastChar (start t) =? uint16 ":") eqn:X; [|reflexivity].
    exfalso. class_lia. }
  assert (C4 : (lastChar (start t) =? EOFCHAR) = false).
  { rewrite L0. apply uint16_not_EOF. }
  unfold Scan, Scan_with. rewrite F. fold (start t).
  rewrite skipBlank_nonblank by exact B. cbn [bind]. cbv zeta.
  rewrite C1, C2, C3, C4, S, L0. reflexivity.
Qed.

(** X9: a byte that no case of [Scan] knows, standing as the lookahead after
    the first read, is returned as a lexical error whose text is that one
    byte, and it is consumed. *)
Theorem unknown_byte_is_a_lexical_error (t : Tokenizer) (c : ascii)
  (rest : string) :
  ForceEOF t = false ->
  unrecognized (uint16 c) = true ->
  at_input (start t) (String c rest) ->
  Scan t = Ok ((tok LEX_ERROR, Some (String c "")), nextN 1 (start t))
  /\ at_input (nextN 1 (start t)) rest.
Proof.
  intros F U A.
  pose proof (at_input_lastChar _ _ _ A) as L0.
  split; [|exact (at_input_next _ _ _ A)].
  rewrite <- L0 in U. rewrite (Scan_unrecognized t F U).
  now rewrite L0, byte_uint16.
Qed.

End Operators.

(** ** Comments, bind variables and quoted texts that close *)

Lemma length_append (a b : string) :
  String.length (a ++ b) = (String.length a + String.length b)%nat.
Proof. induction a as [|c a IH]; cbn; [reflexivity | now rewrite IH]. Qed.

Section Closed.

Context {imports : Imports}.

Lemma scanCommentType1_loop_run (body : string) :
  all_bytes (fun ch => negb (isNewline ch)) body = true ->
  forall (rest : string) (fuel : nat) (buffer : string) (t : Tokenizer),
    (measure t <= fuel)%nat ->
    (at_input t (body ++ String "010" rest) ->
     scanCommentType1_loop fuel buffer t
     = Ok (buffer ++ body ++ String "010" "",
           nextN (S (String.length body)) t))
    /\ (at_input t body ->
        scanCommentType1_loop fuel buffer t
        = Ok (buffer ++ body, nextN (String.length body) t)).
Proof.
  induction body as [|c body IH]; intros Hb rest fuel buffer t Hm.
  - split; intros A.
    + cbn [append] in A. pose proof (at_input_lastChar _ _ _ A) as L.
      assert (Lv : lastChar t <> EOFCHAR) by (rewrite L; discriminate).
      pose proof (measure_next_lt t Lv).
      destruct fuel as [|f]; [lia|]. cbn [scanCommentType1_loop].
      rewrite (Next_live _ _ Lv), L, byte_uint16.
      change (uint16 "010" =? EOFCHAR) with false.
      change (uint16 "010" =? 10) with true. reflexivity.
    + destruct A as [L _]. cbn [head_char] in L.
      destruct fuel; cbn [scanCommentType1_loop]; rewrite L;
        change (EOFCHAR =? EOFCHAR) with true; cbn [negb];
        now rewrite append_nil_r.
  - cbn [all_bytes] in Hb. apply andb_prop in Hb as [Hc Hb].
    unfold isNewline in Hc. apply negb_true_iff in Hc.
    assert (G : forall s, at_input t (String c s) ->
                scanCommentType1_loop fuel buffer t
                = scanCommentType1_loop (pred fuel)
                    (buffer ++ String c "") (next t)
                  /\ (measure (next t) <= pred fuel)%nat).
    { intros s A. pose proof (at_input_lastChar _ _ _ A) as L.
      assert (Lv : lastChar t <> EOFCHAR)
        by (rewrite L; apply Z.eqb_neq, uint16_not_EOF).
      pose proof (measure_next_lt t Lv).
      destruct fuel as [|f]; [lia|]. cbn [scanCommentType1_loop pred].
      rewrite (Next_live _ _ Lv), L, byte_uint16, uint16_not_EOF, Hc.
      cbn [negb bind]. split; [reflexivity | lia]. }
    split; intros A; cbn [append] in A; destruct (G _ A) as [-> Hm'];
      apply at_input_next in A; cbn [String.length nextN].
    + rewrite (proj1 (IH Hb rest _ _ _ Hm') A).
      now rewrite append_assoc.
    + rewrite (proj2 (IH Hb rest _ _ _ Hm') A).
      now rewrite append_assoc.
Qed.

(** X10: a line comment, opened by [--] or [//], runs through the end of its
    line, the newline included, or to the end of the input; it is a comment
    token with the text as it stands in the input, and never an error. *)
Theorem line_comments (t : Tokenizer) (p : ascii) (body rest : string) :
  ForceEOF t = false ->
  p = "-"%char \/ p = "/"%char ->
  all_bytes (fun ch => negb (isNewline ch)) body = true ->
  (at_input (start t) (String p (String p (body ++ String "010" rest))) ->
   Scan t
   = Ok ((tok COMMENT,
          Some (String p (String p (body ++ String "010" "")))),
         nextN (3 + String.length body) (start t)))
  /\ (at_input (start t) (String p (String p body)) ->
      Scan t
      = Ok ((tok COMMENT, Some (String p (String p body))),
            nextN (2 + String.length body) (start t))).
Proof.
  intros F Hp Hb.
  pose proof (measure_start t). pose proof (measure_lt_fuel t).
  pose proof (measure_next_le (start t)).
  pose proof (measure_next_le (next (start t))).
  split; intros A;
    pose proof (at_input_lastChar _ _ _ A) as L0;
    pose proof (at_input_next _ _ _ A) as A1;
    pose proof (at_input_lastChar _ _ _ A1) as L1;
    pose proof (at_input_next _ _ _ A1) as A2;
    destruct Hp as [-> | ->]; enter_switch t F; settle;
    unfold scanCommentType1; cbn [append Nat.add nextN].
  - rewrite (proj1 (scanCommentType1_loop_run body Hb rest (fuel_of t) _
                      (next (next (start t))) ltac:(lia)) A2). reflexivity.
  - rewrite (proj1 (scanCommentType1_loop_run body Hb rest (fuel_of t) _
                      (next (next (start t))) ltac:(lia)) A2). reflexivity.
  - rewrite (proj2 (scanCommentType1_loop_run body Hb "" (fuel_of t) _
                      (next (next (start t))) ltac:(lia)) A2). reflexivity.
  - rewrite (proj2 (scanCommentType1_loop_run body Hb "" (fuel_of t) _
                      (next (next (start t))) ltac:(lia)) A2). reflexivity.
Qed.

Lemma scanCommentType2_loop_run (rest : string) :
  forall (body : string) (fuel : nat) (buffer : string) (t : Tokenizer),
    has_star_slash body = false ->
    at_input t (body ++ String "*" (String "/" rest)) ->
    (measure t < fuel)%nat ->
    scanCommentType2_loop fuel buffer t
    = Ok ((tok COMMENT, Some (buffer ++ body ++ "*/")),
          nextN (String.length body + 2) t).
Proof.
  induction body as [|c body IH]; intros fuel buffer t H A Hm;
    (destruct fuel as [|f]; [lia|]); cbn [scanCommentType2_loop].
  - cbn [append] in A.
    pose proof (at_input_lastChar _ _ _ A) as L.
    pose proof (at_input_next _ _ _ A) as A1.
    pose proof (at_input_lastChar _ _ _ A1) as L1.
    rewrite L, Z.eqb_refl.
    rewrite Next_live by (rewrite L; discriminate). cbn [bind].
    rewrite L1, Z.eqb_refl.
    rewrite Next_live by (rewrite L1; discriminate). cbn [bind].
    rewrite L, L1, !byte_uint16. unfold WriteByte.
    now rewrite append_assoc.
  - cbn [append] in A.
    pose proof (at_input_lastChar _ _ _ A) as L.
    pose proof (at_input_next _ _ _ A) as A1.
    assert (Lv : lastChar t <> EOFCHAR)
      by (rewrite L; apply Z.eqb_neq, uint16_not_EOF).
    pose proof (measure_next_lt t Lv).
    cbn [has_star_slash] in H. apply orb_false_iff in H as [H1 H2].
    rewrite (Next_live _ _ Lv). cbn [bind].
    rewrite L, uint16_eqb, uint16_not_EOF, byte_uint16.
    cbn [String.length Nat.add nextN].
    assert (N1 : (lastChar (next t) =? uint16 "/") = false
                 \/ Ascii.eqb c "*" = false).
    { destruct (Ascii.eqb c "*"); [left | now right].
      cbn [andb] in H1. destruct A1 as [-> _].
      destruct body; [reflexivity | exact H1]. }
    destruct (Ascii.eqb c "*").
    + destruct N1 as [-> | N1]; [|discriminate].
      rewrite (IH f); [| assumption | assumption | lia].
      now rewrite WriteByte_append.
    + rewrite (IH f); [| assumption | assumption | lia].
      now rewrite WriteByte_append.
Qed.

(** X11: a block comment runs to the first [*/] after its [/*] and is a comment
    token with the text as it stands in the input. *)
Theorem block_comments_close_at_the_first_terminator (t : Tokenizer)
  (body rest : string) :
  ForceEOF t = false ->
  has_star_slash body = false ->
  at_input (start t)
    (String "/" (String "*" (body ++ String "*" (String "/" rest)))) ->
  Scan t
  = Ok ((tok COMMENT, Some (String "/" (String "*" (body ++ "*/")))),
        nextN (String.length body + 4) (start t)).
Proof.
  intros F H A.
  pose proof (at_input_lastChar _ _ _ A) as L.
  pose proof (at_input_next _ _ _ A) as A1.
  pose proof (at_input_lastChar _ _ _ A1) as L1.
  pose proof (at_input_next _ _ _ A1) as A2.
  pose proof (measure_start t). pose proof (measure_lt_fuel t).
  pose proof (measure_next_le (start t)).
  pose proof (measure_next_le (next (start t))).
  rewrite (Scan_block_comment t F L L1). unfold scanCommentType2.
  rewrite (scanCommentType2_loop_run rest body); auto; [|lia].
  cbn [append].
  replace (String.length body + 4)%nat
    with (2 + (String.length body + 2))%nat by lia.
  rewrite !nextN_add. reflexivity.
Qed.

Lemma scanBindVar_loop_run (w rest : string) :
  all_bytes isNameChar w = true ->
  isNameChar (head_char rest) = false ->
  forall (fuel : nat) (buffer : string) (t : Tokenizer),
    at_input t (w ++ rest) -> (measure t <= fuel)%nat ->
    scanBindVar_loop fuel buffer t
    = Ok (buffer ++ w, nextN (String.length w) t).
Proof.
  intros Hw Hrest. unfold isNameChar in Hrest.
  induction w as [|c w IH]; intros fuel buffer t A Hm.
  - cbn [append] in A. destruct A as [A _].
    destruct fuel; cbn [scanBindVar_loop]; rewrite A, Hrest;
      now rewrite append_nil_r.
  - cbn [all_bytes] in Hw. apply andb_prop in Hw as [Hc Hw].
    unfold isNameChar in Hc.
    pose proof (at_input_lastChar _ _ _ A) as L.
    assert (Lv : lastChar t <> EOFCHAR)
      by (apply bindChar_live; now rewrite L).
    pose proof (measure_next_lt t Lv).
    destruct fuel as [|f]; [lia|].
    cbn [scanBindVar_loop]. rewrite L, Hc.
    rewrite (IH Hw f); [| eapply at_input_next; exact A | lia].
    rewrite byte_uint16, WriteByte_append. reflexivity.
Qed.

(** X12: a named bind variable is a colon and the letters, digits and dots after
    it, returned with the colon; a colon with no such character after it is
    a lexical error whose text is the colon. *)
Theorem named_bind_variables (t : Tokenizer) (name rest : string) :
  ForceEOF t = false ->
  all_bytes isNameChar name = true ->
  isNameChar (head_char rest) = false ->
  at_input (start t) (String ":" (name ++ rest)) ->
  Scan t
  = Ok ((match name with
         | EmptyString => tok LEX_ERROR
         | String _ _ => tok VALUE_ARG
         end, Some (String ":" name)),
        nextN (S (String.length name)) (start t)).
Proof.
  intros F Hn Hrest A.
  pose proof (at_input_lastChar _ _ _ A) as L.
  pose proof (at_input_next _ _ _ A) as A1.
  assert (Lv : lastChar (start t) <> EOFCHAR) by (rewrite L; discriminate).
  pose proof (measure_next_lt _ Lv). pose proof (measure_lt_fuel t).
  pose proof (measure_start t).
  enter_switch t F. settle. unfold scanBindVar.
  rewrite (scanBindVar_loop_run name rest Hn Hrest); [| exact A1 | lia].
  cbn [bind]. rewrite L, byte_uint16. unfold WriteByte.
  cbn [append String.length nextN].
  destruct name as [|c name]; reflexivity.
Qed.

Lemma scanString_loop_run (delim : ascii) (typ : Z) (rest : string) :
  (head_char rest =? uint16 delim) = false ->
  forall (s : string) (fuel : nat) (buffer : string) (t : Tokenizer),
    all_bytes (fun ch => negb (isBackslash ch)) s = true ->
    at_input t (double_delim delim s ++ String delim rest) ->
    (measure t < fuel)%nat ->
    scanString_loop fuel (uint16 delim) typ buffer t
    = Ok ((typ, Some (buffer ++ s)),
          nextN (S (String.length (double_delim delim s))) t).
Proof.
  intros Hrest.
  induction s as [|c s IH]; intros fuel buffer t Hs A Hm;
    (destruct fuel as [|f]; [lia|]); cbn [scanString_loop]; cbv zeta.
  - cbn [double_delim append] in A.
    pose proof (at_input_lastChar _ _ _ A) as L.
    pose proof (at_input_next _ _ _ A) as [L1 _].
    rewrite L, Z.eqb_refl, L1, Hrest. cbn [double_delim String.length nextN].
    now rewrite append_nil_r.
  - cbn [all_bytes] in Hs. apply andb_prop in Hs as [Hc Hs].
    unfold isBackslash in Hc. apply negb_true_iff in Hc.
    cbn [double_delim] in A |- *.
    destruct (Ascii.eqb c delim) eqn:D.
    + apply Ascii.eqb_eq in D. subst c. cbn [append] in A.
      pose proof (at_input_lastChar _ _ _ A) as L.
      pose proof (at_input_next _ _ _ A) as A1.
      pose proof (at_input_lastChar _ _ _ A1) as L1.
      pose proof (at_input_next _ _ _ A1) as A2.
      assert (Lv : lastChar t <> EOFCHAR)
        by (rewrite L; apply Z.eqb_neq, uint16_not_EOF).
      assert (Lv1 : lastChar (next t) <> EOFCHAR)
        by (rewrite L1; apply Z.eqb_neq, uint16_not_EOF).
      pose proof (measure_next_lt _ Lv). pose proof (measure_next_lt _ Lv1).
      rewrite L, Z.eqb_refl, L1, Z.eqb_refl, uint16_not_EOF.
      rewrite (IH f); [| assumption | assumption | lia].
      rewrite byte_uint16, WriteByte_append. reflexivity.
    + cbn [append] in A.
      pose proof (at_input_lastChar _ _ _ A) as L.
      pose proof (at_input_next _ _ _ A) as A1.
      assert (Lv : lastChar t <> EOFCHAR)
        by (rewrite L; apply Z.eqb_neq, uint16_not_EOF).
      pose proof (measure_next_lt _ Lv).
      rewrite L, uint16_eqb, D, Hc, uint16_not_EOF.
      rewrite (IH f); [| assumption | assumption | lia].
      rewrite byte_uint16, WriteByte_append. reflexivity.
Qed.

(** X13: quoting and scanning is a round trip: a text without backslashes,
    written between two delimiters with each of its own delimiters doubled,
    is returned as it was, as a string for the two quotes and as an
    identifier for the backtick. *)
Theorem doubled_delimiters_round_trip (t : Tokenizer) (delim : ascii)
  (s rest : string) :
  ForceEOF t = false -> isQuote delim = true ->
  all_bytes (fun ch => negb (isBackslash ch)) s = true ->
  (head_char rest =? uint16 delim) = false ->
  at_input (start t)
    (String delim (double_delim delim s ++ String delim rest)) ->
  Scan t
  = Ok ((quoted_kind delim, Some s),
        nextN (String.length (double_delim delim s) + 2) (start t)).
Proof.
  intros F Q Hs Hrest A.
  pose proof (at_input_lastChar _ _ _ A) as L.
  pose proof (at_input_next _ _ _ A) as A1.
  pose proof (measure_start t). pose proof (measure_lt_fuel t).
  pose proof (measure_next_le (start t)).
  rewrite (Scan_quote t delim F Q L). unfold scanString.
  rewrite (scanString_loop_run delim _ rest Hrest s); auto; [|lia].
  unfold quoted_kind. cbn [append].
  replace (String.length (double_delim delim s) + 2)%nat
    with (S (S (String.length (double_delim delim s)))) by lia.
  reflexivity.
Qed.

End Closed.

(** ** Numbers keep the text of the source *)

Lemma reads_refl (s buffer : string) (t : Tokenizer) :
  at_input t s -> reads s buffer (buffer, t).
Proof.
  intros A. exists "", s. cbn [fst snd append].
  now rewrite append_nil_r.
Qed.

Section SourceText.

Context {imports : Imports}.

Lemma Next_reads (s buffer : string) (t : Tokenizer)
  (r : string * Tokenizer) :
  at_input t s -> Next buffer t = Ok r -> reads s buffer r.
Proof.
  intros A. unfold Next. destruct (lastChar t =? EOFCHAR) eqn:E;
    [discriminate|].
  intros H. injection H as <-. destruct s as [|c s].
  - destruct A as [L _]. cbn [head_char] in L. rewrite L in E.
    discriminate.
  - exists (String c ""), s. cbn [fst snd append].
    rewrite (at_input_lastChar _ _ _ A), byte_uint16.
    split; [reflexivity|]. split; [reflexivity|].
    eapply at_input_next; eauto.
Qed.

Lemma reads_step (s b0 b1 b2 : string) (t1 t2 : Tokenizer) :
  reads s b0 (b1, t1) ->
  (forall s1, at_input t1 s1 -> reads s1 b1 (b2, t2)) ->
  reads s b0 (b2, t2).
Proof.
  intros (m1 & r1 & E1 & E2 & A1) H. cbn [fst snd] in *.
  destruct (H _ A1) as (m2 & r2 & E3 & E4 & A2). cbn [fst snd] in *.
  exists (m1 ++ m2), r2. subst. now rewrite !append_assoc.
Qed.

Lemma scanMantissa_reads (base : Z) :
  forall (fuel : nat) (s buffer : string) (t : Tokenizer)
         (r : string * Tokenizer),
    at_input t s -> scanMantissa fuel base buffer t = Ok r ->
    reads s buffer r.
Proof.
  induction fuel as [|f IH]; intros s buffer t r A; cbn [scanMantissa];
    destruct (digitVal (lastChar t) <? base); try discriminate;
    try (intros H; injection H as <-; now apply reads_refl).
  destruct (Next buffer t) as [[b1 t1]| |] eqn:N; cbn [bind];
    try discriminate.
  intros H. destruct r as [b2 t2].
  apply (reads_step s buffer b1 b2 t1 t2).
  - eapply Next_reads; eauto.
  - intros s1 A1. eapply IH; eauto.
Qed.

Lemma scanNumber_exponent_reads (fuel : nat) (s buffer : string)
  (t : Tokenizer) (k : Z) (val : option string) (t' : Tokenizer) :
  at_input t s ->
  scanNumber_exponent fuel buffer t = Ok ((k, val), t') ->
  exists txt, val = Some txt /\ k = tok NUMBER /\ reads s buffer (txt, t').
Proof.
  intros A. unfold scanNumber_exponent, scanNumber_exit.
  destruct ((lastChar t =? uint16 "e") || (lastChar t =? uint16 "E")).
  - destruct (Next buffer t) as [[b1 t1]| |] eqn:N1; cbn [bind];
      try discriminate.
    pose proof (Next_reads _ _ _ _ A N1) as R1.
    destruct ((lastChar t1 =? uint16 "+") || (lastChar t1 =? uint16 "-")).
    + destruct (Next b1 t1) as [[b2 t2]| |] eqn:N2; cbn [bind];
        try discriminate.
      destruct (scanMantissa fuel 10 b2 t2) as [[b3 t3]| |] eqn:M;
        cbn [bind]; try discriminate.
      intros H. injection H as <- <- <-. eexists. repeat split.
      apply (reads_step s buffer b1 b3 t1 t3 R1). intros s1 A1.
      apply (reads_step s1 b1 b2 b3 t2 t3).
      * eapply Next_reads; eauto.
      * intros s2 A2. eapply scanMantissa_reads; eauto.
    + cbn [bind].
      destruct (scanMantissa fuel 10 b1 t1) as [[b3 t3]| |] eqn:M;
        cbn [bind]; try discriminate.
      intros H. injection H as <- <- <-. eexists. repeat split.
      apply (reads_step s buffer b1 b3 t1 t3 R1). intros s1 A1.
      eapply scanMantissa_reads; eauto.
  - intros H. injection H as <- <- <-. eexists. repeat split.
    now apply reads_refl.
Qed.

Lemma scanNumber_fraction_reads (fuel : nat) (s buffer : string)
  (t : Tokenizer) (k : Z) (val : option string) (t' : Tokenizer) :
  at_input t s ->
  scanNumber_fraction fuel buffer t = Ok ((k, val), t') ->
  exists txt, val = Some txt /\ k = tok NUMBER /\ reads s buffer (txt, t').
Proof.
  intros A. unfold scanNumber_fraction.
  destruct (lastChar t =? uint16 ".").
  - destruct (Next buffer t) as [[b1 t1]| |] eqn:N1; cbn [bind];
      try discriminate.
    pose proof (Next_reads _ _ _ _ A N1) as R1.
    destruct (scanMantissa fuel 10 b1 t1) as [[b3 t3]| |] eqn:M;
      cbn [bind]; try discriminate.
    intros H.
    assert (R3 : reads s buffer (b3, t3)).
    { apply (reads_step s buffer b1 b3 t1 t3 R1). intros s1 A1.
      eapply scanMantissa_reads; eauto. }
    destruct R3 as (m & rest & E1 & E2 & A3). cbn [fst snd] in *.
    destruct (scanNumber_exponent_reads _ _ _ _ _ _ _ A3 H)
      as (txt & -> & -> & (m2 & r2 & E3 & E4 & A4)).
    cbn [fst snd] in *. exists txt. repeat split.
    exists (m ++ m2), r2. cbn [fst snd]. subst.
    now rewrite !append_assoc.
  - cbn [bind]. now apply scanNumber_exponent_reads.
Qed.

Lemma scanNumber_reads (fuel : nat) (seen : bool) (s : string)
  (t : Tokenizer) (k : Z) (val : option string) (t' : Tokenizer) :
  at_input t s ->
  scanNumber fuel seen t = Ok ((k, val), t') ->
  exists txt,
    val = Some txt /\ (k = tok NUMBER \/ k = tok LEX_ERROR)
    /\ reads s (if seen then "." else "") (txt, t').
Proof.
  intros A. unfold scanNumber, scanNumber_exit. cbv zeta.
  destruct seen.
  - destruct (scanMantissa fuel 10 (WriteByte "" ".") t)
      as [[b1 t1]| |] eqn:M; cbn [bind]; try discriminate.
    intros H.
    destruct (scanMantissa_reads _ _ _ _ _ _ A M)
      as (m & rest & E1 & E2 & A1). cbn [fst snd] in *.
    destruct (scanNumber_exponent_reads _ _ _ _ _ _ _ A1 H)
      as (txt & -> & -> & (m2 & r2 & E3 & E4 & A4)).
    cbn [fst snd] in *. exists txt. repeat split; auto.
    exists (m ++ m2), r2. cbn [fst snd]. subst.
    unfold WriteByte. now rewrite !append_assoc.
  - destruct (lastChar t =? uint16 "0").
    + destruct (Next "" t) as [[b1 t1]| |] eqn:N1; cbn [bind];
        try discriminate.
      pose proof (Next_reads _ _ _ _ A N1) as R1.
      destruct ((lastChar t1 =? uint16 "x") || (lastChar t1 =? uint16 "X")).
      * destruct (Next b1 t1) as [[b2 t2]| |] eqn:N2; cbn [bind];
          try discriminate.
        destruct (scanMantissa fuel 16 b2 t2) as [[b3 t3]| |] eqn:M;
          cbn [bind]; try discriminate.
        intros H. injection H as <- <- <-. eexists. repeat split; auto.
        apply (reads_step s "" b1 b3 t1 t3 R1). intros s1 A1.
        apply (reads_step s1 b1 b2 b3 t2 t3).
        -- eapply Next_reads; eauto.
        -- intros s2 A2. eapply scanMantissa_reads; eauto.
      * destruct (scanMantissa fuel 8 b1 t1) as [[b2 t2]| |] eqn:M8;
          cbn [bind]; try discriminate.
        assert (R2 : reads s "" (b2, t2)).
        { apply (reads_step s "" b1 b2 t1 t2 R1). intros s1 A1.
          eapply scanMantissa_reads; eauto. }
        assert (G : forall b3 t3,
                   reads s "" (b3, t3) ->
                   (if (lastChar t3 =? uint16 ".")
                       || (lastChar t3 =? uint16 "e")
                       || (lastChar t3 =? uint16 "E")
                    then scanNumber_fraction fuel b3 t3
                    else Ok ((tok NUMBER, Some b3), t3))
                   = Ok ((k, val), t') \/
                   (if (lastChar t3 =? uint16 ".")
                       || (lastChar t3 =? uint16 "e")
                       || (lastChar t3 =? uint16 "E")
                    then scanNumber_fraction fuel b3 t3
                    else Ok ((tok LEX_ERROR, Some b3), t3))
                   = Ok ((k, val), t') ->
                   exists txt,
                     val = Some txt
                     /\ (k = tok NUMBER \/ k = tok LEX_ERROR)
                     /\ reads s "" (txt, t')).
        { intros b3 t3 R3 H.
          destruct ((lastChar t3 =? uint16 ".")
                    || (lastChar t3 =? uint16 "e")
                    || (lastChar t3 =? uint16 "E")).
          - assert (H' : scanNumber_fraction fuel b3 t3 = Ok ((k, val), t'))
              by (destruct H; assumption).
            destruct R3 as (m & rest & E1 & E2 & A3). cbn [fst snd] in *.
            destruct (scanNumber_fraction_reads _ _ _ _ _ _ _ A3 H')
              as (txt & -> & -> & (m2 & r2 & E3 & E4 & A4)).
            cbn [fst snd] in *. exists txt. repeat split; auto.
            exists (m ++ m2), r2. cbn [fst snd]. subst.
            now rewrite !append_assoc.
          - destruct H as [H | H]; injection H as <- <- <-;
              eexists; repeat split; eauto. }
        destruct ((lastChar t2 =? uint16 "8") || (lastChar t2 =? uint16 "9")).
        -- destruct (scanMantissa fuel 10 b2 t2) as [[b3 t3]| |] eqn:M10;
             cbn [bind]; try discriminate.
           intros H. apply (G b3 t3); [|now right].
           apply (reads_step s "" b2 b3 t2 t3 R2). intros s1 A1.
           eapply scanMantissa_reads; eauto.
        -- cbn [bind]. intros H. apply (G b2 t2 R2). now left.
    + destruct (scanMantissa fuel 10 "" t) as [[b1 t1]| |] eqn:M;
        cbn [bind]; try discriminate.
      intros H.
      destruct (scanMantissa_reads _ _ _ _ _ _ A M)
        as (m & rest & E1 & E2 & A1). cbn [fst snd] in *.
      destruct (scanNumber_fraction_reads _ _ _ _ _ _ _ A1 H)
        as (txt & -> & -> & (m2 & r2 & E3 & E4 & A4)).
      cbn [fst snd] in *. exists txt. repeat split; auto.
      exists (m ++ m2), r2. cbn [fst snd]. subst.
      now rewrite !append_assoc.
Qed.

(** X14: whatever the form of a number, its token carries the text of the
    source as it stands: before a digit, [Scan] returns a number, or the
    lexical error of an illegal octal literal, whose text is a beginning of
    the input, and leaves the tokenizer before the rest; before a dot and a
    digit the token is a number whose text starts with the dot; and a dot
    with no digit after it is the token of its own character code. *)
Theorem numbers_keep_the_source_text (t : Tokenizer) (s : string) :
  ForceEOF t = false ->
  (isDigit (head_char s) = true -> at_input (start t) s ->
   exists k txt rest t',
     Scan t = Ok ((k, Some txt), t')
     /\ (k = tok NUMBER \/ k = tok LEX_ERROR)
     /\ s = txt ++ rest /\ at_input t' rest)
  /\ (isDigit (head_char s) = true -> at_input (start t) (String "." s) ->
      exists txt rest t',
        Scan t = Ok ((tok NUMBER, Some txt), t')
        /\ String "." s = txt ++ rest /\ at_input t' rest)
  /\ (isDigit (head_char s) = false -> at_input (start t) (String "." s) ->
      Scan t = Ok ((uint16 ".", None), nextN 1 (start t))).
Proof.
  intros F. pose proof (measure_start t). pose proof (measure_lt_fuel t).
  pose proof (measure_next_le (start t)).
  split; [|split].
  - intros D A. destruct A as [L I]. rewrite <- L in D.
    rewrite (Scan_digit t F D).
    destruct (scanNumber_ok (fuel_of t) false (start t))
      as ([k val] & t' & E & _); [auto | lia |].
    destruct (scanNumber_reads _ _ _ _ _ _ _ (conj L I) E)
      as (txt & -> & Hk & (m & rest & E1 & E2 & A')).
    cbn [fst snd append] in *. subst m.
    exists k, txt, rest, t'. auto.
  - intros D A.
    pose proof (at_input_lastChar _ _ _ A) as L0.
    pose proof (at_input_next _ _ _ A) as A1.
    assert (D1 : isDigit (lastChar (next (start t))) = true)
      by (destruct A1 as [-> _]; exact D).
    assert (E0 : Scan t = scanNumber (fuel_of t) true (next (start t))).
    { enter_switch t F. settle. reflexivity. }
    rewrite E0.
    destruct (scanNumber_ok (fuel_of t) true (next (start t)))
      as ([k val] & t' & E & _); [discriminate | lia |].
    assert (K : k = tok NUMBER /\ exists txt, val = Some txt
                /\ reads s "." (txt, t')).
    { revert E. unfold scanNumber. cbv zeta.
      destruct (scanMantissa (fuel_of t) 10 (WriteByte "" ".")
                  (next (start t))) as [[b1 t1]| |] eqn:M; cbn [bind];
        try discriminate.
      intros H'.
      destruct (scanMantissa_reads _ _ _ _ _ _ A1 M)
        as (m & rest & E1 & E2 & A2). cbn [fst snd] in *.
      destruct (scanNumber_exponent_reads _ _ _ _ _ _ _ A2 H')
        as (txt & -> & -> & (m2 & r2 & E3 & E4 & A4)).
      cbn [fst snd] in *. split; [reflexivity|]. exists txt.
      split; [reflexivity|]. exists (m ++ m2), r2. cbn [fst snd]. subst.
      unfold WriteByte. now rewrite !append_assoc. }
    destruct K as (-> & txt & -> & (m & rest & E1 & E2 & A')).
    cbn [fst snd] in *. rewrite E.
    exists txt, rest, t'. subst. auto.
  - intros D A.
    pose proof (at_input_lastChar _ _ _ A) as L0.
    pose proof (at_input_next _ _ _ A) as [L1 _]. rewrite <- L1 in D.
    enter_switch t F. settle. now rewrite L0.
Qed.

End SourceText.

(** ** The keyword table *)

Lemma lower_byte_isLetter (c : ascii) :
  isLetter (uint16 (lower_byte c)) = true -> isLetter (uint16 c) = true.
Proof.
  unfold lower_byte. cbv zeta.
  destruct ((uint16 "A" <=? uint16 c) && (uint16 c <=? uint16 "Z")) eqn:U;
    [|auto].
  intros _. unfold isLetter. rewrite U. now rewrite orb_true_r.
Qed.

Lemma lower_byte_isIdentChar (c : ascii) :
  isIdentChar (uint16 (lower_byte c)) = true ->
  isIdentChar (uint16 c) = true.
Proof.
  unfold lower_byte. cbv zeta.
  destruct ((uint16 "A" <=? uint16 c) && (uint16 c <=? uint16 "Z")) eqn:U;
    [|auto].
  intros _. unfold isIdentChar, isLetter. rewrite U.
  now rewrite orb_true_r.
Qed.

Lemma ToLower_ident_shaped (w : string) :
  ident_shaped (ToLower w) = true -> ident_shaped w = true.
Proof.
  destruct w as [|c w]; [auto|]. cbn [ToLower ident_shaped].
  intros H. apply andb_prop in H as [H1 H2].
  rewrite (lower_byte_isLetter _ H1). cbn [andb].
  induction w as [|d w IH]; [reflexivity|].
  cbn [ToLower all_bytes] in *. apply andb_prop in H2 as [H2 H3].
  now rewrite (lower_byte_isIdentChar _ H2), IH.
Qed.

Lemma keywords_keys_are_ident_shaped :
  forallb (fun kv => ident_shaped (fst kv)) keywords = true.
Proof. vm_compute. reflexivity. Qed.

Lemma keywords_lookup_each :
  Forall (fun kv => lookup (fst kv) keywords = Some (snd kv)) keywords.
Proof.
  unfold keywords. repeat (constructor; [vm_compute; reflexivity|]).
  constructor.
Qed.

Section Keywords.

Context {imports : Imports}.

Lemma Scan_ident_shaped (t : Tokenizer) (w rest : string) :
  ForceEOF t = false -> ident_shaped w = true ->
  isIdentChar (head_char rest) = false ->
  at_input (start t) (w ++ rest) ->
  Scan t = Ok (classify w, nextN (String.length w) (start t)).
Proof.
  intros F Hw Hrest A. destruct w as [|c w]; [discriminate|].
  cbn [ident_shaped] in Hw. apply andb_prop in Hw as [Hc Hw].
  pose proof (at_input_lastChar _ _ _ A) as L.
  rewrite Scan_letter by (auto; now rewrite L).
  unfold scanIdentifier.
  assert (Lv : lastChar (start t) <> EOFCHAR)
    by (apply identChar_live; now rewrite L, Hc).
  pose proof (measure_next_lt _ Lv). pose proof (measure_lt_fuel t).
  pose proof (measure_start t).
  rewrite (scanIdentifier_loop_run w rest Hw Hrest);
    [| eapply at_input_next; exact A | lia].
  cbn [bind]. rewrite L, byte_uint16. unfold WriteByte, classify.
  cbn [append String.length nextN].
  now destruct (lookup (ToLower (String c w)) keywords).
Qed.

(** X15: every entry of the keyword table can be scanned, in any letter case: a
    text whose lower-case spelling is a key of the table, standing before a
    character that continues no identifier, is returned as the token of
    that entry with the key as its text. *)
Theorem every_keyword_in_any_case (t : Tokenizer) (w rest : string)
  (id : Token) :
  ForceEOF t = false ->
  In (ToLower w, id) keywords ->
  isIdentChar (head_char rest) = false ->
  at_input (start t) (w ++ rest) ->
  Scan t
  = Ok ((tok id, Some (ToLower w)), nextN (String.length w) (start t)).
Proof.
  intros F Hin Hrest A.
  assert (Hs : ident_shaped w = true).
  { apply ToLower_ident_shaped.
    pose proof keywords_keys_are_ident_shaped as K.
    rewrite forallb_forall in K. exact (K _ Hin). }
  assert (Hl : lookup (ToLower w) keywords = Some id).
  { pose proof keywords_lookup_each as K. rewrite Forall_forall in K.
    exact (K _ Hin). }
  rewrite (Scan_ident_shaped t w rest F Hs Hrest A).
  unfold classify. now rewrite Hl.
Qed.

End Keywords.

(** ** Error messages *)

Section Messages.

Context {imports : Imports}.

Hypothesis tok_inj : forall a b : Token, tok a = tok b -> a = b.
Hypothesis tok_named : forall a : Token, 255 < tok a.

(** X16: what the parser is told of a lexical error and of the end of the
    input.  A byte that [Scan] does not know is returned by [Lex] as a
    lexical error and is not written to [lval]; [Error] then reports it
    after [near], with the position of the lookahead that follows it.  At
    the end of the input [Lex] returns 0 and [Error] reports a position
    and no token.  [Error] writes [LastError] and nothing else. *)
Theorem Error_after_Lex (t : Tokenizer) (lval : yySymType) (msg : string) :
  ForceEOF t = false ->
  (forall (c : ascii) (rest : string),
      unrecognized (uint16 c) = true ->
      at_input (start t) (String c rest) ->
      exists t',
        Lex t lval = Ok (tok LEX_ERROR, lval, t')
        /\ LastError (Error t' msg)
           = msg ++ " at position " ++ fmt_d (Position (next (start t)))
               ++ " near " ++ String c ""
        /\ set_LastError (Error t' msg) (LastError t') = t')
  /\ (at_input (start t) "" ->
      exists t',
        Lex t lval = Ok (0, lval, t')
        /\ LastError (Error t' msg)
           = msg ++ " at position " ++ fmt_d (Position (next (start t)))
        /\ set_LastError (Error t' msg) (LastError t') = t').
Proof.
  intros F. split.
  - intros c rest U A.
    pose proof (at_input_lastChar _ _ _ A) as L0.
    rewrite <- L0 in U. pose proof (Scan_unrecognized t F U) as E.
    rewrite L0, byte_uint16 in E.
    eexists. split; [|split].
    + rewrite (Lex_returns t lval _ _ E).
      * unfold lval_after. cbn [fst snd].
        rewrite !(tok_eqb tok_inj) by discriminate. reflexivity.
      * left. cbn [fst]. intros X. apply tok_inj in X. discriminate.
    + reflexivity.
    + reflexivity.
  - intros A. destruct A as [L0 I0]. cbn [head_char tail] in L0, I0.
    assert (E : Scan t = Ok ((0, None), next (start t))).
    { enter_switch t F. settle. reflexivity. }
    eexists. split; [|split].
    + rewrite (Lex_returns t lval _ _ E).
      * unfold lval_after. cbn [fst snd].
        rewrite !(tok_eqb_0 tok_named). reflexivity.
      * left. cbn [fst]. pose proof (tok_named COMMENT). lia.
    + reflexivity.
    + reflexivity.
Qed.

End Messages.

(** ** The further theorems at work on the sample instance *)

Lemma blanks_are_skipped_witness :
  ForceEOF (NewStringTokenizer "   select 1") = false
  /\ all_bytes isBlank "   " = true
  /\ isBlank (head_char "select 1") = false
  /\ head_char "select 1" <> 0
  /\ at_input (start (NewStringTokenizer "   select 1"))
       ("   " ++ "select 1")
  /\ @Scan sample_imports (NewStringTokenizer "   select 1")
     = @Scan sample_imports
         (nextN 3 (start (NewStringTokenizer "   select 1"))).
Proof.
  split; [reflexivity|]. split; [reflexivity|]. split; [reflexivity|].
  split; [vm_compute; discriminate|]. split; [split; reflexivity|].
  exact (@blanks_are_skipped sample_imports
           (NewStringTokenizer "   select 1") "   " "select 1"
           eq_refl eq_refl eq_refl ltac:(vm_compute; discriminate)
           (conj eq_refl eq_refl)).
Defined.

Lemma ForceEOF_ends_the_input_witness :
  ForceEOF (set_ForceEOF (NewStringTokenizer "select 1") true) = true
  /\ @Scans sample_imports 3
       (set_ForceEOF (NewStringTokenizer "select 1") true)
     = Ok ([ (0, None); (0, None); (0, None) ],
           set_ForceEOF (NewStringTokenizer "select 1") true).
Proof.
  split; [reflexivity|].
  exact (@ForceEOF_ends_the_input sample_imports
           (set_ForceEOF (NewStringTokenizer "select 1") true) 3 eq_refl).
Defined.

Lemma end_of_input_is_sticky_witness :
  ForceEOF (nextN 2 (NewStringTokenizer "a")) = false
  /\ at_input (nextN 2 (NewStringTokenizer "a")) ""
  /\ @Scans sample_imports 2 (nextN 2 (NewStringTokenizer "a"))
     = Ok ([ (0, None); (0, None) ], nextN 4 (NewStringTokenizer "a")).
Proof.
  split; [reflexivity|]. split; [split; reflexivity|].
  exact (proj1 (@end_of_input_is_sticky sample_imports
                  (nextN 2 (NewStringTokenizer "a")) 2 eq_refl
                  (conj eq_refl eq_refl))).
Defined.

Lemma Scan_leaves_the_rest_alone_witness :
  @Scan sample_imports (NewStringTokenizer "a ? b")
  = Ok ((57347, Some "a"), nextN 2 (NewStringTokenizer "a ? b"))
  /\ errorToken (nextN 2 (NewStringTokenizer "a ? b"))
     = errorToken (NewStringTokenizer "a ? b")
  /\ LastError (nextN 2 (NewStringTokenizer "a ? b"))
     = LastError (NewStringTokenizer "a ? b").
Proof.
  assert (E : @Scan sample_imports (NewStringTokenizer "a ? b")
              = Ok ((57347, Some "a"), nextN 2 (NewStringTokenizer "a ? b")))
    by (vm_compute; reflexivity).
  split; [exact E|].
  pose proof (@Scan_leaves_the_rest_alone sample_imports _ _ _ E)
    as (_ & _ & H1 & H2 & _).
  exact (conj H1 H2).
Defined.

Lemma comparison_operators_longest_first_witness :
  ForceEOF (NewStringTokenizer "<=>1") = false
  /\ at_input (start (NewStringTokenizer "<=>1"))
       (String "<" (String "=" (String ">" "1")))
  /\ @Scan sample_imports (NewStringTokenizer "<=>1")
     = Ok ((57355, None), nextN 3 (start (NewStringTokenizer "<=>1")))
  /\ at_input (start (NewStringTokenizer "<=1")) (String "<" (String "=" "1"))
  /\ (head_char "1" =? uint16 ">") = false
  /\ @Scan sample_imports (NewStringTokenizer "<=1")
     = Ok ((57352, None), nextN 2 (start (NewStringTokenizer "<=1"))).
Proof.
  split; [reflexivity|]. split; [split; reflexivity|].
  split.
  - exact (proj1 (@comparison_operators_longest_first sample_imports
                    (NewStringTokenizer "<=>1") "1" eq_refl)
             (conj eq_refl eq_refl)).
  - split; [split; reflexivity|]. split; [reflexivity|].
    exact (proj1 (proj2 (@comparison_operators_longest_first sample_imports
                           (NewStringTokenizer "<=1") "1" eq_refl))
             (conj eq_refl eq_refl) eq_refl).
Defined.

Lemma lone_bang_is_a_lexical_error_witness :
  ForceEOF (NewStringTokenizer "!x") = false
  /\ at_input (start (NewStringTokenizer "!x")) (String "!" "x")
  /\ (head_char "x" =? uint16 "=") = false
  /\ @Scan sample_imports (NewStringTokenizer "!x")
     = Ok ((57346, Some "!"), nextN 1 (start (NewStringTokenizer "!x")))
  /\ at_input (nextN 1 (start (NewStringTokenizer "!x"))) "x".
Proof.
  split; [reflexivity|]. split; [split; reflexivity|].
  split; [reflexivity|].
  exact (@lone_bang_is_a_lexical_error sample_imports
           (NewStringTokenizer "!x") "x" eq_refl (conj eq_refl eq_refl)
           eq_refl).
Defined.

Lemma self_delimiting_characters_witness :
  ForceEOF (NewStringTokenizer "(a") = false
  /\ isSelfDelimiting (uint16 "(") = true
  /\ at_input (start (NewStringTokenizer "(a")) (String "(" "a")
  /\ @Scan sample_imports (NewStringTokenizer "(a")
     = Ok ((40, None), nextN 1 (start (NewStringTokenizer "(a")))
  /\ at_input (nextN 1 (start (NewStringTokenizer "(a"))) "a".
Proof.
  split; [reflexivity|]. split; [reflexivity|].
  split; [split; reflexivity|].
  exact (@self_delimiting_characters sample_imports
           (NewStringTokenizer "(a") "("%char "a" eq_refl eq_refl
           (conj eq_refl eq_refl)).
Defined.

Lemma unknown_byte_is_a_lexical_error_witness :
  ForceEOF (NewStringTokenizer "#a") = false
  /\ unrecognized (uint16 "#") = true
  /\ at_input (start (NewStringTokenizer "#a")) (String "#" "a")
  /\ @Scan sample_imports (NewStringTokenizer "#a")
     = Ok ((57346, Some "#"), nextN 1 (start (NewStringTokenizer "#a")))
  /\ at_input (nextN 1 (start (NewStringTokenizer "#a"))) "a".
Proof.
  split; [reflexivity|]. split; [reflexivity|].
  split; [split; reflexivity|].
  exact (@unknown_byte_is_a_lexical_error sample_imports
           (NewStringTokenizer "#a") "#"%char "a" eq_refl eq_refl
           (conj eq_refl eq_refl)).
Defined.

Lemma line_comments_witness :
  ForceEOF (NewStringTokenizer ("-- hi" ++ String "010" "1")) = false
  /\ all_bytes (fun ch => negb (isNewline ch)) " hi" = true
  /\ at_input (start (NewStringTokenizer ("-- hi" ++ String "010" "1")))
       (String "-" (String "-" (" hi" ++ String "010" "1")))
  /\ @Scan sample_imports (NewStringTokenizer ("-- hi" ++ String "010" "1"))
     = Ok ((57351, Some ("-- hi" ++ String "010" "")),
           nextN 6 (start (NewStringTokenizer ("-- hi" ++ String "010" "1"))))
  /\ at_input (start (NewStringTokenizer "// hi"))
       (String "/" (String "/" " hi"))
  /\ @Scan sample_imports (NewStringTokenizer "// hi")
     = Ok ((57351, Some "// hi"),
           nextN 5 (start (NewStringTokenizer "// hi"))).
Proof.
  split; [reflexivity|]. split; [reflexivity|].
  split; [split; reflexivity|].
  split.
  - exact (proj1 (@line_comments sample_imports
                    (NewStringTokenizer ("-- hi" ++ String "010" "1"))
                    "-"%char " hi" "1" eq_refl (or_introl eq_refl) eq_refl)
             (conj eq_refl eq_refl)).
  - split; [split; reflexivity|].
    exact (proj2 (@line_comments sample_imports
                    (NewStringTokenizer "// hi")
                    "/"%char " hi" "" eq_refl (or_intror eq_refl) eq_refl)
             (conj eq_refl eq_refl)).
Defined.

Lemma block_comments_close_at_the_first_terminator_witness :
  ForceEOF (NewStringTokenizer "/* a * b **/ */") = false
  /\ has_star_slash " a * b *" = false
  /\ at_input (start (NewStringTokenizer "/* a * b **/ */"))
       (String "/" (String "*" (" a * b *" ++ String "*" (String "/" " */"))))
  /\ @Scan sample_imports (NewStringTokenizer "/* a * b **/ */")
     = Ok ((57351, Some "/* a * b **/"),
           nextN 12 (start (NewStringTokenizer "/* a * b **/ */"))).
Proof.
  split; [reflexivity|]. split; [reflexivity|].
  split; [split; reflexivity|].
  exact (@block_comments_close_at_the_first_terminator sample_imports
           (NewStringTokenizer "/* a * b **/ */") " a * b *" " */"
           eq_refl eq_refl (conj eq_refl eq_refl)).
Defined.

Lemma named_bind_variables_witness :
  ForceEOF (NewStringTokenizer ":a.b1 x") = false
  /\ all_bytes isNameChar "a.b1" = true
  /\ isNameChar (head_char " x") = false
  /\ at_input (start (NewStringTokenizer ":a.b1 x")) (String ":" ("a.b1" ++ " x"))
  /\ @Scan sample_imports (NewStringTokenizer ":a.b1 x")
     = Ok ((57350, Some ":a.b1"),
           nextN 5 (start (NewStringTokenizer ":a.b1 x")))
  /\ @Scan sample_imports (NewStringTokenizer ": x")
     = Ok ((57346, Some ":"), nextN 1 (start (NewStringTokenizer ": x"))).
Proof.
  split; [reflexivity|]. split; [reflexivity|]. split; [reflexivity|].
  split; [split; reflexivity|].
  split.
  - exact (@named_bind_variables sample_imports
             (NewStringTokenizer ":a.b1 x") "a.b1" " x"
             eq_refl eq_refl eq_refl (conj eq_refl eq_refl)).
  - exact (@named_bind_variables sample_imports
             (NewStringTokenizer ": x") "" " x"
             eq_refl eq_refl eq_refl (conj eq_refl eq_refl)).
Defined.

Lemma doubled_delimiters_round_trip_witness :
  ForceEOF (NewStringTokenizer "'it''s' x") = false
  /\ isQuote "'" = true
  /\ all_bytes (fun ch => negb (isBackslash ch)) "it's" = true
  /\ (head_char " x" =? uint16 "'") = false
  /\ at_input (start (NewStringTokenizer "'it''s' x"))
       (String "'" (double_delim "'" "it's" ++ String "'" " x"))
  /\ @Scan sample_imports (NewStringTokenizer "'it''s' x")
     = Ok ((57348, Some "it's"),
           nextN 7 (start (NewStringTokenizer "'it''s' x"))).
Proof.
  split; [reflexivity|]. split; [reflexivity|]. split; [reflexivity|].
  split; [reflexivity|]. split; [split; reflexivity|].
  exact (@doubled_delimiters_round_trip sample_imports
           (NewStringTokenizer "'it''s' x") "'"%char "it's" " x"
           eq_refl eq_refl eq_refl eq_refl (conj eq_refl eq_refl)).
Defined.

Lemma numbers_keep_the_source_text_witness :
  ForceEOF (NewStringTokenizer "12.5e3+1") = false
  /\ isDigit (head_char "12.5e3+1") = true
  /\ at_input (start (NewStringTokenizer "12.5e3+1")) "12.5e3+1"
  /\ (exists k txt rest t',
        @Scan sample_imports (NewStringTokenizer "12.5e3+1")
        = Ok ((k, Some txt), t')
        /\ (k = 57349 \/ k = 57346)
        /\ "12.5e3+1" = txt ++ rest /\ at_input t' rest)
  /\ @Scan sample_imports (NewStringTokenizer "12.5e3+1")
     = Ok ((57349, Some "12.5e3"), nextN 7 (NewStringTokenizer "12.5e3+1"))
  /\ isDigit (head_char "a") = false
  /\ at_input (start (NewStringTokenizer ".a")) (String "." "a")
  /\ @Scan sample_imports (NewStringTokenizer ".a")
     = Ok ((46, None), nextN 1 (start (NewStringTokenizer ".a"))).
Proof.
  split; [reflexivity|]. split; [reflexivity|].
  split; [split; reflexivity|].
  split.
  - exact (proj1 (@numbers_keep_the_source_text sample_imports
                    (NewStringTokenizer "12.5e3+1") "12.5e3+1" eq_refl)
             eq_refl (conj eq_refl eq_refl)).
  - split; [vm_compute; reflexivity|]. split; [reflexivity|].
    split; [split; reflexivity|].
    exact (proj2 (proj2 (@numbers_keep_the_source_text sample_imports
                           (NewStringTokenizer ".a") "a" eq_refl))
             eq_refl (conj eq_refl eq_refl)).
Defined.

Lemma every_keyword_in_any_case_witness :
  ForceEOF (NewStringTokenizer "SeLeCt x") = false
  /\ In (ToLower "SeLeCt", SELECT) keywords
  /\ isIdentChar (head_char " x") = false
  /\ at_input (start (NewStringTokenizer "SeLeCt x")) ("SeLeCt" ++ " x")
  /\ @Scan sample_imports (NewStringTokenizer "SeLeCt x")
     = Ok ((57356, Some "select"),
           nextN 6 (start (NewStringTokenizer "SeLeCt x"))).
Proof.
  assert (I : In (ToLower "SeLeCt", SELECT) keywords)
    by (left; reflexivity).
  split; [reflexivity|]. split; [exact I|]. split; [reflexivity|].
  split; [split; reflexivity|].
  exact (@every_keyword_in_any_case sample_imports
           (NewStringTokenizer "SeLeCt x") "SeLeCt" " x" SELECT
           eq_refl I eq_refl (conj eq_refl eq_refl)).
Defined.

Lemma Error_after_Lex_witness :
  (forall a b : Token, goyacc_tok a = goyacc_tok b -> a = b)
  /\ (forall a : Token, 255 < goyacc_tok a)
  /\ ForceEOF (NewStringTokenizer "#") = false
  /\ unrecognized (uint16 "#") = true
  /\ at_input (start (NewStringTokenizer "#")) (String "#" "")
  /\ exists t',
       @Lex sample_imports (NewStringTokenizer "#") (mkSym None)
       = Ok (57346, mkSym None, t')
       /\ LastError (Error t' "syntax error")
          = "syntax error at position 2 near #"
       /\ set_LastError (Error t' "syntax error") (LastError t') = t'.
Proof.
  split; [exact goyacc_tok_inj|]. split; [exact goyacc_tok_named|].
  split; [reflexivity|]. split; [reflexivity|].
  split; [split; reflexivity|].
  exact (proj1 (@Error_after_Lex sample_imports
                  goyacc_tok_inj goyacc_tok_named
                  (NewStringTokenizer "#") (mkSym None) "syntax error"
                  eq_refl)
           "#"%char "" eq_refl (conj eq_refl eq_refl)).
Defined.
